(** * Wallet-side PSBT orchestration (src/wallet/psbtwallet.cpp)

    A shallow embedding of [FillPSBTInputsData], [SignPSBT],
    [FillPSBTOutputsData], [FillPSBTData] and [FillPSBT], and the properties
    of the control protocol they implement.

    C++ references to the PSBT become explicit state passing.  A
    [std::vector] read through [at] or [operator[]] and a dereferenced
    [boost::optional] have three possible outcomes, which the [outcome]
    monad keeps apart: a value, a thrown [std::out_of_range], or undefined
    behaviour.  [LOCK(pwallet->cs_wallet)] has no sequential content and is
    not modelled. *)

From Stdlib Require Import ZArith.
From Stdlib.Strings Require Import Byte.
From stdpp Require Import base option list gmap.

Local Open Scope Z_scope.

(** ** Outcomes of a C++ call *)

Inductive outcome (A : Type) : Type :=
  | Normal (a : A)   (* the call returns *)
  | OutOfRange       (* std::out_of_range thrown by vector::at *)
  | Undefined.       (* operator[] past the end, or * on an empty optional *)
Arguments Normal {A} a.
Arguments OutOfRange {A}.
Arguments Undefined {A}.

#[global] Instance outcome_ret : MRet outcome := @Normal.
#[global] Instance outcome_bind : MBind outcome := λ A B f m,
  match m with
  | Normal a => f a
  | OutOfRange => OutOfRange
  | Undefined => Undefined
  end.

(** [v.at(i)] *)
Definition vec_at {A} (v : list A) (i : nat) : outcome A :=
  match v !! i with Some x => Normal x | None => OutOfRange end.

(** [v[i]] *)
Definition vec_index {A} (v : list A) (i : nat) : outcome A :=
  match v !! i with Some x => Normal x | None => Undefined end.

(** [*o] on a [boost::optional] *)
Definition deref {A} (o : option A) : outcome A :=
  match o with Some x => Normal x | None => Undefined end.

(** ** Data model *)

Definition uint256 : Type := N.
Definition CAmount : Type := Z.            (* int64_t *)
Definition bytes : Type := list byte.      (* std::vector<unsigned char> *)
Definition CScript : Type := bytes.
Definition CPubKey : Type := bytes.
Definition CAsset : Type := uint256.

#[global] Instance byte_eq_decision : EqDecision byte := Byte.byte_eq_dec.

(** [CConfidentialValue], [CConfidentialAsset] and [CConfidentialNonce]
    each wrap a serialized commitment. *)
Module CConfidentialValue.
Record t := mk { vchCommitment : bytes }.
End CConfidentialValue.
Module CConfidentialAsset.
Record t := mk { vchCommitment : bytes }.
End CConfidentialAsset.
Module CConfidentialNonce.
Record t := mk { vchCommitment : bytes }.
End CConfidentialNonce.

Module COutPoint.
Record t := mk { hash : uint256; n : N (* uint32_t *) }.
End COutPoint.

Module CTxIn.
Record t := mk { prevout : COutPoint.t; scriptSig : CScript; nSequence : N }.
End CTxIn.

Module CTxOut.
Record t := mk {
    nAsset : CConfidentialAsset.t;
    nValue : CConfidentialValue.t;
    nNonce : CConfidentialNonce.t;
    scriptPubKey : CScript }.
Definition set_nValue (v : CConfidentialValue.t) (o : t) : t :=
    mk (nAsset o) v (nNonce o) (scriptPubKey o).
Definition set_nAsset (a : CConfidentialAsset.t) (o : t) : t :=
    mk a (nValue o) (nNonce o) (scriptPubKey o).
Definition set_nNonce (c : CConfidentialNonce.t) (o : t) : t :=
    mk (nAsset o) (nValue o) c (scriptPubKey o).
End CTxOut.

Module CTxOutWitness.
Record t := mk { vchSurjectionproof : bytes; vchRangeproof : bytes }.
  (** a default-constructed element, as [resize] appends *)
Definition null : t := mk [] [].
Definition set_vchRangeproof (p : bytes) (w : t) : t := mk (vchSurjectionproof w) p.
Definition set_vchSurjectionproof (p : bytes) (w : t) : t := mk p (vchRangeproof w).
End CTxOutWitness.

Module CTxInWitness.
Record t := mk { scriptWitness : list bytes }.
End CTxInWitness.

Module CTxWitness.
Record t := mk { vtxinwit : list CTxInWitness.t; vtxoutwit : list CTxOutWitness.t }.
Definition set_vtxoutwit (w : list CTxOutWitness.t) (x : t) : t := mk (vtxinwit x) w.
End CTxWitness.

Module CMutableTransaction.
Record t := mk {
    vin : list CTxIn.t;
    vout : list CTxOut.t;
    nVersion : Z;
    nLockTime : N;
    witness : CTxWitness.t }.
Definition set_vout (v : list CTxOut.t) (x : t) : t :=
    mk (vin x) v (nVersion x) (nLockTime x) (witness x).
Definition set_witness (w : CTxWitness.t) (x : t) : t :=
    mk (vin x) (vout x) (nVersion x) (nLockTime x) w.
End CMutableTransaction.

(** The immutable transaction: the same members, and the hash cached by the
    constructor, which [GetHash] returns. *)
Module CTransaction.
Record t := mk {
    vin : list CTxIn.t;
    vout : list CTxOut.t;
    nVersion : Z;
    nLockTime : N;
    witness : CTxWitness.t;
    hash : uint256 }.
Definition GetHash (x : t) : uint256 := hash x.
End CTransaction.

(** A wallet transaction; [tx] is the only member read here. *)
Module CWalletTx.
Record t := mk { tx : CTransaction.t }.
End CWalletTx.

Module CWallet.
Record t := mk { mapWallet : gmap N CWalletTx.t }.
End CWallet.

Module PSBTInput.
Record t := mk {
    non_witness_utxo : option CTransaction.t;   (* CTransactionRef, null = None *)
    witness_utxo : CTxOut.t;
    partial_sigs : list (CPubKey * bytes);
    final_script_sig : CScript;
    final_script_witness : list bytes;
    sighash_type : Z;                           (* int *)
    value : option CAmount;
    value_blinding_factor : uint256;
    asset : CAsset;
    asset_blinding_factor : uint256 }.
Definition set_non_witness_utxo (u : option CTransaction.t) (i : t) : t :=
    mk u (witness_utxo i) (partial_sigs i) (final_script_sig i)
       (final_script_witness i) (sighash_type i) (value i)
       (value_blinding_factor i) (asset i) (asset_blinding_factor i).
Definition set_value (v : option CAmount) (i : t) : t :=
    mk (non_witness_utxo i) (witness_utxo i) (partial_sigs i) (final_script_sig i)
       (final_script_witness i) (sighash_type i) v
       (value_blinding_factor i) (asset i) (asset_blinding_factor i).
Definition set_blinding (vbf : uint256) (a : CAsset) (abf : uint256) (i : t) : t :=
    mk (non_witness_utxo i) (witness_utxo i) (partial_sigs i) (final_script_sig i)
       (final_script_witness i) (sighash_type i) (value i) vbf a abf.
End PSBTInput.

Module PSBTOutput.
Record t := mk {
    redeem_script : CScript;
    witness_script : CScript;
    hd_keypaths : list (CPubKey * list N);
    blinding_pubkey : CPubKey;
    value_commitment : CConfidentialValue.t;
    value_blinding_factor : uint256;
    asset_commitment : CConfidentialAsset.t;
    asset_blinding_factor : uint256;
    nonce_commitment : CConfidentialNonce.t;
    range_proof : bytes;
    surjection_proof : bytes }.
End PSBTOutput.

Module PartiallySignedTransaction.
Record t := mk {
    tx : option CMutableTransaction.t;   (* boost::optional<CMutableTransaction> *)
    inputs : list PSBTInput.t;
    outputs : list PSBTOutput.t }.
Definition set_tx (x : option CMutableTransaction.t) (p : t) : t :=
    mk x (inputs p) (outputs p).
Definition set_inputs (i : list PSBTInput.t) (p : t) : t :=
    mk (tx p) i (outputs p).
Definition set_outputs (o : list PSBTOutput.t) (p : t) : t :=
    mk (tx p) (inputs p) o.
End PartiallySignedTransaction.

Abbreviation PSBT := PartiallySignedTransaction.t.

#[global] Instance CConfidentialValue_eq_dec : EqDecision CConfidentialValue.t.
Proof. solve_decision. Defined.
#[global] Instance CConfidentialAsset_eq_dec : EqDecision CConfidentialAsset.t.
Proof. solve_decision. Defined.
#[global] Instance CConfidentialNonce_eq_dec : EqDecision CConfidentialNonce.t.
Proof. solve_decision. Defined.
(** [operator==] on [CTxOut] compares the four members. *)
#[global] Instance CTxOut_eq_dec : EqDecision CTxOut.t.
Proof. solve_decision. Defined.

Inductive TransactionError : Type :=
  | OK
  | INVALID_PSBT
  | BLINDING_REQUIRED
  | UTXOS_MISSING_BALANCE_CHECK
  | VALUE_IMBALANCE
  | SIGHASH_MISMATCH.

#[global] Instance TransactionError_eq_dec : EqDecision TransactionError.
Proof. solve_decision. Defined.

(** [HidingSigningProvider(pwallet, hide_secret, hide_origin)] *)
Module HidingSigningProvider.
Record t := mk { provider : CWallet.t; hide_secret : bool; hide_origin : bool }.
End HidingSigningProvider.

(** [MutableTransactionSignatureCreator(&tx, nIn, amount, nHashType)] *)
Module MutableTransactionSignatureCreator.
Record t := mk {
    txTo : CMutableTransaction.t;
    nIn : nat;
    amount : CConfidentialValue.t;
    nHashType : Z }.
End MutableTransactionSignatureCreator.

(** ** Collaborators

    The functions below are declared in headers outside
    src/wallet/psbtwallet.cpp; the file only calls them.  They are taken as
    parameters, one per callee, and every theorem holds for all of them. *)

Class Collaborators : Type := {
  (** script/sign.h: the working record of [ProduceSignature] *)
  SignatureData : Type;
  (** [SignatureData sigdata;] *)
  SignatureData_default : SignatureData;
  (** [CTransaction::ComputeHash], run by the converting constructor *)
  ComputeHash : CMutableTransaction.t → uint256;
  (** [CPubKey::IsValid] *)
  CPubKey_IsValid : CPubKey → bool;
  (** [IsNull] of the three commitment types and of [CTxOut] *)
  CConfidentialValue_IsNull : CConfidentialValue.t → bool;
  CConfidentialAsset_IsNull : CConfidentialAsset.t → bool;
  CConfidentialNonce_IsNull : CConfidentialNonce.t → bool;
  CTxOut_IsNull : CTxOut.t → bool;
  (** psbt.h *)
  PSBTInputSigned : PSBTInput.t → bool;
  PSBTInput_IsSane : PSBTInput.t → bool;
  (** [CWalletTx::GetNonIssuanceBlindingData(n, nullptr, &val, &vbf, &asset,
      &abf)]: the three members passed by address go in and come out; the
      local [val_tmp] is uninitialised before the call and only comes out. *)
  GetNonIssuanceBlindingData :
    CWalletTx.t → N → uint256 → CAsset → uint256 → CAmount * uint256 * CAsset * uint256;
  (** psbt.h: [bool SignPSBTInput(provider, psbt, index, sighash)].  It
      receives the PSBT by reference.  It reads the transaction and writes to
      the input side-records only, so the parameter hands [psbt.inputs] back
      next to the returned flag and the skeleton and the output side-records
      stay as they are; which side-records it rewrites is left to the
      contract stated further down.  It may throw. *)
  SignPSBTInput :
    HidingSigningProvider.t → PSBT → nat → Z → outcome (bool * list PSBTInput.t);
  (** confidential_validation.h:
      [VerifyAmounts(inputs_utxos, tx, nullptr, false)] *)
  VerifyAmounts : list CTxOut.t → CTransaction.t → bool;
  (** [PSBTOutput::FillSignatureData(sigdata)] *)
  FillSignatureData : PSBTOutput.t → SignatureData → SignatureData;
  (** [ProduceSignature(provider, creator, scriptPubKey, sigdata)] *)
  ProduceSignature :
    HidingSigningProvider.t → MutableTransactionSignatureCreator.t → CScript →
    SignatureData → bool * SignatureData;
  (** [PSBTOutput::FromSignatureData(sigdata)] *)
  FromSignatureData : PSBTOutput.t → SignatureData → PSBTOutput.t
}.

(** ** Loops with an early [return] *)

Inductive ctl (S R : Type) : Type :=
  | Next (s : S)            (* fall through to the next iteration *)
  | Return (r : R) (s : S). (* [return r;] from the enclosing function *)
Arguments Next {S R} s.
Arguments Return {S R} r s.

(** [for (i = lo; i < lo + n; ++i) body], the state threaded through. *)
Fixpoint for_loop {S R : Type} (body : nat → S → outcome (ctl S R))
    (n : nat) (i : nat) (s : S) : outcome (ctl S R) :=
  match n with
  | O => Normal (Next s)
  | Datatypes.S n' =>
      c ← body i s;
      match c with
      | Next s' => for_loop body n' (Datatypes.S i) s'
      | Return r s' => Normal (Return r s')
      end
  end.

Section Wallet.

Context `{Collaborators}.

Import PartiallySignedTransaction.

(** [CTransaction(const CMutableTransaction&)] *)
Definition CTransaction_of (m : CMutableTransaction.t) : CTransaction.t :=
  CTransaction.mk (CMutableTransaction.vin m) (CMutableTransaction.vout m)
    (CMutableTransaction.nVersion m) (CMutableTransaction.nLockTime m)
    (CMutableTransaction.witness m) (ComputeHash m).

(** [CMutableTransaction(const CTransaction&)] *)
Definition CMutableTransaction_of (c : CTransaction.t) : CMutableTransaction.t :=
  CMutableTransaction.mk (CTransaction.vin c) (CTransaction.vout c)
    (CTransaction.nVersion c) (CTransaction.nLockTime c) (CTransaction.witness c).

(** *** FillPSBTInputsData *)

(** Lines 30-43: the wallet knows the previous transaction [wtx]. *)
Definition fill_from_wallet (wtx : CWalletTx.t) (txin : CTxIn.t)
    (input : PSBTInput.t) : PSBTInput.t :=
  let input :=
    match PSBTInput.non_witness_utxo input with
    | None =>
        if CTxOut_IsNull (PSBTInput.witness_utxo input)
        then PSBTInput.set_non_witness_utxo (Some (CWalletTx.tx wtx)) input
        else input
    | Some _ => input
    end in
  let '(val_tmp, vbf, a, abf) :=
    GetNonIssuanceBlindingData wtx (COutPoint.n (CTxIn.prevout txin))
      (PSBTInput.value_blinding_factor input) (PSBTInput.asset input)
      (PSBTInput.asset_blinding_factor input) in
  let input := PSBTInput.set_blinding vbf a abf input in
  if bool_decide (val_tmp ≠ -1) then PSBTInput.set_value (Some val_tmp) input
  else input.

(** The value the blinding-data provider reports for the outpoint of
    [txin] ([val_tmp] after line 40). *)
Definition provider_value (wtx : CWalletTx.t) (txin : CTxIn.t)
    (input : PSBTInput.t) : CAmount :=
  (GetNonIssuanceBlindingData wtx (COutPoint.n (CTxIn.prevout txin))
     (PSBTInput.value_blinding_factor input) (PSBTInput.asset input)
     (PSBTInput.asset_blinding_factor input)).1.1.1.

(** Lines 27-44: look the previous transaction up in the wallet. *)
Definition fill_input (pwallet : CWallet.t) (txin : CTxIn.t) (input : PSBTInput.t)
    : PSBTInput.t :=
  let txhash := COutPoint.hash (CTxIn.prevout txin) in
  match CWallet.mapWallet pwallet !! txhash with
  | Some wtx => fill_from_wallet wtx txin input
  | None => input
  end.

(** One iteration of the loop of lines 14-48. *)
Definition FillPSBTInputsData_body (pwallet : CWallet.t)
    (tx : CMutableTransaction.t) (bip32derivs : bool) (i : nat) (psbtx : PSBT)
    : outcome (ctl PSBT TransactionError) :=
  txin ← vec_index (CMutableTransaction.vin tx) i;
  input ← vec_at (inputs psbtx) i;
  if PSBTInputSigned input then Normal (Next psbtx)
  else if negb (PSBTInput_IsSane input) then Normal (Return INVALID_PSBT psbtx)
  else
    let input := fill_input pwallet txin input in
    let psbtx := set_inputs (<[i := input]> (inputs psbtx)) psbtx in
    '(_, inputs') ← SignPSBTInput
      (HidingSigningProvider.mk pwallet true (negb bip32derivs)) psbtx i 1;
    Normal (Next (set_inputs inputs' psbtx)).

Definition FillPSBTInputsData (pwallet : CWallet.t) (psbtx : PSBT)
    (bip32derivs : bool) : outcome (TransactionError * PSBT) :=
  tx ← deref (tx psbtx);
  c ← for_loop (FillPSBTInputsData_body pwallet tx bip32derivs)
        (length (CMutableTransaction.vin tx)) 0 psbtx;
  match c with
  | Next psbtx' => Normal (OK, psbtx')
  | Return te psbtx' => Normal (te, psbtx')
  end.

(** *** SignPSBT *)

(** Lines 57-61: is some output still waiting to be blinded? *)
Fixpoint blinding_pubkey_valid (outputs : list PSBTOutput.t) : bool :=
  match outputs with
  | [] => false
  | o :: rest =>
      if CPubKey_IsValid (PSBTOutput.blinding_pubkey o) then true
      else blinding_pubkey_valid rest
  end.

(** Lines 75-83: the three commitments of one output. *)
Definition stuff_out (output : PSBTOutput.t) (out : CTxOut.t) : CTxOut.t :=
  let out :=
    if negb (CConfidentialValue_IsNull (PSBTOutput.value_commitment output))
    then CTxOut.set_nValue (PSBTOutput.value_commitment output) out else out in
  let out :=
    if negb (CConfidentialAsset_IsNull (PSBTOutput.asset_commitment output))
    then CTxOut.set_nAsset (PSBTOutput.asset_commitment output) out else out in
  if negb (CConfidentialNonce_IsNull (PSBTOutput.nonce_commitment output))
  then CTxOut.set_nNonce (PSBTOutput.nonce_commitment output) out else out.

(** Lines 87-93: the two proofs of one output. *)
Definition stuff_outwit (output : PSBTOutput.t) (outwit : CTxOutWitness.t)
    : CTxOutWitness.t :=
  let outwit :=
    match PSBTOutput.range_proof output with
    | [] => outwit
    | _ :: _ => CTxOutWitness.set_vchRangeproof (PSBTOutput.range_proof output) outwit
    end in
  match PSBTOutput.surjection_proof output with
  | [] => outwit
  | _ :: _ =>
      CTxOutWitness.set_vchSurjectionproof (PSBTOutput.surjection_proof output) outwit
  end.

(** One iteration of the loop of lines 71-94; the state is the transaction
    [tx], which aliases [*psbtx.tx]. *)
Definition stuff_body (outputs : list PSBTOutput.t) (i : nat)
    (tx : CMutableTransaction.t) : outcome (ctl CMutableTransaction.t Empty_set) :=
  output ← vec_at outputs i;
  out ← vec_index (CMutableTransaction.vout tx) i;
  let tx :=
    CMutableTransaction.set_vout
      (<[i := stuff_out output out]> (CMutableTransaction.vout tx)) tx in
  let wit := CMutableTransaction.witness tx in
  outwit ← vec_index (CTxWitness.vtxoutwit wit) i;
  Normal (Next
    (CMutableTransaction.set_witness
       (CTxWitness.set_vtxoutwit
          (<[i := stuff_outwit output outwit]> (CTxWitness.vtxoutwit wit)) wit)
       tx)).

(** Lines 68-94: resize the output witnesses, then stuff every output. *)
Definition materialize (outputs : list PSBTOutput.t) (tx : CMutableTransaction.t)
    : outcome CMutableTransaction.t :=
  let wit := CMutableTransaction.witness tx in
  let tx :=
    CMutableTransaction.set_witness
      (CTxWitness.set_vtxoutwit
         (resize (length (CMutableTransaction.vout tx)) CTxOutWitness.null
            (CTxWitness.vtxoutwit wit)) wit) tx in
  c ← for_loop (stuff_body outputs) (length (CMutableTransaction.vout tx)) 0 tx;
  match c with
  | Next tx' => Normal tx'
  | Return r _ => match (r : Empty_set) with end
  end.

(** One iteration of the loop of lines 100-115; the state is
    [inputs_utxos]. *)
Definition utxo_body (inputs : list PSBTInput.t) (tx : CMutableTransaction.t)
    (i : nat) (inputs_utxos : list CTxOut.t)
    : outcome (ctl (list CTxOut.t) TransactionError) :=
  inp ← vec_index inputs i;
  match PSBTInput.non_witness_utxo inp with
  | Some prev =>
      txin ← vec_index (CMutableTransaction.vin tx) i;
      let prevout := CTxIn.prevout txin in
      if bool_decide (CTransaction.GetHash prev ≠ COutPoint.hash prevout)
      then Normal (Return INVALID_PSBT inputs_utxos)
      else
        differs ←
          (if negb (CTxOut_IsNull (PSBTInput.witness_utxo inp))
           then
             o ← vec_index (CTransaction.vout prev) (N.to_nat (COutPoint.n prevout));
             Normal (bool_decide (o ≠ PSBTInput.witness_utxo inp))
           else Normal false);
        if (differs : bool) then Normal (Return INVALID_PSBT inputs_utxos)
        else
          o ← vec_index (CTransaction.vout prev) (N.to_nat (COutPoint.n prevout));
          Normal (Next (inputs_utxos ++ [o]))
  | None =>
      if negb (CTxOut_IsNull (PSBTInput.witness_utxo inp))
      then Normal (Next (inputs_utxos ++ [PSBTInput.witness_utxo inp]))
      else Normal (Return UTXOS_MISSING_BALANCE_CHECK inputs_utxos)
  end.

(** Lines 97-121; [None] when the block falls through. *)
Definition balance_check (inputs : list PSBTInput.t) (tx : CMutableTransaction.t)
    : outcome (option TransactionError) :=
  c ← for_loop (utxo_body inputs tx) (length inputs) 0 [];
  match c with
  | Return te _ => Normal (Some te)
  | Next inputs_utxos =>
      let tx_tmp := CTransaction_of tx in
      if negb (VerifyAmounts inputs_utxos tx_tmp) then Normal (Some VALUE_IMBALANCE)
      else Normal None
  end.

(** Line 126, the test on one input: a sighash mode is recorded ([> 0]) and
    is not the requested one. *)
Definition sighash_differs (sighash_type : Z) (inp : PSBTInput.t) : bool :=
  (0 <? PSBTInput.sighash_type inp)
  && negb (PSBTInput.sighash_type inp =? sighash_type).

(** One iteration of the loop of lines 124-133; the state is the PSBT and
    [complete]. *)
Definition sign_body (pwallet : CWallet.t) (sighash_type : Z) (sign : bool)
    (i : nat) (st : PSBT * bool) : outcome (ctl (PSBT * bool) TransactionError) :=
  let '(psbtx, complete) := st in
  mismatch ←
    (if sign then
       inp ← vec_index (inputs psbtx) i;
       Normal (sighash_differs sighash_type inp)
     else Normal false);
  if (mismatch : bool) then Normal (Return SIGHASH_MISMATCH (psbtx, false))
  else
    '(ok, inputs') ← SignPSBTInput
      (HidingSigningProvider.mk pwallet (negb sign) true) psbtx i sighash_type;
    Normal (Next (set_inputs inputs' psbtx, complete && ok)).

(** The result is the returned code, [complete] and the PSBT on return. *)
Definition SignPSBT (pwallet : CWallet.t) (psbtx : PSBT) (sighash_type : Z)
    (sign imbalance_ok : bool) : outcome (TransactionError * bool * PSBT) :=
  if blinding_pubkey_valid (outputs psbtx)
  then Normal (BLINDING_REQUIRED, false, psbtx)
  else
    tx0 ← deref (tx psbtx);
    let oldtx := CTransaction_of tx0 in
    tx ← materialize (outputs psbtx) tx0;
    let psbtx := set_tx (Some tx) psbtx in
    failed ← (if negb imbalance_ok then balance_check (inputs psbtx) tx
              else Normal None);
    match failed with
    | Some te => Normal (te, false, psbtx)
    | None =>
        c ← for_loop (sign_body pwallet sighash_type sign)
              (length (CMutableTransaction.vin tx)) 0 (psbtx, true);
        match c with
        | Return te (psbtx', complete) => Normal (te, complete, psbtx')
        | Next (psbtx', complete) =>
            Normal (OK, complete, set_tx (Some (CMutableTransaction_of oldtx)) psbtx')
        end
    end.

(** *** FillPSBTOutputsData *)

(** One iteration of the loop of lines 145-156. *)
Definition FillPSBTOutputsData_body (pwallet : CWallet.t)
    (tx : CMutableTransaction.t) (bip32derivs : bool) (i : nat) (psbtx : PSBT)
    : outcome (ctl PSBT Empty_set) :=
  out ← vec_at (CMutableTransaction.vout tx) i;
  psbt_out ← vec_at (outputs psbtx) i;
  let sigdata := FillSignatureData psbt_out SignatureData_default in
  let creator := MutableTransactionSignatureCreator.mk tx 0 (CTxOut.nValue out) 1 in
  let '(_, sigdata) :=
    ProduceSignature (HidingSigningProvider.mk pwallet true (negb bip32derivs))
      creator (CTxOut.scriptPubKey out) sigdata in
  Normal (Next
    (set_outputs (<[i := FromSignatureData psbt_out sigdata]> (outputs psbtx)) psbtx)).

Definition FillPSBTOutputsData (pwallet : CWallet.t) (psbtx : PSBT)
    (bip32derivs : bool) : outcome PSBT :=
  tx ← deref (tx psbtx);
  c ← for_loop (FillPSBTOutputsData_body pwallet tx bip32derivs)
        (length (CMutableTransaction.vout tx)) 0 psbtx;
  match c with
  | Next psbtx' => Normal psbtx'
  | Return r _ => match (r : Empty_set) with end
  end.

(** *** FillPSBTData and FillPSBT *)

Definition FillPSBTData (pwallet : CWallet.t) (psbtx : PSBT) (bip32derivs : bool)
    : outcome (TransactionError * PSBT) :=
  '(te, psbtx) ← FillPSBTInputsData pwallet psbtx bip32derivs;
  if bool_decide (te ≠ OK) then Normal (te, psbtx)
  else
    psbtx ← FillPSBTOutputsData pwallet psbtx bip32derivs;
    Normal (OK, psbtx).

Definition FillPSBT (pwallet : CWallet.t) (psbtx : PSBT) (sighash_type : Z)
    (sign bip32derivs : bool) : outcome (TransactionError * bool * PSBT) :=
  '(te, psbtx) ← FillPSBTInputsData pwallet psbtx bip32derivs;
  if bool_decide (te ≠ OK) then Normal (te, false, psbtx)
  else
    '(te, complete, psbtx) ← SignPSBT pwallet psbtx sighash_type sign true;
    if bool_decide (te ≠ OK) then Normal (te, complete, psbtx)
    else
      psbtx ← FillPSBTOutputsData pwallet psbtx bip32derivs;
      Normal (OK, complete, psbtx).

(** ** Notions used to state the properties *)

(** The side-records are index-aligned with the skeleton (the PSBT format
    invariant, which the deserializer enforces). *)
Definition well_formed (psbtx : PSBT) : Prop :=
  match tx psbtx with
  | Some t =>
      length (inputs psbtx) = length (CMutableTransaction.vin t)
      ∧ length (outputs psbtx) = length (CMutableTransaction.vout t)
  | None => False
  end.

(** The transaction [materialize] builds, in closed form: output [i] and
    output witness [i] stuffed from side-record [i]. *)
Definition stuffed (outputs : list PSBTOutput.t) (tx : CMutableTransaction.t)
    : CMutableTransaction.t :=
  let wit := CMutableTransaction.witness tx in
  CMutableTransaction.mk (CMutableTransaction.vin tx)
    (zip_with stuff_out outputs (CMutableTransaction.vout tx))
    (CMutableTransaction.nVersion tx) (CMutableTransaction.nLockTime tx)
    (CTxWitness.mk (CTxWitness.vtxinwit wit)
       (zip_with stuff_outwit outputs
          (resize (length (CMutableTransaction.vout tx)) CTxOutWitness.null
             (CTxWitness.vtxoutwit wit)))).

(** The first [i] slots of [slots] stuffed, the others as they were: the
    state of the stuffing loop when iteration [i] begins. *)
Definition stuff_prefix {A B} (f : A → B → B) (i : nat) (outputs : list A)
    (slots : list B) : list B :=
  zip_with f (take i outputs) (take i slots) ++ drop i slots.

Definition stuffed_upto (i : nat) (outputs : list PSBTOutput.t)
    (tx : CMutableTransaction.t) : CMutableTransaction.t :=
  let wit := CMutableTransaction.witness tx in
  CMutableTransaction.mk (CMutableTransaction.vin tx)
    (stuff_prefix stuff_out i outputs (CMutableTransaction.vout tx))
    (CMutableTransaction.nVersion tx) (CMutableTransaction.nLockTime tx)
    (CTxWitness.mk (CTxWitness.vtxinwit wit)
       (stuff_prefix stuff_outwit i outputs
          (resize (length (CMutableTransaction.vout tx)) CTxOutWitness.null
             (CTxWitness.vtxoutwit wit)))).

(** Every non-null commitment and non-empty proof of [output] is what the
    transaction holds in [out] and [outwit]. *)
Definition carries (output : PSBTOutput.t) (out : CTxOut.t)
    (outwit : CTxOutWitness.t) : Prop :=
  (CConfidentialValue_IsNull (PSBTOutput.value_commitment output) = false →
     CTxOut.nValue out = PSBTOutput.value_commitment output)
  ∧ (CConfidentialAsset_IsNull (PSBTOutput.asset_commitment output) = false →
     CTxOut.nAsset out = PSBTOutput.asset_commitment output)
  ∧ (CConfidentialNonce_IsNull (PSBTOutput.nonce_commitment output) = false →
     CTxOut.nNonce out = PSBTOutput.nonce_commitment output)
  ∧ (PSBTOutput.range_proof output ≠ [] →
     CTxOutWitness.vchRangeproof outwit = PSBTOutput.range_proof output)
  ∧ (PSBTOutput.surjection_proof output ≠ [] →
     CTxOutWitness.vchSurjectionproof outwit = PSBTOutput.surjection_proof output).

(** Input [j] resolves in the balance check: its iteration appends one
    previous output and goes on. *)
Definition utxo_resolves (inputs : list PSBTInput.t) (tx : CMutableTransaction.t)
    (j : nat) : Prop :=
  ∃ o, ∀ acc, utxo_body inputs tx j acc = Normal (Next (acc ++ [o])).

(** The call gets past the blinding check and the balance check. *)
Definition checks_pass (psbtx : PSBT) (imbalance_ok : bool) : Prop :=
  blinding_pubkey_valid (outputs psbtx) = false
  ∧ (imbalance_ok = true
     ∨ ∃ tx0 : CMutableTransaction.t,
         tx psbtx = Some tx0
         ∧ balance_check (inputs psbtx) (stuffed (outputs psbtx) tx0) = Normal None).

(** What the callers rely on from [SignPSBTInput]: called on an index inside
    [psbt.inputs] it returns, ... *)
Definition SignPSBTInput_returns : Prop :=
  ∀ p (psbt : PSBT) (i : nat) s,
    (i < length (inputs psbt))%nat →
    ∃ ok inputs', SignPSBTInput p psbt i s = Normal (ok, inputs').

(** ... it rewrites no side-record but the one at [index], ... *)
Definition SignPSBTInput_frame : Prop :=
  ∀ p (psbt : PSBT) (i : nat) s ok inputs',
    SignPSBTInput p psbt i s = Normal (ok, inputs') →
    ∃ input', inputs' = <[i := input']> (inputs psbt).

(** ... and it leaves the [value] member of that one alone. *)
Definition SignPSBTInput_keeps_value : Prop :=
  ∀ p (psbt : PSBT) (i : nat) s ok inputs' input input',
    SignPSBTInput p psbt i s = Normal (ok, inputs') →
    inputs psbt !! i = Some input → inputs' !! i = Some input' →
    PSBTInput.value input' = PSBTInput.value input.

(** What one iteration of the Input Filler makes of [input], at index [i]:
    a signed input is kept; any other is filled from the wallet and handed
    to [SignPSBTInput], which leaves [input']. *)
Definition filled_by (pwallet : CWallet.t) (bip32derivs : bool) (txin : CTxIn.t)
    (i : nat) (input input' : PSBTInput.t) : Prop :=
  if PSBTInputSigned input then input' = input
  else
    ∃ (psbt : PSBT) ok inputs0,
      inputs psbt !! i = Some (fill_input pwallet txin input)
      ∧ SignPSBTInput (HidingSigningProvider.mk pwallet true (negb bip32derivs))
          psbt i 1 = Normal (ok, inputs0)
      ∧ inputs0 !! i = Some input'.

(** The PSBT when iteration [j] of the Input Filler begins: the inputs
    below [j] are filled, the others, the skeleton and the outputs are those
    of [psbtx]. *)
Definition filled_upto (pwallet : CWallet.t) (bip32derivs : bool)
    (tx0 : CMutableTransaction.t) (psbtx : PSBT) (j : nat) (p : PSBT) : Prop :=
  tx p = tx psbtx ∧ outputs p = outputs psbtx
  ∧ length (inputs p) = length (inputs psbtx)
  ∧ (∀ m, (j ≤ m)%nat → inputs p !! m = inputs psbtx !! m)
  ∧ (∀ m input txin, (m < j)%nat →
       inputs psbtx !! m = Some input →
       CMutableTransaction.vin tx0 !! m = Some txin →
       ∃ input', inputs p !! m = Some input'
                 ∧ filled_by pwallet bip32derivs txin m input input').

(** The legacy operation as the specification words it: Input Filler, then
    Signer with the balance check off, then Output Filler, stopping at the
    first result that is not [OK]. *)
Definition FillPSBT_composed (pwallet : CWallet.t) (psbtx : PSBT) (sighash_type : Z)
    (sign bip32derivs : bool) : outcome (TransactionError * bool * PSBT) :=
  match FillPSBTInputsData pwallet psbtx bip32derivs with
  | Normal (OK, filled) =>
      match SignPSBT pwallet filled sighash_type sign true with
      | Normal (OK, complete, signed) =>
          match FillPSBTOutputsData pwallet signed bip32derivs with
          | Normal done => Normal (OK, complete, done)
          | OutOfRange => OutOfRange
          | Undefined => Undefined
          end
      | stopped => stopped
      end
  | Normal (te, stopped) => Normal (te, false, stopped)
  | OutOfRange => OutOfRange
  | Undefined => Undefined
  end.

(** What lines 149-155 of the Output Filler make of the side-record
    [psbt_out] of the output [out]. *)
Definition filled_output (pwallet : CWallet.t) (tx : CMutableTransaction.t)
    (bip32derivs : bool) (out : CTxOut.t) (psbt_out : PSBTOutput.t)
    : PSBTOutput.t :=
  FromSignatureData psbt_out
    (ProduceSignature (HidingSigningProvider.mk pwallet true (negb bip32derivs))
       (MutableTransactionSignatureCreator.mk tx 0 (CTxOut.nValue out) 1)
       (CTxOut.scriptPubKey out)
       (FillSignatureData psbt_out SignatureData_default)).2.

End Wallet.

(** ** A small concrete wallet

    One instance of the collaborators, simple enough to evaluate, and the
    PSBTs on which the statements below are exercised.  An explicit amount
    is the byte 1 followed by the amount on 8 bytes, big-endian; a public key
    is valid when its first byte announces its length. *)

Module Sample.

Import PartiallySignedTransaction.

Definition be_amount (b : bytes) : Z :=
  fold_left (λ acc x, acc * 256 + Z.of_N (Byte.to_N x)) b 0.

Definition explicit_amount (v : CConfidentialValue.t) : option Z :=
  match CConfidentialValue.vchCommitment v with
  | x01 :: rest => if Nat.eqb (length rest) 8 then Some (be_amount rest) else None
  | _ => None
  end.

Fixpoint sum_explicit (outs : list CTxOut.t) : option Z :=
  match outs with
  | [] => Some 0
  | o :: rest =>
      a ← explicit_amount (CTxOut.nValue o);
      s ← sum_explicit rest;
      Some (a + s)
  end.

Definition is_empty {A} (l : list A) : bool :=
  match l with [] => true | _ :: _ => false end.

Definition pubkey_valid (k : CPubKey) : bool :=
  match k with
  | x02 :: _ | x03 :: _ => Nat.eqb (length k) 33
  | x04 :: _ | x06 :: _ | x07 :: _ => Nat.eqb (length k) 65
  | _ => false
  end.

Definition txout_null (o : CTxOut.t) : bool :=
  is_empty (CConfidentialAsset.vchCommitment (CTxOut.nAsset o))
  && is_empty (CConfidentialValue.vchCommitment (CTxOut.nValue o))
  && is_empty (CConfidentialNonce.vchCommitment (CTxOut.nNonce o))
  && is_empty (CTxOut.scriptPubKey o).

Definition input_signed (i : PSBTInput.t) : bool :=
  negb (is_empty (PSBTInput.final_script_sig i))
  || negb (is_empty (PSBTInput.final_script_witness i)).

Definition input_sane (i : PSBTInput.t) : bool :=
  negb (negb (txout_null (PSBTInput.witness_utxo i))
        && bool_decide (is_Some (PSBTInput.non_witness_utxo i))).

Definition blinding_data (wtx : CWalletTx.t) (n : N) (vbf : uint256) (a : CAsset)
    (abf : uint256) : CAmount * uint256 * CAsset * uint256 :=
  match CTransaction.vout (CWalletTx.tx wtx) !! N.to_nat n with
  | Some o =>
      match explicit_amount (CTxOut.nValue o) with
      | Some v => (v, 0%N, 1%N, 0%N)
      | None => (-1, vbf, a, abf)
      end
  | None => (-1, vbf, a, abf)
  end.

Definition set_final_script_sig (s : CScript) (i : PSBTInput.t) : PSBTInput.t :=
  PSBTInput.mk (PSBTInput.non_witness_utxo i) (PSBTInput.witness_utxo i)
    (PSBTInput.partial_sigs i) s (PSBTInput.final_script_witness i)
    (PSBTInput.sighash_type i) (PSBTInput.value i)
    (PSBTInput.value_blinding_factor i) (PSBTInput.asset i)
    (PSBTInput.asset_blinding_factor i).

Definition sign_input (p : HidingSigningProvider.t) (psbt : PSBT) (index : nat)
    (sighash : Z) : outcome (bool * list PSBTInput.t) :=
  input ← vec_at (inputs psbt) index;
  if input_signed input then Normal (true, inputs psbt)
  else if negb (input_sane input) then Normal (false, inputs psbt)
  else if bool_decide (PSBTInput.non_witness_utxo input = None)
          && txout_null (PSBTInput.witness_utxo input)
  then Normal (false, inputs psbt)
  else if HidingSigningProvider.hide_secret p then Normal (false, inputs psbt)
  else Normal (true, <[index := set_final_script_sig [x30; x01] input]> (inputs psbt)).

Definition sigdata : Type := CScript * CScript * list (CPubKey * list N).

Definition fill_sigdata (o : PSBTOutput.t) (_ : sigdata) : sigdata :=
  (PSBTOutput.redeem_script o, PSBTOutput.witness_script o, PSBTOutput.hd_keypaths o).

Definition produce (p : HidingSigningProvider.t)
    (_ : MutableTransactionSignatureCreator.t) (script : CScript) (d : sigdata)
    : bool * sigdata :=
  let '(r, w, k) := d in
  (false, if HidingSigningProvider.hide_origin p then d else (r, w, (script, [0%N]) :: k)).

Definition from_sigdata (o : PSBTOutput.t) (d : sigdata) : PSBTOutput.t :=
  let '(r, w, k) := d in
  PSBTOutput.mk r w k (PSBTOutput.blinding_pubkey o) (PSBTOutput.value_commitment o)
    (PSBTOutput.value_blinding_factor o) (PSBTOutput.asset_commitment o)
    (PSBTOutput.asset_blinding_factor o) (PSBTOutput.nonce_commitment o)
    (PSBTOutput.range_proof o) (PSBTOutput.surjection_proof o).

Definition tx_hash (m : CMutableTransaction.t) : uint256 :=
  (CMutableTransaction.nLockTime m
   + 256 * N.of_nat (length (CMutableTransaction.vin m))
   + 65536 * N.of_nat (length (CMutableTransaction.vout m)))%N.

Definition verify_amounts (ins : list CTxOut.t) (tx : CTransaction.t) : bool :=
  match sum_explicit ins, sum_explicit (CTransaction.vout tx) with
  | Some a, Some b => a =? b
  | _, _ => false
  end.

#[export] Instance wallet : Collaborators := {|
  SignatureData := sigdata;
  SignatureData_default := ([], [], []);
  ComputeHash := tx_hash;
  CPubKey_IsValid := pubkey_valid;
  CConfidentialValue_IsNull := λ v, is_empty (CConfidentialValue.vchCommitment v);
  CConfidentialAsset_IsNull := λ v, is_empty (CConfidentialAsset.vchCommitment v);
  CConfidentialNonce_IsNull := λ v, is_empty (CConfidentialNonce.vchCommitment v);
  CTxOut_IsNull := txout_null;
  PSBTInputSigned := input_signed;
  PSBTInput_IsSane := input_sane;
  GetNonIssuanceBlindingData := blinding_data;
  SignPSBTInput := sign_input;
  VerifyAmounts := verify_amounts;
  FillSignatureData := fill_sigdata;
  ProduceSignature := produce;
  FromSignatureData := from_sigdata
|}.

(** *** Sample data: one input spending output 0 of [prev_tx], one output *)

Definition amount10 : CConfidentialValue.t :=
  CConfidentialValue.mk [x01; x00; x00; x00; x00; x00; x00; x00; x0a].
Definition amount11 : CConfidentialValue.t :=
  CConfidentialValue.mk [x01; x00; x00; x00; x00; x00; x00; x00; x0b].
Definition asset1 : CConfidentialAsset.t :=
  CConfidentialAsset.mk (x01 :: replicate 32 xaa).
Definition nonce1 : CConfidentialNonce.t :=
  CConfidentialNonce.mk (x02 :: replicate 32 x11).
Definition no_nonce : CConfidentialNonce.t := CConfidentialNonce.mk [].
Definition no_witness : CTxWitness.t := CTxWitness.mk [] [].

Definition prev_out : CTxOut.t := CTxOut.mk asset1 amount10 no_nonce [x51].
Definition other_out : CTxOut.t := CTxOut.mk asset1 amount11 no_nonce [x51].
Definition null_out : CTxOut.t :=
  CTxOut.mk (CConfidentialAsset.mk []) (CConfidentialValue.mk []) no_nonce [].

Definition prev_tx : CTransaction.t :=
  CTransaction_of (CMutableTransaction.mk [] [prev_out] 2 0%N no_witness).

Definition txin0 : CTxIn.t :=
  CTxIn.mk (COutPoint.mk (CTransaction.GetHash prev_tx) 0%N) [] 4294967295%N.

Definition skeleton : CMutableTransaction.t :=
  CMutableTransaction.mk [txin0] [CTxOut.mk asset1 amount10 no_nonce [x52]] 2 0%N
    no_witness.

(** an unsigned input that carries the witness form of its UTXO *)
Definition input0 : PSBTInput.t :=
  PSBTInput.mk None prev_out [] [] [] 0 None 0%N 0%N 0%N.

(** a blinded output: no blinding key left, a nonce and two proofs to stuff *)
Definition output0 : PSBTOutput.t :=
  PSBTOutput.mk [] [] [] [] (CConfidentialValue.mk []) 0%N (CConfidentialAsset.mk [])
    0%N nonce1 [xaa; xbb] [xcc].

(** the same output before blinding *)
Definition output_unblinded : PSBTOutput.t :=
  PSBTOutput.mk [] [] [] (x02 :: replicate 32 x99) (CConfidentialValue.mk []) 0%N
    (CConfidentialAsset.mk []) 0%N no_nonce [] [].

Definition psbt0 : PSBT := mk (Some skeleton) [input0] [output0].

Definition psbt_unblinded : PSBT := mk (Some skeleton) [input0] [output_unblinded].

Definition pwallet : CWallet.t :=
  CWallet.mk {[ CTransaction.GetHash prev_tx := CWalletTx.mk prev_tx ]}.

(** *** Two inputs, the second one recorded with another sighash mode *)

Definition amount20 : CConfidentialValue.t :=
  CConfidentialValue.mk [x01; x00; x00; x00; x00; x00; x00; x00; x14].

Definition txin1 : CTxIn.t :=
  CTxIn.mk (COutPoint.mk (CTransaction.GetHash prev_tx) 0%N) [x00] 4294967295%N.

Definition skeleton2 : CMutableTransaction.t :=
  CMutableTransaction.mk [txin0; txin1] [CTxOut.mk asset1 amount20 no_nonce [x52]]
    2 0%N no_witness.

(** recorded with SIGHASH_NONE (2) *)
Definition input_none : PSBTInput.t :=
  PSBTInput.mk None prev_out [] [] [] 2 None 0%N 0%N 0%N.

Definition signed (i : PSBTInput.t) : PSBTInput.t := set_final_script_sig [x30; x01] i.

Definition psbt2 : PSBT := mk (Some skeleton2) [input0; input_none] [output0].

(** [skeleton2] with the nonce and proofs of [output0] stuffed in *)
Definition skeleton2_stuffed : CMutableTransaction.t :=
  CMutableTransaction.mk [txin0; txin1]
    [CTxOut.mk asset1 amount20 nonce1 [x52]] 2 0%N
    (CTxWitness.mk [] [CTxOutWitness.mk [xcc] [xaa; xbb]]).

(** [psbt2] with its output still waiting to be blinded *)
Definition psbt2_unblinded : PSBT :=
  mk (Some skeleton2) [input0; input_none] [output_unblinded].

(** *** Inputs whose UTXO data is missing or at odds *)

(** neither form of the UTXO *)
Definition input_missing : PSBTInput.t :=
  PSBTInput.mk None null_out [] [] [] 0 None 0%N 0%N 0%N.

(** a previous transaction whose hash is not the one [txin0] refers to *)
Definition stray_tx : CTransaction.t :=
  CTransaction_of (CMutableTransaction.mk [] [prev_out] 2 9%N no_witness).

Definition input_stray : PSBTInput.t :=
  PSBTInput.mk (Some stray_tx) null_out [] [] [] 0 None 0%N 0%N 0%N.

(** both forms, the witness UTXO not being output 0 of [prev_tx] *)
Definition input_both : PSBTInput.t :=
  PSBTInput.mk (Some prev_tx) other_out [] [] [] 0 None 0%N 0%N 0%N.

Definition psbt_missing : PSBT := mk (Some skeleton2) [input0; input_missing] [output0].

Definition psbt_stray_missing : PSBT :=
  mk (Some skeleton2) [input_stray; input_missing] [output0].

Definition psbt_both : PSBT := mk (Some skeleton) [input_both] [output0].

(** one input of 10 against one output of 11 *)
Definition skeleton_unbalanced : CMutableTransaction.t :=
  CMutableTransaction.mk [txin0] [CTxOut.mk asset1 amount11 no_nonce [x52]] 2 0%N
    no_witness.

Definition psbt_unbalanced : PSBT := mk (Some skeleton_unbalanced) [input0] [output0].

(** *** Inputs for the Input Filler *)

(** a signed input next to an unsigned one *)
Definition psbt_half : PSBT := mk (Some skeleton2) [signed input0; input0] [output0].

(** [input0] once the wallet's blinding data is applied *)
Definition input0_filled : PSBTInput.t :=
  PSBTInput.mk None prev_out [] [] [] 0 (Some 10) 0%N 1%N 0%N.

(** a previous transaction whose output hides its amount *)
Definition hidden_out : CTxOut.t :=
  CTxOut.mk asset1 (CConfidentialValue.mk (x08 :: replicate 32 x77)) no_nonce [x51].

Definition hidden_tx : CTransaction.t :=
  CTransaction_of (CMutableTransaction.mk [] [hidden_out] 2 3%N no_witness).

Definition txin_hidden : CTxIn.t :=
  CTxIn.mk (COutPoint.mk (CTransaction.GetHash hidden_tx) 0%N) [] 4294967295%N.

(** an input spending it, with a value of 5 recorded earlier *)
Definition input_hidden : PSBTInput.t :=
  PSBTInput.mk None hidden_out [] [] [] 0 (Some 5) 7%N 1%N 8%N.

Definition skeleton_hidden : CMutableTransaction.t :=
  CMutableTransaction.mk [txin_hidden; txin0]
    [CTxOut.mk asset1 amount20 no_nonce [x52]] 2 0%N no_witness.

Definition psbt_hidden : PSBT :=
  mk (Some skeleton_hidden) [input_hidden; input0] [output0].

Definition pwallet2 : CWallet.t :=
  CWallet.mk (<[ CTransaction.GetHash hidden_tx := CWalletTx.mk hidden_tx ]>
                {[ CTransaction.GetHash prev_tx := CWalletTx.mk prev_tx ]}).

(** *** Edge cases *)

(** no input, no output *)
Definition psbt_empty : PSBT :=
  mk (Some (CMutableTransaction.mk [] [] 2 0%N no_witness)) [] [].

(** [psbt0] without the side-record of its output *)
Definition psbt_no_output_record : PSBT := mk (Some skeleton) [input0] [].

(** [psbt2] without the side-record of its second input *)
Definition psbt_short : PSBT := mk (Some skeleton2) [input0] [output0].

(** an input referring to output 5 of [prev_tx], which has one output *)
Definition txin_far : CTxIn.t :=
  CTxIn.mk (COutPoint.mk (CTransaction.GetHash prev_tx) 5%N) [] 4294967295%N.

Definition input_far : PSBTInput.t :=
  PSBTInput.mk (Some prev_tx) null_out [] [] [] 0 None 0%N 0%N 0%N.

Definition psbt_far : PSBT :=
  mk (Some (CMutableTransaction.mk [txin_far]
              [CTxOut.mk asset1 amount10 no_nonce [x52]] 2 0%N no_witness))
     [input_far] [output0].

(** a sane unsigned input followed by one that is not sane *)
Definition psbt_late_insane : PSBT :=
  mk (Some skeleton2) [input0; input_both] [output0].

(** every input signed *)
Definition psbt_signed : PSBT := mk (Some skeleton) [signed input0] [output0].

(** a wallet that knows no transaction *)
Definition pwallet_empty : CWallet.t := CWallet.mk ∅.

End Sample.

(** ** Reasoning about outcomes and loops *)

Local Close Scope Z_scope.

Lemma bind_Normal_inv {A B} (m : outcome A) (f : A → outcome B) (b : B) :
  m ≫= f = Normal b → ∃ a, m = Normal a ∧ f a = Normal b.
Proof. destruct m as [a| |]; simpl; [eauto | done | done]. Qed.

Lemma vec_at_Normal {A} (v : list A) i x : vec_at v i = Normal x ↔ v !! i = Some x.
Proof. unfold vec_at. destruct (v !! i); split; congruence. Qed.

Lemma vec_index_Normal {A} (v : list A) i x : vec_index v i = Normal x ↔ v !! i = Some x.
Proof. unfold vec_index. destruct (v !! i); split; congruence. Qed.

Lemma deref_Normal {A} (o : option A) x : deref o = Normal x ↔ o = Some x.
Proof. unfold deref. destruct o; split; congruence. Qed.

(** Splits a hypothesis [m ≫= f = Normal b] into its two halves. *)
Ltac bind_inv H :=
  let a := fresh "a" in
  let Ha := fresh "Ha" in
  apply bind_Normal_inv in H as (a & Ha & H).

(** What a loop establishes when it returns normally: the invariant [I] at
    the final index if it ran to the end, [Q] if the body returned early. *)
Lemma for_loop_inv {S R} (body : nat → S → outcome (ctl S R))
    (I : nat → S → Prop) (Q : R → S → Prop) :
  ∀ n i s c,
    I i s →
    (∀ j s c, i ≤ j < i + n → I j s → body j s = Normal c →
       match c with Next s' => I (Datatypes.S j) s' | Return r s' => Q r s' end) →
    for_loop body n i s = Normal c →
    match c with Next s' => I (i + n) s' | Return r s' => Q r s' end.
Proof.
  induction n as [|n IH]; intros i s c Hi Hbody Hrun; simpl in Hrun.
  - inversion Hrun; subst. by rewrite Nat.add_0_r.
  - bind_inv Hrun.
    pose proof (Hbody i s a ltac:(lia) Hi Ha) as Hstep.
    destruct a as [s'|r s'].
    + replace (i + Datatypes.S n) with (Datatypes.S i + n) by lia.
      apply (IH (Datatypes.S i) s' c Hstep); [|done].
      intros j s0 c0 Hj. apply Hbody. lia.
    + inversion Hrun; subst. done.
Qed.

(** The same with termination: if the body returns normally wherever the
    invariant holds, so does the loop. *)
Lemma for_loop_total {S R} (body : nat → S → outcome (ctl S R))
    (I : nat → S → Prop) (Q : R → S → Prop) :
  ∀ n i s,
    I i s →
    (∀ j s, i ≤ j < i + n → I j s →
       ∃ c, body j s = Normal c ∧
            match c with Next s' => I (Datatypes.S j) s' | Return r s' => Q r s' end) →
    ∃ c, for_loop body n i s = Normal c ∧
         match c with Next s' => I (i + n) s' | Return r s' => Q r s' end.
Proof.
  induction n as [|n IH]; intros i s Hi Hbody; simpl.
  - exists (Next s). by rewrite Nat.add_0_r.
  - destruct (Hbody i s ltac:(lia) Hi) as (c & Hc & Hstep). rewrite Hc. simpl.
    destruct c as [s'|r s'].
    + replace (i + Datatypes.S n) with (Datatypes.S i + n) by lia.
      apply IH; [done|]. intros j s0 Hj. apply Hbody. lia.
    + by exists (Return r s').
Qed.

Section Properties.

Context `{Collaborators}.

Import PartiallySignedTransaction.

Lemma CMutableTransaction_of_CTransaction_of (m : CMutableTransaction.t) :
  CMutableTransaction_of (CTransaction_of m) = m.
Proof. by destruct m. Qed.

Lemma blinding_pubkey_valid_elem (outs : list PSBTOutput.t) (o : PSBTOutput.t) :
  o ∈ outs → CPubKey_IsValid (PSBTOutput.blinding_pubkey o) = true →
  blinding_pubkey_valid outs = true.
Proof.
  induction outs as [|o' outs IH]; intros Hin Hv; [by apply not_elem_of_nil in Hin|].
  simpl. apply elem_of_cons in Hin as [->|Hin]; [by rewrite Hv|].
  destruct (CPubKey_IsValid (PSBTOutput.blinding_pubkey o')); [done|].
  by apply IH.
Qed.

(** The only codes the balance check produces. *)
Lemma utxo_body_return inputs tx j s r s' :
  utxo_body inputs tx j s = Normal (Return r s') →
  r = INVALID_PSBT ∨ r = UTXOS_MISSING_BALANCE_CHECK.
Proof.
  unfold utxo_body. intros Hb. bind_inv Hb.
  destruct (PSBTInput.non_witness_utxo a) as [prev|].
  - bind_inv Hb. case_bool_decide; [inversion Hb; auto|].
    bind_inv Hb. destruct a1; [inversion Hb; auto|]. bind_inv Hb. done.
  - destruct (negb _); inversion Hb; auto.
Qed.

Lemma balance_check_codes inputs tx te :
  balance_check inputs tx = Normal (Some te) →
  te = INVALID_PSBT ∨ te = UTXOS_MISSING_BALANCE_CHECK ∨ te = VALUE_IMBALANCE.
Proof.
  unfold balance_check. intros Hb. bind_inv Hb.
  pose proof (for_loop_inv (utxo_body inputs tx) (λ _ _, True)
    (λ r _, r = INVALID_PSBT ∨ r = UTXOS_MISSING_BALANCE_CHECK)
    _ _ _ _ I ltac:(intros j s [s'|r s'] _ _ Hc; [done|by eapply utxo_body_return]) Ha)
    as Hr.
  destruct a as [utxos|r utxos].
  - destruct (negb _); inversion Hb; auto.
  - inversion Hb; subst. tauto.
Qed.

(** The signing loop only ever leaves early with [SIGHASH_MISMATCH] and
    [complete] reset; it writes to the input side-records alone. *)
Lemma sign_body_frame pwallet sighash_type sign j psbtx complete c :
  sign_body pwallet sighash_type sign j (psbtx, complete) = Normal c →
  match c with
  | Next (psbtx', _) => tx psbtx' = tx psbtx ∧ outputs psbtx' = outputs psbtx
  | Return r (psbtx', complete') =>
      r = SIGHASH_MISMATCH ∧ complete' = false ∧ psbtx' = psbtx
  end.
Proof.
  unfold sign_body. intros Hb. bind_inv Hb.
  destruct a.
  - inversion Hb; subst. done.
  - bind_inv Hb. destruct a as [ok inputs']. inversion Hb; subst. done.
Qed.

Lemma sign_loop_frame pwallet sighash_type sign n i psbtx complete c :
  for_loop (sign_body pwallet sighash_type sign) n i (psbtx, complete) = Normal c →
  match c with
  | Next (psbtx', _) => tx psbtx' = tx psbtx ∧ outputs psbtx' = outputs psbtx
  | Return r (psbtx', complete') =>
      r = SIGHASH_MISMATCH ∧ complete' = false
      ∧ tx psbtx' = tx psbtx ∧ outputs psbtx' = outputs psbtx
  end.
Proof.
  intros Hrun.
  pose proof (for_loop_inv (sign_body pwallet sighash_type sign)
    (λ _ st, tx st.1 = tx psbtx ∧ outputs st.1 = outputs psbtx)
    (λ r st, r = SIGHASH_MISMATCH ∧ st.2 = false
             ∧ tx st.1 = tx psbtx ∧ outputs st.1 = outputs psbtx)
    n i (psbtx, complete) c (conj eq_refl eq_refl)) as Hinv.
  simpl in Hinv.
  assert (Hc : match c with
               | Next s' => tx s'.1 = tx psbtx ∧ outputs s'.1 = outputs psbtx
               | Return r s' => r = SIGHASH_MISMATCH ∧ s'.2 = false
                   ∧ tx s'.1 = tx psbtx ∧ outputs s'.1 = outputs psbtx
               end).
  { apply Hinv; [|done]. intros j [p b] c0 _ [Htx Hout] Hb.
    apply sign_body_frame in Hb. destruct c0 as [[p' b']|r [p' b']]; simpl in *.
    - destruct Hb as [-> ->]. done.
    - destruct Hb as (-> & -> & ->). done. }
  destruct c as [[p' b']|r [p' b']]; simpl in *; tauto.
Qed.

(** *** The materialization loop *)

Lemma stuff_prefix_step {A B} (f : A → B → B) (O : list A) (V : list B) i a b :
  O !! i = Some a → V !! i = Some b →
  stuff_prefix f i O V !! i = Some b
  ∧ <[i := f a b]> (stuff_prefix f i O V) = stuff_prefix f (Datatypes.S i) O V.
Proof.
  intros HO HV. unfold stuff_prefix.
  assert (Hlen : length (zip_with f (take i O) (take i V)) = i).
  { rewrite length_zip_with, !length_take.
    apply lookup_lt_Some in HO, HV. lia. }
  split.
  - rewrite lookup_app_r by lia. rewrite Hlen, Nat.sub_diag, lookup_drop.
    by rewrite Nat.add_0_r.
  - rewrite insert_app_r_alt by lia. rewrite Hlen, Nat.sub_diag.
    rewrite (drop_S V b i HV). simpl.
    rewrite (take_S_r O i a HO), (take_S_r V i b HV).
    rewrite zip_with_app by (rewrite !length_take; apply lookup_lt_Some in HO, HV; lia).
    simpl. by rewrite <- app_assoc.
Qed.

Lemma stuff_prefix_0 {A B} (f : A → B → B) (O : list A) (V : list B) :
  stuff_prefix f 0 O V = V.
Proof. unfold stuff_prefix. by rewrite !take_0, drop_0. Qed.

Lemma stuff_prefix_all {A B} (f : A → B → B) (O : list A) (V : list B) :
  length V ≤ length O → stuff_prefix f (length V) O V = zip_with f O V.
Proof.
  intros Hle. unfold stuff_prefix.
  rewrite drop_all, app_nil_r, firstn_all.
  rewrite zip_with_take_l'; [done|]. lia.
Qed.

Lemma stuff_body_step outputs tx0 i output :
  outputs !! i = Some output →
  i < length (CMutableTransaction.vout tx0) →
  stuff_body outputs i (stuffed_upto i outputs tx0)
    = Normal (Next (stuffed_upto (Datatypes.S i) outputs tx0)).
Proof.
  intros HO Hi.
  destruct (lookup_lt_is_Some_2 (CMutableTransaction.vout tx0) i Hi) as [out Hout].
  set (W := resize (length (CMutableTransaction.vout tx0)) CTxOutWitness.null
              (CTxWitness.vtxoutwit (CMutableTransaction.witness tx0))).
  assert (HW : is_Some (W !! i)).
  { apply lookup_lt_is_Some_2. unfold W. by rewrite length_resize. }
  destruct HW as [outwit HW].
  destruct (stuff_prefix_step stuff_out outputs _ i output out HO Hout) as [Hl1 Hi1].
  destruct (stuff_prefix_step stuff_outwit outputs W i output outwit HO HW) as [Hl2 Hi2].
  unfold stuff_body, stuffed_upto, vec_at, vec_index. simpl.
  rewrite HO. simpl. rewrite Hl1. simpl. fold W. rewrite Hl2. simpl.
  by rewrite Hi1, Hi2.
Qed.

Lemma stuffed_upto_all outputs tx0 :
  length (CMutableTransaction.vout tx0) ≤ length outputs →
  stuffed_upto (length (CMutableTransaction.vout tx0)) outputs tx0
    = stuffed outputs tx0.
Proof.
  intros Hle. unfold stuffed_upto, stuffed.
  rewrite stuff_prefix_all by done.
  set (W := resize _ _ _).
  assert (HW : length W = length (CMutableTransaction.vout tx0))
    by (unfold W; by rewrite length_resize).
  rewrite <- HW at 1. rewrite stuff_prefix_all by lia. done.
Qed.

(** With a side-record for every output, [materialize] returns the stuffed
    transaction. *)
Lemma materialize_total outputs tx0 :
  length (CMutableTransaction.vout tx0) ≤ length outputs →
  materialize outputs tx0 = Normal (stuffed outputs tx0).
Proof.
  intros Hle. unfold materialize.
  set (t1 := CMutableTransaction.set_witness _ tx0).
  assert (Ht1 : t1 = stuffed_upto 0 outputs tx0).
  { unfold t1, stuffed_upto. rewrite !stuff_prefix_0. by destruct tx0. }
  destruct (for_loop_total (stuff_body outputs)
    (λ i t, t = stuffed_upto i outputs tx0) (λ _ _, False)
    (length (CMutableTransaction.vout tx0)) 0 t1 Ht1) as (c & Hc & Hpost).
  { intros j t [_ Hj] ->. simpl in Hj.
    destruct (lookup_lt_is_Some_2 outputs j ltac:(lia)) as [output HO].
    eexists. split; [apply (stuff_body_step _ _ _ output HO); lia|]. done. }
  replace (length (CMutableTransaction.vout t1))
    with (length (CMutableTransaction.vout tx0)) by done.
  rewrite Hc. simpl. destruct c as [t|r t]; [|done].
  simpl in Hpost. subst t. by rewrite stuffed_upto_all.
Qed.

(** Conversely, [materialize] only returns when every output has a
    side-record, and then with the stuffed transaction. *)
Lemma materialize_Normal outputs tx0 txm :
  materialize outputs tx0 = Normal txm →
  length (CMutableTransaction.vout tx0) ≤ length outputs
  ∧ txm = stuffed outputs tx0.
Proof.
  intros Hrun.
  destruct (decide (length (CMutableTransaction.vout tx0) ≤ length outputs)) as [Hle|Hgt].
  { rewrite materialize_total in Hrun by done. by inversion Hrun. }
  exfalso. unfold materialize in Hrun. bind_inv Hrun.
  set (t1 := CMutableTransaction.set_witness _ tx0) in Ha.
  assert (Ht1 : t1 = stuffed_upto 0 outputs tx0).
  { unfold t1, stuffed_upto. rewrite !stuff_prefix_0. by destruct tx0. }
  assert (Hpost : match a with
                  | Next _ => 0 + length (CMutableTransaction.vout t1) ≤ length outputs
                  | Return _ _ => False
                  end).
  { apply (for_loop_inv (stuff_body outputs) (λ i _, i ≤ length outputs)
             (λ _ _, False) _ 0 t1 a); [simpl; lia| |exact Ha].
    intros j t c _ Hj Hb. unfold stuff_body in Hb. bind_inv Hb.
    apply vec_at_Normal, lookup_lt_Some in Ha0.
    bind_inv Hb. bind_inv Hb. inversion Hb; subst. simpl. lia. }
  destruct a as [t|r t]; [|done]. simpl in Hpost.
  replace (length (CMutableTransaction.vout t1))
    with (length (CMutableTransaction.vout tx0)) in Hpost by done. lia.
Qed.

Lemma stuffed_vin outputs tx0 :
  CMutableTransaction.vin (stuffed outputs tx0) = CMutableTransaction.vin tx0.
Proof. done. Qed.

Lemma stuff_carries output out outwit :
  carries output (stuff_out output out) (stuff_outwit output outwit).
Proof.
  unfold carries, stuff_out, stuff_outwit. repeat split; intros Hn.
  - rewrite Hn. simpl.
    destruct (negb (CConfidentialAsset_IsNull _)), (negb (CConfidentialNonce_IsNull _)); done.
  - rewrite Hn. simpl.
    destruct (negb (CConfidentialValue_IsNull _)), (negb (CConfidentialNonce_IsNull _)); done.
  - rewrite Hn. simpl. done.
  - destruct (PSBTOutput.range_proof output) eqn:Hr; [done|].
    destruct (PSBTOutput.surjection_proof output); done.
  - destruct (PSBTOutput.surjection_proof output) eqn:Hs; [done|].
    destruct (PSBTOutput.range_proof output); done.
Qed.

(** In the stuffed transaction the output-witness vector has one slot per
    output, and slot [i] of both vectors carries side-record [i]. *)
Lemma stuffed_carries outputs tx0 i output :
  length (CMutableTransaction.vout tx0) ≤ length outputs →
  outputs !! i = Some output →
  i < length (CMutableTransaction.vout tx0) →
  ∃ out outwit,
    CMutableTransaction.vout (stuffed outputs tx0) !! i = Some out
    ∧ CTxWitness.vtxoutwit (CMutableTransaction.witness (stuffed outputs tx0)) !! i
      = Some outwit
    ∧ carries output out outwit.
Proof.
  intros Hle HO Hi.
  destruct (lookup_lt_is_Some_2 (CMutableTransaction.vout tx0) i Hi) as [out Hout].
  set (W := resize (length (CMutableTransaction.vout tx0)) CTxOutWitness.null
              (CTxWitness.vtxoutwit (CMutableTransaction.witness tx0))).
  assert (HW : is_Some (W !! i)).
  { apply lookup_lt_is_Some_2. unfold W. by rewrite length_resize. }
  destruct HW as [outwit HW].
  exists (stuff_out output out), (stuff_outwit output outwit).
  unfold stuffed. simpl. fold W.
  rewrite !lookup_zip_with, HO, Hout, HW. simpl.
  split; [done|]. split; [done|]. apply stuff_carries.
Qed.

Lemma stuffed_vtxoutwit_length outputs tx0 :
  length (CMutableTransaction.vout tx0) ≤ length outputs →
  length (CTxWitness.vtxoutwit (CMutableTransaction.witness (stuffed outputs tx0)))
  = length (CMutableTransaction.vout tx0).
Proof.
  intros Hle. unfold stuffed. simpl. rewrite length_zip_with, length_resize. lia.
Qed.

(** *** The signing loop under the contract of [SignPSBTInput] *)

Lemma for_loop_split {S R} (body : nat → S → outcome (ctl S R)) a b i s :
  for_loop body (a + b) i s
  = c ← for_loop body a i s;
    match c with
    | Next s' => for_loop body b (i + a) s'
    | Return r s' => Normal (Return r s')
    end.
Proof.
  revert i s. induction a as [|a IH]; intros i s; simpl.
  - by rewrite Nat.add_0_r.
  - destruct (body i s) as [[s'|r s']| |]; simpl; [|done..].
    rewrite IH. by replace (Datatypes.S i + a) with (i + Datatypes.S a) by lia.
Qed.

(** The first index at which a test on the elements succeeds. *)
Lemma first_index {A} (P : A → bool) (l : list A) j x :
  l !! j = Some x → P x = true →
  ∃ k y, l !! k = Some y ∧ P y = true
         ∧ ∀ m z, m < k → l !! m = Some z → P z = false.
Proof.
  revert j. induction l as [|a l IH]; intros j Hj HP; [done|].
  destruct (P a) eqn:Ha.
  - exists 0, a. split; [done|]. split; [done|]. intros m z Hm. lia.
  - destruct j as [|j]; [simpl in Hj; congruence|].
    destruct (IH j Hj HP) as (k & y & Hk & Hy & Hfirst).
    exists (Datatypes.S k), y. split; [done|]. split; [done|].
    intros [|m] z Hm Hz; [simpl in Hz; congruence|].
    apply (Hfirst m z); [lia|done].
Qed.

(** The first [k] iterations, when no input below [k] has a differing
    sighash mode: they all go through, and touch no input from [k] on. *)
Lemma sign_loop_prefix pwallet sighash_type (psbtx : PSBT) k :
  SignPSBTInput_returns → SignPSBTInput_frame →
  k ≤ length (inputs psbtx) →
  (∀ m z, m < k → inputs psbtx !! m = Some z → sighash_differs sighash_type z = false) →
  ∃ psbtx' complete,
    for_loop (sign_body pwallet sighash_type true) k 0 (psbtx, true)
      = Normal (Next (psbtx', complete))
    ∧ tx psbtx' = tx psbtx ∧ outputs psbtx' = outputs psbtx
    ∧ length (inputs psbtx') = length (inputs psbtx)
    ∧ ∀ m, k ≤ m → inputs psbtx' !! m = inputs psbtx !! m.
Proof.
  intros Hret Hframe Hk Hsame.
  destruct (for_loop_total (sign_body pwallet sighash_type true)
    (λ j st, tx st.1 = tx psbtx ∧ outputs st.1 = outputs psbtx
             ∧ length (inputs st.1) = length (inputs psbtx)
             ∧ ∀ m, j ≤ m → inputs st.1 !! m = inputs psbtx !! m)
    (λ _ _, False) k 0 (psbtx, true)) as (c & Hc & Hpost).
  { done. }
  { intros j [p b] [_ Hj] (Htx & Hout & Hlen & Hrest). simpl in *.
    destruct (lookup_lt_is_Some_2 (inputs p) j ltac:(lia)) as [inp Hinp].
    assert (Hsh : sighash_differs sighash_type inp = false).
    { apply (Hsame j); [lia|]. by rewrite <- Hrest by lia. }
    destruct (Hret (HidingSigningProvider.mk pwallet false true) p j
                sighash_type ltac:(lia)) as (ok & inputs' & Hsign).
    destruct (Hframe _ _ _ _ _ _ Hsign) as [input' ->].
    exists (Next (set_inputs (<[j := input']> (inputs p)) p, b && ok)).
    split.
    - unfold sign_body, vec_index. rewrite Hinp. simpl. rewrite Hsh. simpl.
      rewrite Hsign. done.
    - simpl. split; [done|]. split; [done|]. split; [by rewrite length_insert|].
      intros m Hm. rewrite list_lookup_insert_ne by lia. apply Hrest. lia. }
  destruct c as [[p b]|r [p b]]; [|done]. simpl in Hpost.
  exists p, b. split; [done|]. tauto.
Qed.

(** The whole loop, when [k] is the first input with a differing mode. *)
Lemma sign_loop_mismatch pwallet sighash_type (psbtx : PSBT) n k inp :
  SignPSBTInput_returns → SignPSBTInput_frame →
  k < n → inputs psbtx !! k = Some inp →
  sighash_differs sighash_type inp = true →
  (∀ m z, m < k → inputs psbtx !! m = Some z → sighash_differs sighash_type z = false) →
  ∃ psbtx' complete,
    for_loop (sign_body pwallet sighash_type true) k 0 (psbtx, true)
      = Normal (Next (psbtx', complete))
    ∧ for_loop (sign_body pwallet sighash_type true) n 0 (psbtx, true)
      = Normal (Return SIGHASH_MISMATCH (psbtx', false))
    ∧ tx psbtx' = tx psbtx ∧ outputs psbtx' = outputs psbtx
    ∧ ∀ m, k ≤ m → inputs psbtx' !! m = inputs psbtx !! m.
Proof.
  intros Hret Hframe Hkn Hinp Hdiff Hfirst.
  destruct (sign_loop_prefix pwallet sighash_type psbtx k Hret Hframe)
    as (p & b & Hrun & Htx & Hout & Hlen & Hrest); [|done|].
  { apply lookup_lt_Some in Hinp. lia. }
  exists p, b. split; [done|]. split; [|done].
  replace n with (k + Datatypes.S (n - k - 1)) by lia.
  rewrite for_loop_split, Hrun. simpl.
  unfold vec_index. rewrite Hrest, Hinp by lia. simpl. by rewrite Hdiff.
Qed.

(** *** The balance check *)

(** A loop that ran to its end took the [Next] branch at every index. *)
Lemma for_loop_Next_all {S R} (body : nat → S → outcome (ctl S R)) n i s s' j :
  for_loop body n i s = Normal (Next s') → i ≤ j < i + n →
  ∃ sj sj', body j sj = Normal (Next sj').
Proof.
  revert i s. induction n as [|n IH]; intros i s Hrun Hj; [lia|].
  simpl in Hrun. bind_inv Hrun. destruct a as [s1|r s1]; [|done].
  destruct (decide (j = i)) as [->|Hne]; [eauto|].
  apply (IH (Datatypes.S i) s1 Hrun). lia.
Qed.

(** The iteration reads the transaction's inputs only. *)
Lemma utxo_body_vin inputs t1 t2 j acc :
  CMutableTransaction.vin t1 = CMutableTransaction.vin t2 →
  utxo_body inputs t1 j acc = utxo_body inputs t2 j acc.
Proof. intros Hvin. unfold utxo_body. by rewrite Hvin. Qed.

Lemma utxo_body_length inputs tx j acc acc' :
  utxo_body inputs tx j acc = Normal (Next acc') →
  length acc' = Datatypes.S (length acc).
Proof.
  unfold utxo_body. intros Hb. bind_inv Hb.
  destruct (PSBTInput.non_witness_utxo a) as [prev|].
  - bind_inv Hb. case_bool_decide; [done|].
    bind_inv Hb. destruct a1; [done|]. bind_inv Hb.
    inversion Hb; subst. rewrite length_app. simpl. lia.
  - destruct (negb _); inversion Hb; subst. rewrite length_app. simpl. lia.
Qed.

(** An input with neither form of its UTXO stops the loop. *)
Lemma utxo_body_missing inputs tx k inp acc :
  inputs !! k = Some inp →
  PSBTInput.non_witness_utxo inp = None →
  CTxOut_IsNull (PSBTInput.witness_utxo inp) = true →
  utxo_body inputs tx k acc = Normal (Return UTXOS_MISSING_BALANCE_CHECK acc).
Proof.
  intros Hk Hnw Hw. unfold utxo_body, vec_index. rewrite Hk. simpl.
  by rewrite Hnw, Hw.
Qed.

(** An input with both forms, the two at odds, stops it as well. *)
Lemma utxo_body_inconsistent inputs tx k inp prev txin acc :
  inputs !! k = Some inp →
  CMutableTransaction.vin tx !! k = Some txin →
  PSBTInput.non_witness_utxo inp = Some prev →
  CTxOut_IsNull (PSBTInput.witness_utxo inp) = false →
  (CTransaction.GetHash prev ≠ COutPoint.hash (CTxIn.prevout txin)
   ∨ ∃ o, CTransaction.vout prev !! N.to_nat (COutPoint.n (CTxIn.prevout txin)) = Some o
          ∧ o ≠ PSBTInput.witness_utxo inp) →
  utxo_body inputs tx k acc = Normal (Return INVALID_PSBT acc).
Proof.
  intros Hk Hin Hnw Hw Hbad. unfold utxo_body, vec_index.
  rewrite Hk. simpl. rewrite Hnw, Hin. simpl.
  case_bool_decide as Hh; [done|].
  destruct Hbad as [Hbad|(o & Ho & Hne)]; [done|].
  rewrite Hw. simpl. rewrite Ho. simpl. by rewrite bool_decide_eq_true_2.
Qed.

(** The check reports the code of the first input that does not resolve. *)
Lemma balance_check_first_failure inputs tx k r :
  k < length inputs →
  (∀ j, j < k → utxo_resolves inputs tx j) →
  (∀ acc, utxo_body inputs tx k acc = Normal (Return r acc)) →
  balance_check inputs tx = Normal (Some r).
Proof.
  intros Hk Hres Hfail. unfold balance_check.
  replace (length inputs) with (k + Datatypes.S (length inputs - k - 1)) by lia.
  rewrite for_loop_split.
  destruct (for_loop_total (utxo_body inputs tx) (λ _ _, True) (λ _ _, False)
              k 0 [] I) as (c & Hc & Hpost).
  { intros j acc [_ Hj] _. destruct (Hres j ltac:(lia)) as [o Ho].
    exists (Next (acc ++ [o])). by rewrite Ho. }
  rewrite Hc. simpl. destruct c as [acc|r' acc]; [|done].
  simpl. by rewrite Hfail.
Qed.

(** *** The Input Filler under the contract of [SignPSBTInput] *)

Lemma fill_from_wallet_value wtx txin input :
  PSBTInput.value (fill_from_wallet wtx txin input)
  = if bool_decide (provider_value wtx txin input = (-1)%Z)
    then PSBTInput.value input
    else Some (provider_value wtx txin input).
Proof.
  unfold fill_from_wallet, provider_value.
  assert (Hsame : ∀ u,
    (PSBTInput.value_blinding_factor (PSBTInput.set_non_witness_utxo u input),
     PSBTInput.asset (PSBTInput.set_non_witness_utxo u input),
     PSBTInput.asset_blinding_factor (PSBTInput.set_non_witness_utxo u input))
    = (PSBTInput.value_blinding_factor input, PSBTInput.asset input,
       PSBTInput.asset_blinding_factor input)) by done.
  destruct (PSBTInput.non_witness_utxo input);
    [|destruct (CTxOut_IsNull _)]; simpl;
    destruct (GetNonIssuanceBlindingData _ _ _ _ _) as [[[v vbf] a] abf]; simpl;
    repeat case_bool_decide; done.
Qed.

Lemma FillPSBTInputsData_body_total pwallet tx0 b i (p : PSBT) txin input :
  SignPSBTInput_returns → SignPSBTInput_frame →
  CMutableTransaction.vin tx0 !! i = Some txin → inputs p !! i = Some input →
  ∃ c, FillPSBTInputsData_body pwallet tx0 b i p = Normal c
       ∧ match c with
         | Return r p' => r = INVALID_PSBT ∧ p' = p
         | Next p' =>
             tx p' = tx p ∧ outputs p' = outputs p
             ∧ ∃ input', inputs p' = <[i := input']> (inputs p)
                         ∧ filled_by pwallet b txin i input input'
         end.
Proof.
  intros Hret Hframe Hin Hinp.
  unfold FillPSBTInputsData_body, vec_index, vec_at. rewrite Hin, Hinp. simpl.
  assert (Hi : i < length (inputs p)) by (by eapply lookup_lt_Some).
  destruct (PSBTInputSigned input) eqn:Hsigned.
  { exists (Next p). split; [done|]. split; [done|]. split; [done|].
    exists input. split; [by rewrite list_insert_id|].
    unfold filled_by. by rewrite Hsigned. }
  destruct (PSBTInput_IsSane input); simpl; [|by exists (Return INVALID_PSBT p)].
  set (filled := fill_input pwallet txin input).
  set (p1 := set_inputs (<[i := filled]> (inputs p)) p).
  destruct (Hret (HidingSigningProvider.mk pwallet true (negb b)) p1 i 1%Z)
    as (ok & inputs0 & Hsign).
  { unfold p1. simpl. by rewrite length_insert. }
  destruct (Hframe _ _ _ _ _ _ Hsign) as [input' Hinputs0].
  rewrite Hsign. simpl.
  exists (Next (set_inputs inputs0 p1)). split; [done|].
  split; [done|]. split; [done|].
  exists input'. simpl. split.
  - rewrite Hinputs0. unfold p1. simpl. by rewrite list_insert_insert_eq.
  - unfold filled_by. rewrite Hsigned. exists p1, ok, inputs0.
    split; [unfold p1; simpl; by rewrite list_lookup_insert_eq|].
    split; [done|]. rewrite Hinputs0.
    apply list_lookup_insert_eq. unfold p1. simpl. by rewrite length_insert.
Qed.

Lemma filled_upto_step pwallet b tx0 (psbtx p : PSBT) j txin input' :
  filled_upto pwallet b tx0 psbtx j p →
  CMutableTransaction.vin tx0 !! j = Some txin →
  (∀ input, inputs psbtx !! j = Some input → filled_by pwallet b txin j input input') →
  j < length (inputs psbtx) →
  filled_upto pwallet b tx0 psbtx (Datatypes.S j)
    (set_inputs (<[j := input']> (inputs p)) p).
Proof.
  intros (Htx & Hout & Hlen & Hrest & Hdone) Hin Hfill Hj.
  split; [done|]. split; [done|]. simpl.
  split; [by rewrite length_insert|]. split.
  - intros m Hm. rewrite list_lookup_insert_ne by lia. apply Hrest. lia.
  - intros m input txin' Hm Hinp Hin'.
    destruct (decide (m = j)) as [->|Hne].
    + exists input'. split; [apply list_lookup_insert_eq; lia|].
      rewrite Hin in Hin'. inversion Hin'; subst. by apply Hfill.
    + rewrite list_lookup_insert_ne by done. apply Hdone; [lia|done..].
Qed.

(** The Input Filler returns, with [OK] after every input was visited or
    with [INVALID_PSBT] from some input on. *)
Lemma FillPSBTInputsData_total pwallet (psbtx : PSBT) b tx0 :
  SignPSBTInput_returns → SignPSBTInput_frame →
  tx psbtx = Some tx0 →
  length (inputs psbtx) = length (CMutableTransaction.vin tx0) →
  ∃ te psbtx' j,
    FillPSBTInputsData pwallet psbtx b = Normal (te, psbtx')
    ∧ filled_upto pwallet b tx0 psbtx j psbtx'
    ∧ (te = OK ∧ j = length (inputs psbtx) ∨ te = INVALID_PSBT).
Proof.
  intros Hret Hframe Htx Hlen. unfold FillPSBTInputsData. rewrite Htx. simpl.
  destruct (for_loop_total (FillPSBTInputsData_body pwallet tx0 b)
    (filled_upto pwallet b tx0 psbtx)
    (λ r p, r = INVALID_PSBT ∧ ∃ j, filled_upto pwallet b tx0 psbtx j p)
    (length (CMutableTransaction.vin tx0)) 0 psbtx) as (c & Hc & Hpost).
  { repeat (split; [done|]). intros m input txin Hm. lia. }
  { intros j p [_ Hj] Hinv. simpl in Hj.
    destruct (lookup_lt_is_Some_2 (CMutableTransaction.vin tx0) j Hj) as [txin Hin].
    pose proof Hinv as (Htxp & Houtp & Hlenp & Hrest & Hdone).
    destruct (lookup_lt_is_Some_2 (inputs p) j ltac:(lia)) as [input Hinp].
    destruct (FillPSBTInputsData_body_total pwallet tx0 b j p txin input
                Hret Hframe Hin Hinp) as (c & Hc & Hpost).
    exists c. split; [done|]. destruct c as [p'|r p'].
    - destruct Hpost as (Htx' & Hout' & input' & Hinputs' & Hfill).
      assert (Hp' : p' = set_inputs (<[j := input']> (inputs p)) p).
      { clear -Htx' Hout' Hinputs'. destruct p', p. unfold set_inputs.
        simpl in *. by subst. }
      rewrite Hp'. apply (filled_upto_step _ _ _ _ _ _ txin); [done..| |lia].
      intros input0 Hinp0. rewrite <- Hrest in Hinp0 by lia.
      rewrite Hinp in Hinp0. by inversion Hinp0; subst.
    - destruct Hpost as [-> ->]. split; [done|]. by exists j. }
  rewrite Hc. simpl. destruct c as [p'|r p'].
  - exists OK, p', (length (inputs psbtx)). split; [done|].
    simpl in Hpost. rewrite Hlen. split; [done|]. by left.
  - destruct Hpost as [-> [j Hj]]. exists INVALID_PSBT, p', j. split; [done|].
    split; [done|]. by right.
Qed.

End Properties.

(** ** The Signer *)

Section Signer.

Context `{Collaborators}.

Import PartiallySignedTransaction.

(** C1. When [SignPSBT] returns [OK], the transaction skeleton is the one the
    call started with: the snapshot taken at entry has replaced the
    transaction into which commitments and proofs were copied, so every
    commitment and proof field of the skeleton has its value from before the
    call.  The output side-records are the original ones. *)
Theorem SignPSBT_ok_restores_skeleton (pwallet : CWallet.t) (psbtx : PSBT)
    (sighash_type : Z) (sign imbalance_ok complete : bool) (psbtx' : PSBT) :
  SignPSBT pwallet psbtx sighash_type sign imbalance_ok
    = Normal (OK, complete, psbtx') →
  tx psbtx' = tx psbtx ∧ outputs psbtx' = outputs psbtx.
Proof.
  unfold SignPSBT. intros Hrun.
  destruct (blinding_pubkey_valid _); [done|].
  bind_inv Hrun. apply deref_Normal in Ha as Htx.
  bind_inv Hrun. bind_inv Hrun.
  destruct a1 as [te|].
  { inversion Hrun; subst.
    destruct imbalance_ok; simpl in *; [done|].
    apply balance_check_codes in Ha1 as [?|[?|?]]; done. }
  bind_inv Hrun. apply sign_loop_frame in Ha2.
  destruct a1 as [[p c]|r [p c]].
  - inversion Hrun; subst. simpl in *.
    rewrite CMutableTransaction_of_CTransaction_of.
    destruct Ha2 as [_ Hout]. split; [by symmetry|done].
  - inversion Hrun; subst. by destruct Ha2.
Qed.

(** C2. If some output still has a valid (non-null) blinding public key,
    [SignPSBT] returns [BLINDING_REQUIRED] with [complete] false, and the PSBT
    it returns is the PSBT it was given: the skeleton and every input
    side-record, its signature material included, are untouched. *)
Theorem SignPSBT_blinding_required (pwallet : CWallet.t) (psbtx : PSBT)
    (sighash_type : Z) (sign imbalance_ok : bool) (i : nat) (o : PSBTOutput.t) :
  outputs psbtx !! i = Some o →
  CPubKey_IsValid (PSBTOutput.blinding_pubkey o) = true →
  SignPSBT pwallet psbtx sighash_type sign imbalance_ok
    = Normal (BLINDING_REQUIRED, false, psbtx).
Proof.
  intros Hi Hv. unfold SignPSBT.
  rewrite (blinding_pubkey_valid_elem _ o); [done| |done].
  by eapply list_elem_of_lookup_2.
Qed.

(** C10. Whenever [SignPSBT] returns a code other than [OK], [complete] is
    false on return; so [complete = true] is only seen together with [OK]. *)
Theorem SignPSBT_error_not_complete (pwallet : CWallet.t) (psbtx : PSBT)
    (sighash_type : Z) (sign imbalance_ok : bool) (te : TransactionError)
    (complete : bool) (psbtx' : PSBT) :
  SignPSBT pwallet psbtx sighash_type sign imbalance_ok
    = Normal (te, complete, psbtx') →
  te ≠ OK → complete = false.
Proof.
  unfold SignPSBT. intros Hrun Hte.
  destruct (blinding_pubkey_valid _); [by inversion Hrun|].
  bind_inv Hrun. bind_inv Hrun. bind_inv Hrun.
  destruct a1 as [te'|]; [by inversion Hrun|].
  bind_inv Hrun. apply sign_loop_frame in Ha2.
  destruct a1 as [[p c]|r [p c]]; inversion Hrun; subst; [done|].
  by destruct Ha2 as (_ & -> & _).
Qed.

(** Past the two checks, [SignPSBT] is its signing loop, run on the PSBT
    with the stuffed transaction. *)
Lemma SignPSBT_checks_pass (pwallet : CWallet.t) (psbtx : PSBT) (sighash_type : Z)
    (sign imbalance_ok : bool) (tx0 : CMutableTransaction.t) :
  tx psbtx = Some tx0 →
  length (CMutableTransaction.vout tx0) ≤ length (outputs psbtx) →
  checks_pass psbtx imbalance_ok →
  SignPSBT pwallet psbtx sighash_type sign imbalance_ok
  = c ← for_loop (sign_body pwallet sighash_type sign)
          (length (CMutableTransaction.vin tx0)) 0
          (set_tx (Some (stuffed (outputs psbtx) tx0)) psbtx, true);
    match c with
    | Return te (psbtx', complete) => Normal (te, complete, psbtx')
    | Next (psbtx', complete) => Normal (OK, complete, set_tx (Some tx0) psbtx')
    end.
Proof.
  intros Htx Hlen [Hblind Hbal]. unfold SignPSBT.
  rewrite Hblind, Htx. simpl. rewrite materialize_total by done. simpl.
  assert (Hfailed : (if negb imbalance_ok
                     then balance_check (inputs psbtx) (stuffed (outputs psbtx) tx0)
                     else Normal None) = Normal None).
  { destruct Hbal as [->|(t & Ht & Hb)]; [done|].
    rewrite Htx in Ht. inversion Ht; subst. by destruct imbalance_ok. }
  rewrite Hfailed. simpl.
  by rewrite CMutableTransaction_of_CTransaction_of.
Qed.

(** C3, as amended.  Let actual signing be requested on a well-formed PSBT
    that gets past the blinding check and the balance check, with a
    [SignPSBTInput] that keeps its contract.  If some input has a recorded
    sighash mode that differs from the requested one, then, [k] being the
    first such input, [SignPSBT] returns [SIGHASH_MISMATCH] with [complete]
    false, the PSBT it leaves is the one reached after signing inputs
    [0 .. k-1], and every input side-record from [k] on is as it was. *)
Theorem SignPSBT_sighash_mismatch (pwallet : CWallet.t) (psbtx : PSBT)
    (sighash_type : Z) (imbalance_ok : bool) (j : nat) (inp : PSBTInput.t) :
  SignPSBTInput_returns → SignPSBTInput_frame →
  well_formed psbtx → checks_pass psbtx imbalance_ok →
  inputs psbtx !! j = Some inp → sighash_differs sighash_type inp = true →
  ∃ (k : nat) (inp_k : PSBTInput.t) (tx0 : CMutableTransaction.t) (psbtx' : PSBT)
    (complete : bool),
    SignPSBT pwallet psbtx sighash_type true imbalance_ok
      = Normal (SIGHASH_MISMATCH, false, psbtx')
    ∧ inputs psbtx !! k = Some inp_k
    ∧ sighash_differs sighash_type inp_k = true
    ∧ (∀ m z, m < k → inputs psbtx !! m = Some z →
         sighash_differs sighash_type z = false)
    ∧ tx psbtx = Some tx0
    ∧ for_loop (sign_body pwallet sighash_type true) k 0
        (set_tx (Some (stuffed (outputs psbtx) tx0)) psbtx, true)
      = Normal (Next (psbtx', complete))
    ∧ ∀ m, k ≤ m → inputs psbtx' !! m = inputs psbtx !! m.
Proof.
  intros Hret Hframe Hwf Hpass Hj Hdiff.
  unfold well_formed in Hwf. destruct (tx psbtx) as [tx0|] eqn:Htx; [|done].
  destruct Hwf as [Hin Hout].
  destruct (first_index (sighash_differs sighash_type) _ _ _ Hj Hdiff)
    as (k & inp_k & Hk & Hdk & Hfirst).
  destruct (sign_loop_mismatch pwallet sighash_type
              (set_tx (Some (stuffed (outputs psbtx) tx0)) psbtx)
              (length (CMutableTransaction.vin tx0)) k inp_k Hret Hframe)
    as (p & b & Hpre & Hrun & _ & _ & Hrest); [|done..|].
  { apply lookup_lt_Some in Hk. lia. }
  exists k, inp_k, tx0, p, b.
  rewrite (SignPSBT_checks_pass _ _ _ _ _ tx0) by (done || lia).
  rewrite Hrun. done.
Qed.

(** C9. When [SignPSBT] returns [SIGHASH_MISMATCH], the skeleton it leaves is
    the materialized one, not the snapshot: the transaction [materialize]
    built, whose output-witness vector has one slot per output and whose
    slots carry the non-null commitments and non-empty proofs of the output
    side-records. *)
Theorem SignPSBT_mismatch_leaves_stuffed_tx (pwallet : CWallet.t)
    (psbtx : PSBT) (sighash_type : Z) (sign imbalance_ok complete : bool)
    (psbtx' : PSBT) :
  SignPSBT pwallet psbtx sighash_type sign imbalance_ok
    = Normal (SIGHASH_MISMATCH, complete, psbtx') →
  ∃ tx0 tx',
    tx psbtx = Some tx0
    ∧ materialize (outputs psbtx) tx0 = Normal tx'
    ∧ tx psbtx' = Some tx'
    ∧ length (CTxWitness.vtxoutwit (CMutableTransaction.witness tx'))
      = length (CMutableTransaction.vout tx0)
    ∧ ∀ i output,
        outputs psbtx !! i = Some output →
        i < length (CMutableTransaction.vout tx0) →
        ∃ out outwit,
          CMutableTransaction.vout tx' !! i = Some out
          ∧ CTxWitness.vtxoutwit (CMutableTransaction.witness tx') !! i = Some outwit
          ∧ carries output out outwit.
Proof.
  unfold SignPSBT. intros Hrun.
  destruct (blinding_pubkey_valid _); [done|].
  bind_inv Hrun. apply deref_Normal in Ha as Htx.
  bind_inv Hrun. rename a0 into tx'. rename Ha0 into Hmat.
  destruct (materialize_Normal _ _ _ Hmat) as [Hle ->].
  bind_inv Hrun.
  destruct a0 as [te|].
  { inversion Hrun; subst.
    destruct imbalance_ok; simpl in *; [done|].
    apply balance_check_codes in Ha0 as [?|[?|?]]; done. }
  bind_inv Hrun. apply sign_loop_frame in Ha1.
  destruct a0 as [[p c]|r [p c]]; [done|].
  inversion Hrun; subst. destruct Ha1 as (_ & _ & Hp & _). simpl in Hp.
  exists a, (stuffed (outputs psbtx) a).
  split; [done|]. split; [done|]. split; [done|].
  split; [by apply stuffed_vtxoutwit_length|].
  intros i output HO Hi. by apply stuffed_carries.
Qed.

(** A failed balance check is what [SignPSBT] returns, with the stuffed
    transaction left in place and no input touched. *)
Lemma SignPSBT_balance_failure (pwallet : CWallet.t) (psbtx : PSBT)
    (sighash_type : Z) (sign : bool) (tx0 : CMutableTransaction.t)
    (te : TransactionError) :
  tx psbtx = Some tx0 →
  length (CMutableTransaction.vout tx0) ≤ length (outputs psbtx) →
  blinding_pubkey_valid (outputs psbtx) = false →
  balance_check (inputs psbtx) (stuffed (outputs psbtx) tx0) = Normal (Some te) →
  SignPSBT pwallet psbtx sighash_type sign false
  = Normal (te, false, set_tx (Some (stuffed (outputs psbtx) tx0)) psbtx).
Proof.
  intros Htx Hlen Hblind Hbal. unfold SignPSBT.
  rewrite Hblind, Htx. simpl. rewrite materialize_total by done. simpl.
  by rewrite Hbal.
Qed.

(** [VALUE_IMBALANCE] comes from the verifier alone, after the loop over the
    inputs has run to its end. *)
Lemma SignPSBT_value_imbalance (pwallet : CWallet.t) (psbtx : PSBT)
    (sighash_type : Z) (sign imbalance_ok complete : bool) (psbtx' : PSBT) :
  SignPSBT pwallet psbtx sighash_type sign imbalance_ok
    = Normal (VALUE_IMBALANCE, complete, psbtx') →
  imbalance_ok = false
  ∧ ∃ tx0 tx' inputs_utxos,
      tx psbtx = Some tx0
      ∧ materialize (outputs psbtx) tx0 = Normal tx'
      ∧ for_loop (utxo_body (inputs psbtx) tx') (length (inputs psbtx)) 0 []
        = Normal (Next inputs_utxos)
      ∧ VerifyAmounts inputs_utxos (CTransaction_of tx') = false.
Proof.
  unfold SignPSBT. intros Hrun.
  destruct (blinding_pubkey_valid _); [done|].
  bind_inv Hrun. apply deref_Normal in Ha as Htx.
  bind_inv Hrun. bind_inv Hrun.
  destruct a1 as [te|].
  - inversion Hrun; subst.
    destruct imbalance_ok; simpl in *; [done|]. split; [done|].
    exists a, a0. unfold balance_check in Ha1. bind_inv Ha1.
    destruct a1 as [utxos|r utxos].
    + exists utxos. destruct (VerifyAmounts _ _) eqn:Hv; [done|]. done.
    + inversion Ha1; subst.
      assert (Hr : VALUE_IMBALANCE = INVALID_PSBT
                   ∨ VALUE_IMBALANCE = UTXOS_MISSING_BALANCE_CHECK).
      { match goal with
        | Hl : for_loop _ _ _ _ = Normal (Return _ _) |- _ =>
            pose proof (λ Hbody, for_loop_inv _ (λ _ _, True)
              (λ r _, r = INVALID_PSBT ∨ r = UTXOS_MISSING_BALANCE_CHECK)
              _ _ _ _ I Hbody Hl) as Hinv
        end.
        apply Hinv. intros j s [s'|r s'] _ _ Hc; [done|by eapply utxo_body_return]. }
      by destruct Hr.
  - bind_inv Hrun. apply sign_loop_frame in Ha2.
    destruct a1 as [[p c]|r [p c]]; inversion Hrun; subst.
    by destruct Ha2.
Qed.

(** C4, as amended.  With the balance check requested:
    - on a well-formed PSBT with no output waiting to be blinded, an input
      that has neither form of its UTXO, every input before it resolving,
      makes [SignPSBT] return [UTXOS_MISSING_BALANCE_CHECK], [complete] false
      and no input touched;
    - whatever else the PSBT holds, with such an input the returned code is
      never [VALUE_IMBALANCE];
    - [VALUE_IMBALANCE] is returned only when the check was requested, every
      input has a form of its UTXO, the loop collected one previous output
      per input, and [VerifyAmounts] rejected them. *)
Theorem SignPSBT_utxos_missing (pwallet : CWallet.t) (psbtx : PSBT)
    (sighash_type : Z) (sign : bool) :
  (∀ tx0 k inp,
     well_formed psbtx → tx psbtx = Some tx0 →
     blinding_pubkey_valid (outputs psbtx) = false →
     inputs psbtx !! k = Some inp →
     PSBTInput.non_witness_utxo inp = None →
     CTxOut_IsNull (PSBTInput.witness_utxo inp) = true →
     (∀ j, j < k → utxo_resolves (inputs psbtx) tx0 j) →
     SignPSBT pwallet psbtx sighash_type sign false
     = Normal (UTXOS_MISSING_BALANCE_CHECK, false,
               set_tx (Some (stuffed (outputs psbtx) tx0)) psbtx))
  ∧ (∀ te complete psbtx' k inp,
       SignPSBT pwallet psbtx sighash_type sign false
         = Normal (te, complete, psbtx') →
       inputs psbtx !! k = Some inp →
       PSBTInput.non_witness_utxo inp = None →
       CTxOut_IsNull (PSBTInput.witness_utxo inp) = true →
       te ≠ VALUE_IMBALANCE)
  ∧ (∀ imbalance_ok complete psbtx',
       SignPSBT pwallet psbtx sighash_type sign imbalance_ok
         = Normal (VALUE_IMBALANCE, complete, psbtx') →
       imbalance_ok = false
       ∧ (∀ j inp, inputs psbtx !! j = Some inp →
            PSBTInput.non_witness_utxo inp ≠ None
            ∨ CTxOut_IsNull (PSBTInput.witness_utxo inp) = false)
       ∧ ∃ tx0 tx' inputs_utxos,
           tx psbtx = Some tx0
           ∧ materialize (outputs psbtx) tx0 = Normal tx'
           ∧ for_loop (utxo_body (inputs psbtx) tx') (length (inputs psbtx)) 0 []
             = Normal (Next inputs_utxos)
           ∧ length inputs_utxos = length (inputs psbtx)
           ∧ VerifyAmounts inputs_utxos (CTransaction_of tx') = false).
Proof.
  assert (Hall : ∀ imbalance_ok complete psbtx',
    SignPSBT pwallet psbtx sighash_type sign imbalance_ok
      = Normal (VALUE_IMBALANCE, complete, psbtx') →
    imbalance_ok = false
    ∧ (∀ j inp, inputs psbtx !! j = Some inp →
         PSBTInput.non_witness_utxo inp ≠ None
         ∨ CTxOut_IsNull (PSBTInput.witness_utxo inp) = false)
    ∧ ∃ tx0 tx' inputs_utxos,
        tx psbtx = Some tx0
        ∧ materialize (outputs psbtx) tx0 = Normal tx'
        ∧ for_loop (utxo_body (inputs psbtx) tx') (length (inputs psbtx)) 0 []
          = Normal (Next inputs_utxos)
        ∧ length inputs_utxos = length (inputs psbtx)
        ∧ VerifyAmounts inputs_utxos (CTransaction_of tx') = false).
  { intros imbalance_ok complete psbtx' Hrun.
    destruct (SignPSBT_value_imbalance _ _ _ _ _ _ _ Hrun)
      as (Himb & tx0 & tx' & utxos & Htx & Hmat & Hloop & Hver).
    split; [done|]. split.
    - intros j inp Hj.
      destruct (PSBTInput.non_witness_utxo inp) eqn:Hnw; [by left|]. right.
      destruct (CTxOut_IsNull (PSBTInput.witness_utxo inp)) eqn:Hw; [|done].
      destruct (for_loop_Next_all _ _ _ _ _ j Hloop) as (sj & sj' & Hb).
      { apply lookup_lt_Some in Hj. lia. }
      by rewrite (utxo_body_missing _ _ _ inp) in Hb.
    - exists tx0, tx', utxos. repeat (split; [done|]). split; [|done].
      pose proof (λ Hbody, for_loop_inv (utxo_body (inputs psbtx) tx')
               (λ j acc, length acc = j) (λ _ _, True) _ 0 [] _ eq_refl
               Hbody Hloop) as Hinv.
      simpl in Hinv. apply Hinv.
      intros j acc [acc'|r acc'] _ Hlen Hb; [|done].
      apply utxo_body_length in Hb. lia. }
  split; [|split; [|exact Hall]].
  - intros tx0 k inp Hwf Htx Hblind Hk Hnw Hw Hres.
    unfold well_formed in Hwf. rewrite Htx in Hwf. destruct Hwf as [Hin Hout].
    apply SignPSBT_balance_failure; [done|lia|done|].
    apply (balance_check_first_failure _ _ k).
    + by eapply lookup_lt_Some.
    + intros j Hj. destruct (Hres j Hj) as [o Ho]. exists o. intros acc.
      rewrite <- (Ho acc). by apply utxo_body_vin.
    + intros acc. by apply (utxo_body_missing _ _ _ inp).
  - intros te complete psbtx' k inp Hrun Hk Hnw Hw ->.
    destruct (Hall _ _ _ Hrun) as (_ & Hforms & _).
    destruct (Hforms k inp Hk) as [Hf|Hf]; congruence.
Qed.

(** C5, as amended.  With the balance check requested, on a well-formed
    PSBT with no output waiting to be blinded: an input that has both forms
    of its UTXO, the two at odds (the previous transaction's hash is not the
    one the input refers to, or the output it refers to is not the witness
    UTXO), every input before it resolving, makes [SignPSBT] return
    [INVALID_PSBT] with [complete] false; the input side-records are the
    original ones, none having been signed. *)
Theorem SignPSBT_inconsistent_utxo (pwallet : CWallet.t) (psbtx : PSBT)
    (sighash_type : Z) (sign : bool) (tx0 : CMutableTransaction.t) (k : nat)
    (inp : PSBTInput.t) (prev : CTransaction.t) (txin : CTxIn.t) :
  well_formed psbtx → tx psbtx = Some tx0 →
  blinding_pubkey_valid (outputs psbtx) = false →
  inputs psbtx !! k = Some inp →
  CMutableTransaction.vin tx0 !! k = Some txin →
  PSBTInput.non_witness_utxo inp = Some prev →
  CTxOut_IsNull (PSBTInput.witness_utxo inp) = false →
  (CTransaction.GetHash prev ≠ COutPoint.hash (CTxIn.prevout txin)
   ∨ ∃ o, CTransaction.vout prev !! N.to_nat (COutPoint.n (CTxIn.prevout txin)) = Some o
          ∧ o ≠ PSBTInput.witness_utxo inp) →
  (∀ j, j < k → utxo_resolves (inputs psbtx) tx0 j) →
  ∃ psbtx',
    SignPSBT pwallet psbtx sighash_type sign false
      = Normal (INVALID_PSBT, false, psbtx')
    ∧ inputs psbtx' = inputs psbtx.
Proof.
  intros Hwf Htx Hblind Hk Hin Hnw Hw Hbad Hres.
  unfold well_formed in Hwf. rewrite Htx in Hwf. destruct Hwf as [Hlen Hout].
  exists (set_tx (Some (stuffed (outputs psbtx) tx0)) psbtx). split; [|done].
  apply SignPSBT_balance_failure; [done|lia|done|].
  apply (balance_check_first_failure _ _ k).
  - by eapply lookup_lt_Some.
  - intros j Hj. destruct (Hres j Hj) as [o Ho]. exists o. intros acc.
    rewrite <- (Ho acc). by apply utxo_body_vin.
  - intros acc. by apply (utxo_body_inconsistent _ _ _ inp prev txin).
Qed.

End Signer.

(** ** The Input Filler and the legacy operation *)

Section Fillers.

Context `{Collaborators}.

Import PartiallySignedTransaction.

(** C6. On a well-formed PSBT, with a [SignPSBTInput] that keeps its
    contract, [FillPSBTInputsData] returns and every input that was fully
    signed when it was called is the same record afterwards: its UTXO forms
    and its value, asset and blinding factors are untouched.  The PSBT it
    leaves is well-formed, so this holds again for the next invocation. *)
Theorem FillPSBTInputsData_skips_signed (pwallet : CWallet.t) (psbtx : PSBT)
    (bip32derivs : bool) :
  SignPSBTInput_returns → SignPSBTInput_frame → well_formed psbtx →
  ∃ te psbtx',
    FillPSBTInputsData pwallet psbtx bip32derivs = Normal (te, psbtx')
    ∧ well_formed psbtx'
    ∧ ∀ i input,
        inputs psbtx !! i = Some input → PSBTInputSigned input = true →
        inputs psbtx' !! i = Some input.
Proof.
  intros Hret Hframe Hwf. pose proof Hwf as Hwf0. unfold well_formed in Hwf.
  destruct (tx psbtx) as [tx0|] eqn:Htx; [|done]. destruct Hwf as [Hin Hout].
  destruct (FillPSBTInputsData_total pwallet psbtx bip32derivs tx0 Hret Hframe
              Htx Hin) as (te & psbtx' & j & Hrun & Hfilled & _).
  destruct Hfilled as (Htx' & Hout' & Hlen' & Hrest & Hdone).
  exists te, psbtx'. split; [done|]. split.
  { unfold well_formed. rewrite Htx', Htx, Hlen', Hout'. done. }
  intros i input Hi Hsigned.
  destruct (decide (j ≤ i)) as [Hle|Hlt]; [by rewrite Hrest|].
  destruct (lookup_lt_is_Some_2 (CMutableTransaction.vin tx0) i) as [txin Htxin].
  { apply lookup_lt_Some in Hi. lia. }
  destruct (Hdone i input txin ltac:(lia) Hi Htxin) as (input' & Hi' & Hfill).
  unfold filled_by in Hfill. rewrite Hsigned in Hfill. by subst.
Qed.

(** C7. On a well-formed PSBT, with a [SignPSBTInput] that keeps its
    contract and leaves [value] alone: for an input whose previous
    transaction is in the wallet, if the blinding-data provider reports -1
    the input's [value] after [FillPSBTInputsData] is the one it had; and
    when the filler returns [OK] on an unsigned input for which the provider
    reports anything else, [value] is what the provider reported. *)
Theorem FillPSBTInputsData_unknown_value (pwallet : CWallet.t) (psbtx : PSBT)
    (bip32derivs : bool) (tx0 : CMutableTransaction.t) (i : nat) (txin : CTxIn.t)
    (input : PSBTInput.t) (wtx : CWalletTx.t) :
  SignPSBTInput_returns → SignPSBTInput_frame → SignPSBTInput_keeps_value →
  well_formed psbtx → tx psbtx = Some tx0 →
  CMutableTransaction.vin tx0 !! i = Some txin →
  inputs psbtx !! i = Some input →
  CWallet.mapWallet pwallet !! COutPoint.hash (CTxIn.prevout txin) = Some wtx →
  ∃ te psbtx' input',
    FillPSBTInputsData pwallet psbtx bip32derivs = Normal (te, psbtx')
    ∧ inputs psbtx' !! i = Some input'
    ∧ (provider_value wtx txin input = (-1)%Z →
       PSBTInput.value input' = PSBTInput.value input)
    ∧ (te = OK → PSBTInputSigned input = false →
       provider_value wtx txin input ≠ (-1)%Z →
       PSBTInput.value input' = Some (provider_value wtx txin input)).
Proof.
  intros Hret Hframe Hkeep Hwf Htx Htxin Hi Hwtx.
  unfold well_formed in Hwf. rewrite Htx in Hwf. destruct Hwf as [Hin Hout].
  destruct (FillPSBTInputsData_total pwallet psbtx bip32derivs tx0 Hret Hframe
              Htx Hin) as (te & psbtx' & j & Hrun & Hfilled & Hte).
  destruct Hfilled as (Htx' & Hout' & Hlen' & Hrest & Hdone).
  exists te, psbtx'.
  destruct (decide (j ≤ i)) as [Hle|Hlt].
  { exists input. split; [done|]. split; [by rewrite Hrest|]. split; [done|].
    intros ->. destruct Hte as [[_ ->]|]; [|done].
    apply lookup_lt_Some in Hi. lia. }
  destruct (Hdone i input txin ltac:(lia) Hi Htxin) as (input' & Hi' & Hfill).
  exists input'. split; [done|]. split; [done|].
  unfold filled_by in Hfill. destruct (PSBTInputSigned input).
  { subst. split; [done|]. done. }
  destruct Hfill as (psbt & ok & inputs0 & Hfilled & Hsign & Hinput').
  rewrite (Hkeep _ _ _ _ _ _ _ _ Hsign Hfilled Hinput').
  unfold fill_input. rewrite Hwtx, fill_from_wallet_value.
  split; [intros Hv|intros _ _ Hv]; case_bool_decide; done.
Qed.

(** C8. [FillPSBT] is the composition the specification describes: Input
    Filler, Signer with the balance check off, Output Filler.  An error of
    the Input Filler is returned with the PSBT as the filler left it and
    [complete] false; an error of the Signer is returned with the PSBT and
    [complete] as the Signer left them; otherwise the result is [OK] with the
    PSBT the Output Filler leaves. *)
Theorem FillPSBT_short_circuits (pwallet : CWallet.t) (psbtx : PSBT)
    (sighash_type : Z) (sign bip32derivs : bool) :
  FillPSBT pwallet psbtx sighash_type sign bip32derivs
    = FillPSBT_composed pwallet psbtx sighash_type sign bip32derivs
  ∧ (∀ te filled,
       FillPSBTInputsData pwallet psbtx bip32derivs = Normal (te, filled) →
       te ≠ OK →
       FillPSBT pwallet psbtx sighash_type sign bip32derivs
         = Normal (te, false, filled))
  ∧ (∀ filled te complete signed,
       FillPSBTInputsData pwallet psbtx bip32derivs = Normal (OK, filled) →
       SignPSBT pwallet filled sighash_type sign true
         = Normal (te, complete, signed) →
       te ≠ OK →
       FillPSBT pwallet psbtx sighash_type sign bip32derivs
         = Normal (te, complete, signed))
  ∧ (∀ filled complete signed done,
       FillPSBTInputsData pwallet psbtx bip32derivs = Normal (OK, filled) →
       SignPSBT pwallet filled sighash_type sign true
         = Normal (OK, complete, signed) →
       FillPSBTOutputsData pwallet signed bip32derivs = Normal done →
       FillPSBT pwallet psbtx sighash_type sign bip32derivs
         = Normal (OK, complete, done)).
Proof.
  unfold FillPSBT, FillPSBT_composed. repeat split.
  - destruct (FillPSBTInputsData _ _ _) as [[te filled]| |]; simpl; [|done..].
    destruct te; simpl; try done.
    destruct (SignPSBT _ _ _ _ _) as [[[te complete] signed]| |]; simpl; [|done..].
    by destruct te.
  - intros te filled -> Hte. simpl. by rewrite bool_decide_eq_true_2.
  - intros filled te complete signed -> Hsign Hte. simpl. rewrite Hsign. simpl.
    by rewrite bool_decide_eq_true_2.
  - intros filled complete signed done -> Hsign Hout. simpl. rewrite Hsign. simpl.
    by rewrite Hout.
Qed.

End Fillers.

(** ** Further properties of the Signer *)

Section SignerPaths.

Context `{Collaborators}.

Import PartiallySignedTransaction.

(** Every way [SignPSBT] returns: at the blinding check, at the balance
    check, or out of the signing loop. *)
Lemma SignPSBT_Normal_inv (pwallet : CWallet.t) (psbtx : PSBT) (sighash_type : Z)
    (sign imbalance_ok : bool) (te : TransactionError) (complete : bool)
    (psbtx' : PSBT) :
  SignPSBT pwallet psbtx sighash_type sign imbalance_ok
    = Normal (te, complete, psbtx') →
  (blinding_pubkey_valid (outputs psbtx) = true
   ∧ te = BLINDING_REQUIRED ∧ complete = false ∧ psbtx' = psbtx)
  ∨ ∃ tx0,
      blinding_pubkey_valid (outputs psbtx) = false
      ∧ tx psbtx = Some tx0
      ∧ length (CMutableTransaction.vout tx0) ≤ length (outputs psbtx)
      ∧ ((imbalance_ok = false
          ∧ balance_check (inputs psbtx) (stuffed (outputs psbtx) tx0)
            = Normal (Some te)
          ∧ complete = false
          ∧ psbtx' = set_tx (Some (stuffed (outputs psbtx) tx0)) psbtx)
         ∨ (checks_pass psbtx imbalance_ok
            ∧ ∃ c,
                for_loop (sign_body pwallet sighash_type sign)
                  (length (CMutableTransaction.vin tx0)) 0
                  (set_tx (Some (stuffed (outputs psbtx) tx0)) psbtx, true)
                = Normal c
                ∧ match c with
                  | Return r (q, b) => te = r ∧ complete = b ∧ psbtx' = q
                  | Next (q, b) =>
                      te = OK ∧ complete = b ∧ psbtx' = set_tx (Some tx0) q
                  end)).
Proof.
  unfold SignPSBT. intros Hrun.
  destruct (blinding_pubkey_valid (outputs psbtx)) eqn:Hblind.
  { inversion Hrun; subst. by left. }
  right. bind_inv Hrun. apply deref_Normal in Ha as Htx. rename a into tx0.
  bind_inv Hrun. destruct (materialize_Normal _ _ _ Ha0) as [Hle ->].
  exists tx0. split; [done|]. split; [done|]. split; [done|].
  bind_inv Hrun. destruct a as [te'|].
  - left. inversion Hrun; subst.
    destruct imbalance_ok; simpl in *; [done|]. done.
  - right. split.
    { split; [done|]. destruct imbalance_ok; [by left|]. right. by exists tx0. }
    bind_inv Hrun. exists a. split; [done|].
    destruct a as [[q b]|r [q b]]; inversion Hrun; subst; [|done].
    by rewrite CMutableTransaction_of_CTransaction_of.
Qed.

(** X1.  When [SignPSBT] returns one of the codes of the balance check
    ([INVALID_PSBT], [UTXOS_MISSING_BALANCE_CHECK], [VALUE_IMBALANCE]), the
    check was requested, [complete] is false, and the PSBT it leaves is the
    one it was given except for the skeleton, which is the materialized
    transaction: nothing is rolled back, no input side-record is touched. *)
Theorem SignPSBT_balance_error_leaves_stuffed_tx (pwallet : CWallet.t)
    (psbtx : PSBT) (sighash_type : Z) (sign imbalance_ok : bool)
    (te : TransactionError) (complete : bool) (psbtx' : PSBT) :
  SignPSBT pwallet psbtx sighash_type sign imbalance_ok
    = Normal (te, complete, psbtx') →
  te = INVALID_PSBT ∨ te = UTXOS_MISSING_BALANCE_CHECK ∨ te = VALUE_IMBALANCE →
  ∃ tx0,
    tx psbtx = Some tx0 ∧ imbalance_ok = false ∧ complete = false
    ∧ psbtx' = set_tx (Some (stuffed (outputs psbtx) tx0)) psbtx.
Proof.
  intros Hrun Hte.
  destruct (SignPSBT_Normal_inv _ _ _ _ _ _ _ _ Hrun)
    as [(_ & -> & _)|(tx0 & _ & Htx & _ & [Hbal|[_ (c & Hloop & Hc)]])].
  - by destruct Hte as [|[|]].
  - exists tx0. tauto.
  - apply sign_loop_frame in Hloop.
    destruct c as [[q b]|r [q b]].
    + destruct Hc as (-> & _). by destruct Hte as [|[|]].
    + destruct Hc as (-> & _). destruct Hloop as (-> & _).
      by destruct Hte as [|[|]].
Qed.

(** X2.  The codes [SignPSBT] can return depend on its flags: with the
    balance check waived only [OK], [BLINDING_REQUIRED] and
    [SIGHASH_MISMATCH]; without actual signing never [SIGHASH_MISMATCH]. *)
Theorem SignPSBT_codes_by_flags (pwallet : CWallet.t) (psbtx : PSBT)
    (sighash_type : Z) (sign imbalance_ok : bool) (te : TransactionError)
    (complete : bool) (psbtx' : PSBT) :
  SignPSBT pwallet psbtx sighash_type sign imbalance_ok
    = Normal (te, complete, psbtx') →
  (imbalance_ok = true →
     te = OK ∨ te = BLINDING_REQUIRED ∨ te = SIGHASH_MISMATCH)
  ∧ (sign = false → te ≠ SIGHASH_MISMATCH).
Proof.
  intros Hrun.
  destruct (SignPSBT_Normal_inv _ _ _ _ _ _ _ _ Hrun)
    as [(_ & -> & _)|(tx0 & _ & Htx & _ & [Hbal|[_ (c & Hloop & Hc)]])].
  - split; [tauto|done].
  - destruct Hbal as (-> & Hcode & _). split; [done|].
    intros _ ->. by apply balance_check_codes in Hcode as [|[|]].
  - split.
    + intros _. apply sign_loop_frame in Hloop.
      destruct c as [[q b]|r [q b]]; [tauto|].
      destruct Hc as (-> & _). destruct Hloop as (-> & _). tauto.
    + intros -> ->. destruct c as [[q b]|r [q b]]; [by destruct Hc|].
      destruct Hc as (<- & _).
      assert (Hnever : match Return SIGHASH_MISMATCH (q, b)
                             : ctl (PSBT * bool) TransactionError with
                       | Next _ => True
                       | Return _ _ => False
                       end); [|done].
      apply (for_loop_inv (sign_body pwallet sighash_type false)
               (λ _ _, True) (λ _ _, False) _ _ _ _ I) in Hloop; [done|].
      intros j [p0 b0] c0 _ _ Hb. unfold sign_body in Hb. simpl in Hb.
      bind_inv Hb. destruct a as [ok ins]. by inversion Hb.
Qed.

End SignerPaths.

Section SignerRuns.

Context `{Collaborators}.

Import PartiallySignedTransaction.

(** The signing loop goes through its first [k] iterations when, signing
    being requested, no input below [k] has a differing sighash mode. *)
Lemma sign_loop_runs pwallet sighash_type sign (psbtx : PSBT) k :
  SignPSBTInput_returns → SignPSBTInput_frame →
  k ≤ length (inputs psbtx) →
  (sign = true → ∀ m z, m < k → inputs psbtx !! m = Some z →
     sighash_differs sighash_type z = false) →
  ∃ psbtx' complete,
    for_loop (sign_body pwallet sighash_type sign) k 0 (psbtx, true)
      = Normal (Next (psbtx', complete))
    ∧ tx psbtx' = tx psbtx ∧ outputs psbtx' = outputs psbtx
    ∧ length (inputs psbtx') = length (inputs psbtx)
    ∧ ∀ m, k ≤ m → inputs psbtx' !! m = inputs psbtx !! m.
Proof.
  intros Hret Hframe Hk Hsame.
  destruct (for_loop_total (sign_body pwallet sighash_type sign)
    (λ j st, tx st.1 = tx psbtx ∧ outputs st.1 = outputs psbtx
             ∧ length (inputs st.1) = length (inputs psbtx)
             ∧ ∀ m, j ≤ m → inputs st.1 !! m = inputs psbtx !! m)
    (λ _ _, False) k 0 (psbtx, true)) as (c & Hc & Hpost).
  { done. }
  { intros j [p b] [_ Hj] (Htx & Hout & Hlen & Hrest). simpl in *.
    destruct (lookup_lt_is_Some_2 (inputs p) j ltac:(lia)) as [inp Hinp].
    destruct (Hret (HidingSigningProvider.mk pwallet (negb sign) true) p j
                sighash_type ltac:(lia)) as (ok & inputs' & Hsign).
    destruct (Hframe _ _ _ _ _ _ Hsign) as [input' ->].
    exists (Next (set_inputs (<[j := input']> (inputs p)) p, b && ok)).
    split.
    - unfold sign_body, vec_index. destruct sign; simpl.
      + rewrite Hinp. simpl.
        rewrite (Hsame eq_refl j inp) by (lia || by rewrite <- Hrest by lia).
        simpl. simpl in Hsign. by rewrite Hsign.
      + simpl in Hsign. by rewrite Hsign.
    - simpl. split; [done|]. split; [done|]. split; [by rewrite length_insert|].
      intros m Hm. rewrite list_lookup_insert_ne by lia. apply Hrest. lia. }
  destruct c as [[p b]|r [p b]]; [|done]. simpl in Hpost.
  exists p, b. split; [done|]. tauto.
Qed.

(** X3.  On a well-formed PSBT that gets past the blinding check and the
    balance check, with a [SignPSBTInput] that keeps its contract: if no
    signing is requested, or no input has a recorded sighash mode differing
    from the requested one, [SignPSBT] returns [OK]; the skeleton and the
    output side-records are those it was given, and there are as many input
    side-records as before. *)
Theorem SignPSBT_ok_without_mismatch (pwallet : CWallet.t) (psbtx : PSBT)
    (sighash_type : Z) (sign imbalance_ok : bool) :
  SignPSBTInput_returns → SignPSBTInput_frame →
  well_formed psbtx → checks_pass psbtx imbalance_ok →
  (sign = true → ∀ i inp, inputs psbtx !! i = Some inp →
     sighash_differs sighash_type inp = false) →
  ∃ complete psbtx',
    SignPSBT pwallet psbtx sighash_type sign imbalance_ok
      = Normal (OK, complete, psbtx')
    ∧ tx psbtx' = tx psbtx ∧ outputs psbtx' = outputs psbtx
    ∧ length (inputs psbtx') = length (inputs psbtx).
Proof.
  intros Hret Hframe Hwf Hpass Hsame.
  unfold well_formed in Hwf. destruct (tx psbtx) as [tx0|] eqn:Htx; [|done].
  destruct Hwf as [Hin Hout].
  destruct (sign_loop_runs pwallet sighash_type sign
              (set_tx (Some (stuffed (outputs psbtx) tx0)) psbtx)
              (length (CMutableTransaction.vin tx0)) Hret Hframe)
    as (p & b & Hrun & _ & Hout' & Hlen' & _).
  { simpl. lia. }
  { intros Hs m z _. by apply Hsame. }
  exists b, (set_tx (Some tx0) p).
  rewrite (SignPSBT_checks_pass _ _ _ _ _ tx0) by (done || lia).
  rewrite Hrun. done.
Qed.

(** X4.  A PSBT whose skeleton has no input, and which gets past the two
    checks, is returned as it is with [OK] and [complete] true: the flag is
    true although nothing was signed. *)
Theorem SignPSBT_no_inputs (pwallet : CWallet.t) (psbtx : PSBT)
    (sighash_type : Z) (sign imbalance_ok : bool) (tx0 : CMutableTransaction.t) :
  tx psbtx = Some tx0 → CMutableTransaction.vin tx0 = [] →
  length (CMutableTransaction.vout tx0) ≤ length (outputs psbtx) →
  checks_pass psbtx imbalance_ok →
  SignPSBT pwallet psbtx sighash_type sign imbalance_ok = Normal (OK, true, psbtx).
Proof.
  intros Htx Hvin Hlen Hpass.
  rewrite (SignPSBT_checks_pass _ _ _ _ _ tx0) by done.
  rewrite Hvin. simpl. destruct psbtx. simpl in *. by subst.
Qed.

(** X5.  A call that fails after materialization leaves a PSBT on which the
    next call takes its snapshot from the materialized skeleton: when that
    next call returns [OK], the skeleton it restores is the materialized
    one, not the one the first call was given. *)
Theorem SignPSBT_retry_restores_stuffed_tx (pwallet : CWallet.t) (psbtx : PSBT)
    (sighash_type sighash_type2 : Z) (sign imbalance_ok sign2 imbalance_ok2 : bool)
    (te : TransactionError) (complete complete2 : bool) (psbtx1 psbtx2 : PSBT) :
  SignPSBT pwallet psbtx sighash_type sign imbalance_ok
    = Normal (te, complete, psbtx1) →
  te ≠ OK → te ≠ BLINDING_REQUIRED →
  SignPSBT pwallet psbtx1 sighash_type2 sign2 imbalance_ok2
    = Normal (OK, complete2, psbtx2) →
  ∃ tx0,
    tx psbtx = Some tx0
    ∧ tx psbtx2 = Some (stuffed (outputs psbtx) tx0)
    ∧ outputs psbtx2 = outputs psbtx.
Proof.
  intros Hrun1 Hok Hblind Hrun2.
  assert (H1 : ∃ tx0, tx psbtx = Some tx0
                      ∧ tx psbtx1 = Some (stuffed (outputs psbtx) tx0)
                      ∧ outputs psbtx1 = outputs psbtx).
  { destruct (SignPSBT_Normal_inv _ _ _ _ _ _ _ _ Hrun1)
      as [(_ & -> & _)|(tx0 & _ & Htx & _ & [Hbal|[_ (c & Hloop & Hc)]])];
      [done| |].
    - exists tx0. destruct Hbal as (_ & _ & _ & ->). done.
    - exists tx0. apply sign_loop_frame in Hloop.
      destruct c as [[q b]|r [q b]]; [by destruct Hc|].
      destruct Hc as (_ & _ & ->). destruct Hloop as (_ & _ & Htxq & Houtq).
      done. }
  destruct H1 as (tx0 & Htx & Htx1 & Hout1). exists tx0. split; [done|].
  destruct (SignPSBT_Normal_inv _ _ _ _ _ _ _ _ Hrun2)
    as [(_ & ? & _)|(tx1 & _ & Htx1' & _ & [Hbal|[_ (c & Hloop & Hc)]])];
    [done| |].
  - destruct Hbal as (_ & Hcode & _).
    by apply balance_check_codes in Hcode as [|[|]].
  - apply sign_loop_frame in Hloop.
    destruct c as [[q b]|r [q b]].
    + destruct Hc as (_ & _ & ->). destruct Hloop as [_ Houtq]. simpl in *.
      split; congruence.
    + destruct Hc as (<- & _). by destruct Hloop.
Qed.

End SignerRuns.

Section Materialization.

Context `{Collaborators}.

Import PartiallySignedTransaction.

Lemma stuff_out_idemp output out :
  stuff_out output (stuff_out output out) = stuff_out output out.
Proof.
  unfold stuff_out.
  destruct (negb (CConfidentialValue_IsNull _)),
    (negb (CConfidentialAsset_IsNull _)), (negb (CConfidentialNonce_IsNull _));
    by destruct out.
Qed.

Lemma stuff_outwit_idemp output outwit :
  stuff_outwit output (stuff_outwit output outwit) = stuff_outwit output outwit.
Proof.
  unfold stuff_outwit.
  destruct (PSBTOutput.range_proof output), (PSBTOutput.surjection_proof output);
    by destruct outwit.
Qed.

Lemma zip_with_idemp {A B} (f : A → B → B) (O : list A) (V : list B) :
  (∀ a b, f a (f a b) = f a b) →
  zip_with f O (zip_with f O V) = zip_with f O V.
Proof.
  intros Hf. revert V. induction O as [|a O IH]; intros [|b V]; simpl; [done..|].
  by rewrite Hf, IH.
Qed.

Lemma stuffed_idemp outputs tx0 :
  length (CMutableTransaction.vout tx0) ≤ length outputs →
  stuffed outputs (stuffed outputs tx0) = stuffed outputs tx0.
Proof.
  intros Hle. unfold stuffed. simpl.
  rewrite (zip_with_idemp stuff_out) by apply stuff_out_idemp.
  set (W := resize _ _ (CTxWitness.vtxoutwit (CMutableTransaction.witness tx0))).
  assert (HW : length W = length (CMutableTransaction.vout tx0))
    by (unfold W; by rewrite length_resize).
  rewrite (resize_all_alt (zip_with stuff_outwit outputs W))
    by (rewrite !length_zip_with; lia).
  by rewrite (zip_with_idemp stuff_outwit) by apply stuff_outwit_idemp.
Qed.

(** X6.  Materialization is idempotent: run on the transaction it built,
    with the same side-records, it returns that transaction again. *)
Theorem materialize_idempotent (outputs : list PSBTOutput.t)
    (tx0 tx' : CMutableTransaction.t) :
  materialize outputs tx0 = Normal tx' → materialize outputs tx' = Normal tx'.
Proof.
  intros Hrun. destruct (materialize_Normal _ _ _ Hrun) as [Hle ->].
  rewrite materialize_total.
  - by rewrite stuffed_idemp.
  - unfold stuffed. simpl. rewrite length_zip_with. lia.
Qed.

Lemma stuff_out_keeps output out :
  CTxOut.scriptPubKey (stuff_out output out) = CTxOut.scriptPubKey out
  ∧ (CConfidentialValue_IsNull (PSBTOutput.value_commitment output) = true →
     CTxOut.nValue (stuff_out output out) = CTxOut.nValue out)
  ∧ (CConfidentialAsset_IsNull (PSBTOutput.asset_commitment output) = true →
     CTxOut.nAsset (stuff_out output out) = CTxOut.nAsset out)
  ∧ (CConfidentialNonce_IsNull (PSBTOutput.nonce_commitment output) = true →
     CTxOut.nNonce (stuff_out output out) = CTxOut.nNonce out).
Proof.
  unfold stuff_out.
  destruct (CConfidentialValue_IsNull _), (CConfidentialAsset_IsNull _),
    (CConfidentialNonce_IsNull _); simpl; repeat split; done.
Qed.

Lemma stuff_outwit_keeps output outwit :
  (PSBTOutput.range_proof output = [] →
   CTxOutWitness.vchRangeproof (stuff_outwit output outwit)
   = CTxOutWitness.vchRangeproof outwit)
  ∧ (PSBTOutput.surjection_proof output = [] →
     CTxOutWitness.vchSurjectionproof (stuff_outwit output outwit)
     = CTxOutWitness.vchSurjectionproof outwit).
Proof.
  unfold stuff_outwit.
  destruct (PSBTOutput.range_proof output), (PSBTOutput.surjection_proof output);
    simpl; split; done.
Qed.

(** X7.  What materialization leaves alone: the inputs, version, lock time
    and input witnesses of the transaction, the number of its outputs, the
    script of every output, every output field whose side-record commitment
    is null, and every proof of an existing output witness whose side-record
    proof is empty. *)
Theorem materialize_frame (outputs : list PSBTOutput.t)
    (tx0 tx' : CMutableTransaction.t) :
  materialize outputs tx0 = Normal tx' →
  CMutableTransaction.vin tx' = CMutableTransaction.vin tx0
  ∧ CMutableTransaction.nVersion tx' = CMutableTransaction.nVersion tx0
  ∧ CMutableTransaction.nLockTime tx' = CMutableTransaction.nLockTime tx0
  ∧ CTxWitness.vtxinwit (CMutableTransaction.witness tx')
    = CTxWitness.vtxinwit (CMutableTransaction.witness tx0)
  ∧ length (CMutableTransaction.vout tx') = length (CMutableTransaction.vout tx0)
  ∧ (∀ i out output,
       CMutableTransaction.vout tx0 !! i = Some out → outputs !! i = Some output →
       ∃ out',
         CMutableTransaction.vout tx' !! i = Some out'
         ∧ CTxOut.scriptPubKey out' = CTxOut.scriptPubKey out
         ∧ (CConfidentialValue_IsNull (PSBTOutput.value_commitment output) = true →
            CTxOut.nValue out' = CTxOut.nValue out)
         ∧ (CConfidentialAsset_IsNull (PSBTOutput.asset_commitment output) = true →
            CTxOut.nAsset out' = CTxOut.nAsset out)
         ∧ (CConfidentialNonce_IsNull (PSBTOutput.nonce_commitment output) = true →
            CTxOut.nNonce out' = CTxOut.nNonce out))
  ∧ (∀ i outwit output,
       CTxWitness.vtxoutwit (CMutableTransaction.witness tx0) !! i = Some outwit →
       i < length (CMutableTransaction.vout tx0) → outputs !! i = Some output →
       ∃ outwit',
         CTxWitness.vtxoutwit (CMutableTransaction.witness tx') !! i = Some outwit'
         ∧ (PSBTOutput.range_proof output = [] →
            CTxOutWitness.vchRangeproof outwit' = CTxOutWitness.vchRangeproof outwit)
         ∧ (PSBTOutput.surjection_proof output = [] →
            CTxOutWitness.vchSurjectionproof outwit'
            = CTxOutWitness.vchSurjectionproof outwit)).
Proof.
  intros Hrun. destruct (materialize_Normal _ _ _ Hrun) as [Hle ->].
  unfold stuffed. simpl. repeat (split; [done|]).
  split; [rewrite length_zip_with; lia|]. split.
  - intros i out output Hout HO. exists (stuff_out output out).
    rewrite lookup_zip_with, HO, Hout. simpl. split; [done|].
    apply stuff_out_keeps.
  - intros i outwit output Hwit Hi HO. exists (stuff_outwit output outwit).
    rewrite lookup_zip_with, HO. simpl.
    rewrite lookup_resize by (done || by eapply lookup_lt_Some).
    rewrite Hwit. simpl. split; [done|]. apply stuff_outwit_keeps.
Qed.

(** The stuffing loop goes through its first [k] iterations when the first
    [k] outputs have a side-record. *)
Lemma stuff_loop_prefix outputs tx0 k :
  k ≤ length outputs → k ≤ length (CMutableTransaction.vout tx0) →
  for_loop (stuff_body outputs) k 0 (stuffed_upto 0 outputs tx0)
  = Normal (Next (stuffed_upto k outputs tx0)).
Proof.
  intros HkO HkV.
  destruct (for_loop_total (stuff_body outputs)
    (λ i t, t = stuffed_upto i outputs tx0) (λ _ _, False)
    k 0 (stuffed_upto 0 outputs tx0) eq_refl) as (c & Hc & Hpost).
  { intros j t [_ Hj] ->. simpl in Hj.
    destruct (lookup_lt_is_Some_2 outputs j ltac:(lia)) as [output HO].
    eexists. split; [apply (stuff_body_step _ _ _ output HO); lia|]. done. }
  rewrite Hc. destruct c as [t|r t]; [|done]. simpl in Hpost. by subst.
Qed.

(** With fewer side-records than outputs, [materialize] throws at the first
    output that has none. *)
Lemma materialize_out_of_range outputs tx0 :
  length outputs < length (CMutableTransaction.vout tx0) →
  materialize outputs tx0 = OutOfRange.
Proof.
  intros Hlt. unfold materialize.
  set (t1 := CMutableTransaction.set_witness _ tx0).
  assert (Ht1 : t1 = stuffed_upto 0 outputs tx0).
  { unfold t1, stuffed_upto. rewrite !stuff_prefix_0. by destruct tx0. }
  replace (length (CMutableTransaction.vout t1))
    with (length outputs
          + Datatypes.S (length (CMutableTransaction.vout tx0) - length outputs - 1))
    by (replace (length (CMutableTransaction.vout t1))
          with (length (CMutableTransaction.vout tx0)) by done; lia).
  rewrite for_loop_split, Ht1, stuff_loop_prefix by lia. simpl.
  unfold stuff_body, vec_at. by rewrite lookup_ge_None_2 by lia.
Qed.

End Materialization.

Section SignerBounds.

Context `{Collaborators}.

Import PartiallySignedTransaction.

(** X8.  [SignPSBT] reads the output side-records with [at]: on a PSBT that
    gets past the blinding check and has fewer output side-records than its
    skeleton has outputs, it throws [std::out_of_range]. *)
Theorem SignPSBT_missing_output_record (pwallet : CWallet.t) (psbtx : PSBT)
    (sighash_type : Z) (sign imbalance_ok : bool) (tx0 : CMutableTransaction.t) :
  blinding_pubkey_valid (outputs psbtx) = false →
  tx psbtx = Some tx0 →
  length (outputs psbtx) < length (CMutableTransaction.vout tx0) →
  SignPSBT pwallet psbtx sighash_type sign imbalance_ok = OutOfRange.
Proof.
  intros Hblind Htx Hlt. unfold SignPSBT. rewrite Hblind, Htx. simpl.
  by rewrite materialize_out_of_range.
Qed.

(** The previous transaction has the right hash but no output at the index
    the input refers to: the iteration indexes past the end of [vout]. *)
Lemma utxo_body_prevout_out_of_range inputs tx k inp prev txin acc :
  inputs !! k = Some inp →
  CMutableTransaction.vin tx !! k = Some txin →
  PSBTInput.non_witness_utxo inp = Some prev →
  CTransaction.GetHash prev = COutPoint.hash (CTxIn.prevout txin) →
  length (CTransaction.vout prev) ≤ N.to_nat (COutPoint.n (CTxIn.prevout txin)) →
  utxo_body inputs tx k acc = Undefined.
Proof.
  intros Hk Hin Hnw Hhash Hn. unfold utxo_body, vec_index.
  rewrite Hk. simpl. rewrite Hnw, Hin. simpl.
  rewrite bool_decide_eq_false_2 by (intros Hne; by apply Hne).
  rewrite (lookup_ge_None_2 _ _ Hn).
  by destruct (negb (CTxOut_IsNull _)).
Qed.

Lemma balance_check_first_undefined inputs tx k :
  k < length inputs →
  (∀ j, j < k → utxo_resolves inputs tx j) →
  (∀ acc, utxo_body inputs tx k acc = Undefined) →
  balance_check inputs tx = Undefined.
Proof.
  intros Hk Hres Hfail. unfold balance_check.
  replace (length inputs) with (k + Datatypes.S (length inputs - k - 1)) by lia.
  rewrite for_loop_split.
  destruct (for_loop_total (utxo_body inputs tx) (λ _ _, True) (λ _ _, False)
              k 0 [] I) as (c & Hc & Hpost).
  { intros j acc [_ Hj] _. destruct (Hres j ltac:(lia)) as [o Ho].
    exists (Next (acc ++ [o])). by rewrite Ho. }
  rewrite Hc. simpl. destruct c as [acc|r' acc]; [|done].
  simpl. by rewrite Hfail.
Qed.

(** X9.  The balance check does not test [prevout.n] against the size of
    the previous transaction: when the first input that does not resolve
    carries a non-witness previous transaction with the right hash and fewer
    outputs than the index it refers to, the read [vout[prevout.n]] is past
    the end of the vector, and the behaviour of [SignPSBT] is undefined. *)
Theorem SignPSBT_prevout_index_unchecked (pwallet : CWallet.t) (psbtx : PSBT)
    (sighash_type : Z) (sign : bool) (tx0 : CMutableTransaction.t) (k : nat)
    (inp : PSBTInput.t) (prev : CTransaction.t) (txin : CTxIn.t) :
  blinding_pubkey_valid (outputs psbtx) = false →
  tx psbtx = Some tx0 →
  length (CMutableTransaction.vout tx0) ≤ length (outputs psbtx) →
  inputs psbtx !! k = Some inp →
  CMutableTransaction.vin tx0 !! k = Some txin →
  PSBTInput.non_witness_utxo inp = Some prev →
  CTransaction.GetHash prev = COutPoint.hash (CTxIn.prevout txin) →
  length (CTransaction.vout prev) ≤ N.to_nat (COutPoint.n (CTxIn.prevout txin)) →
  (∀ j, j < k → utxo_resolves (inputs psbtx) tx0 j) →
  SignPSBT pwallet psbtx sighash_type sign false = Undefined.
Proof.
  intros Hblind Htx Hlen Hk Hin Hnw Hhash Hn Hres. unfold SignPSBT.
  rewrite Hblind, Htx. simpl. rewrite materialize_total by done. simpl.
  rewrite (balance_check_first_undefined _ _ k); [done| | |].
  - by eapply lookup_lt_Some.
  - intros j Hj. destruct (Hres j Hj) as [o Ho]. exists o. intros acc.
    rewrite <- (Ho acc). by apply utxo_body_vin.
  - intros acc. by apply (utxo_body_prevout_out_of_range _ _ _ inp prev txin).
Qed.

(** X10.  The signing loop runs over the skeleton's inputs and reads the
    side-records with [operator[]]: with signing requested on a PSBT that
    gets past the two checks, has fewer input side-records than inputs and
    none with a differing sighash mode, the read of the first missing
    side-record is past the end of the vector (undefined behaviour). *)
Theorem SignPSBT_missing_input_record (pwallet : CWallet.t) (psbtx : PSBT)
    (sighash_type : Z) (imbalance_ok : bool) (tx0 : CMutableTransaction.t) :
  SignPSBTInput_returns → SignPSBTInput_frame →
  tx psbtx = Some tx0 →
  length (CMutableTransaction.vout tx0) ≤ length (outputs psbtx) →
  checks_pass psbtx imbalance_ok →
  length (inputs psbtx) < length (CMutableTransaction.vin tx0) →
  (∀ i inp, inputs psbtx !! i = Some inp →
     sighash_differs sighash_type inp = false) →
  SignPSBT pwallet psbtx sighash_type true imbalance_ok = Undefined.
Proof.
  intros Hret Hframe Htx Hlen Hpass Hlt Hsame.
  rewrite (SignPSBT_checks_pass _ _ _ _ _ tx0) by done.
  set (p1 := set_tx (Some (stuffed (outputs psbtx) tx0)) psbtx).
  destruct (sign_loop_runs pwallet sighash_type true p1 (length (inputs psbtx))
              Hret Hframe) as (p & b & Hrun & _ & _ & Hlen' & _).
  { done. }
  { intros _ m z _. by apply Hsame. }
  replace (length (CMutableTransaction.vin tx0))
    with (length (inputs psbtx)
          + Datatypes.S (length (CMutableTransaction.vin tx0)
                         - length (inputs psbtx) - 1)) by lia.
  rewrite for_loop_split, Hrun. simpl.
  unfold vec_index. rewrite lookup_ge_None_2; [done|].
  rewrite Hlen'. unfold p1. simpl. lia.
Qed.

End SignerBounds.

(** ** Further properties of the Input Filler *)

Section InputFiller.

Context `{Collaborators}.

Import PartiallySignedTransaction.

(** The only early return of an iteration is on an input that is neither
    signed nor sane. *)
Lemma FillPSBTInputsData_body_Return pwallet tx0 b i (p : PSBT) input r p' :
  inputs p !! i = Some input →
  FillPSBTInputsData_body pwallet tx0 b i p = Normal (Return r p') →
  r = INVALID_PSBT ∧ p' = p
  ∧ PSBTInputSigned input = false ∧ PSBTInput_IsSane input = false.
Proof.
  intros Hinp Hb. unfold FillPSBTInputsData_body in Hb.
  bind_inv Hb. bind_inv Hb. apply vec_at_Normal in Ha0.
  rewrite Hinp in Ha0. inversion Ha0; subst a0.
  destruct (PSBTInputSigned input); [done|].
  destruct (PSBTInput_IsSane input); simpl in Hb.
  - bind_inv Hb. by destruct a0.
  - by inversion Hb.
Qed.

Lemma FillPSBTInputsData_body_insane pwallet tx0 b i (p : PSBT) txin input :
  CMutableTransaction.vin tx0 !! i = Some txin → inputs p !! i = Some input →
  PSBTInputSigned input = false → PSBTInput_IsSane input = false →
  FillPSBTInputsData_body pwallet tx0 b i p = Normal (Return INVALID_PSBT p).
Proof.
  intros Hin Hinp Hsigned Hsane.
  unfold FillPSBTInputsData_body, vec_index, vec_at. rewrite Hin, Hinp. simpl.
  by rewrite Hsigned, Hsane.
Qed.

(** On any return, the code is [OK] or [INVALID_PSBT] and the skeleton and
    the output side-records are untouched. *)
Lemma FillPSBTInputsData_Normal_inv pwallet (psbtx : PSBT) b te psbtx' :
  FillPSBTInputsData pwallet psbtx b = Normal (te, psbtx') →
  (te = OK ∨ te = INVALID_PSBT)
  ∧ tx psbtx' = tx psbtx ∧ outputs psbtx' = outputs psbtx.
Proof.
  unfold FillPSBTInputsData. intros Hrun. bind_inv Hrun. bind_inv Hrun.
  pose proof (λ Hbody, for_loop_inv (FillPSBTInputsData_body pwallet a b)
    (λ _ p, tx p = tx psbtx ∧ outputs p = outputs psbtx)
    (λ r p, r = INVALID_PSBT ∧ tx p = tx psbtx ∧ outputs p = outputs psbtx)
    _ _ _ _ (conj eq_refl eq_refl) Hbody Ha0) as Hinv.
  assert (Hpost : match a0 with
                  | Next p => tx p = tx psbtx ∧ outputs p = outputs psbtx
                  | Return r p =>
                      r = INVALID_PSBT ∧ tx p = tx psbtx ∧ outputs p = outputs psbtx
                  end).
  { apply Hinv. intros j p c _ [Htx Hout] Hb.
    unfold FillPSBTInputsData_body in Hb. bind_inv Hb. bind_inv Hb.
    destruct (PSBTInputSigned a2); [by inversion Hb; subst|].
    destruct (PSBTInput_IsSane a2); simpl in Hb; [|by inversion Hb; subst].
    bind_inv Hb. destruct a3 as [ok ins]. by inversion Hb; subst. }
  destruct a0 as [p|r p]; inversion Hrun; subst; tauto.
Qed.

(** The loop goes through its first [k] iterations when every input below
    [k] is signed or sane. *)
Lemma fill_loop_prefix pwallet (psbtx : PSBT) b tx0 k :
  SignPSBTInput_returns → SignPSBTInput_frame →
  k ≤ length (inputs psbtx) → k ≤ length (CMutableTransaction.vin tx0) →
  (∀ m input, m < k → inputs psbtx !! m = Some input →
     PSBTInputSigned input = true ∨ PSBTInput_IsSane input = true) →
  ∃ p,
    for_loop (FillPSBTInputsData_body pwallet tx0 b) k 0 psbtx = Normal (Next p)
    ∧ filled_upto pwallet b tx0 psbtx k p.
Proof.
  intros Hret Hframe HkI HkV Hok.
  destruct (for_loop_total (FillPSBTInputsData_body pwallet tx0 b)
    (filled_upto pwallet b tx0 psbtx) (λ _ _, False) k 0 psbtx)
    as (c & Hc & Hpost).
  { repeat (split; [done|]). intros m input txin Hm. lia. }
  { intros j p [_ Hj] Hinv. simpl in Hj.
    destruct (lookup_lt_is_Some_2 (CMutableTransaction.vin tx0) j ltac:(lia))
      as [txin Hin].
    pose proof Hinv as (Htxp & Houtp & Hlenp & Hrest & Hdone).
    destruct (lookup_lt_is_Some_2 (inputs p) j ltac:(lia)) as [input Hinp].
    destruct (FillPSBTInputsData_body_total pwallet tx0 b j p txin input
                Hret Hframe Hin Hinp) as (c & Hc & Hpost).
    exists c. split; [done|]. destruct c as [p'|r p'].
    - destruct Hpost as (Htx' & Hout' & input' & Hinputs' & Hfill).
      assert (Hp' : p' = set_inputs (<[j := input']> (inputs p)) p).
      { clear -Htx' Hout' Hinputs'. destruct p', p. unfold set_inputs.
        simpl in *. by subst. }
      rewrite Hp'. apply (filled_upto_step _ _ _ _ _ _ txin); [done..| |lia].
      intros input0 Hinp0. rewrite <- Hrest in Hinp0 by lia.
      rewrite Hinp in Hinp0. by inversion Hinp0; subst.
    - destruct (FillPSBTInputsData_body_Return _ _ _ _ _ _ _ _ Hinp Hc)
        as (_ & _ & Hsigned & Hsane).
      rewrite Hrest in Hinp by lia.
      destruct (Hok j input ltac:(lia) Hinp); congruence. }
  destruct c as [p|r p]; [|done]. by exists p.
Qed.

(** Under the frame contract, an iteration that goes on has rewritten at
    most side-record [i], and not even that one if it was signed. *)
Lemma FillPSBTInputsData_body_frame pwallet tx0 b i (p : PSBT) c :
  SignPSBTInput_frame →
  FillPSBTInputsData_body pwallet tx0 b i p = Normal c →
  match c with
  | Next p' =>
      ∃ input', inputs p' = <[i := input']> (inputs p)
                ∧ ∀ input, inputs p !! i = Some input →
                    PSBTInputSigned input = true → input' = input
  | Return _ p' => p' = p
  end.
Proof.
  intros Hframe Hb. unfold FillPSBTInputsData_body in Hb.
  bind_inv Hb. bind_inv Hb. apply vec_at_Normal in Ha0. rename a0 into input0.
  destruct (PSBTInputSigned input0) eqn:Hsigned.
  { inversion Hb; subst. exists input0. split; [by rewrite list_insert_id|].
    intros input Hi _. congruence. }
  destruct (PSBTInput_IsSane input0); simpl in Hb; [|by inversion Hb].
  bind_inv Hb. destruct a0 as [ok ins]. inversion Hb; subst.
  destruct (Hframe _ _ _ _ _ _ Ha1) as [input' ->]. simpl.
  exists input'. split; [by rewrite list_insert_insert_eq|].
  intros input Hi Hs. congruence.
Qed.

(** X11.  Whenever [FillPSBTInputsData] returns, the code is [OK] or
    [INVALID_PSBT], and the skeleton and the output side-records are the
    ones it was given: it writes to input side-records only.  If moreover
    [SignPSBTInput] rewrites only the side-record at its index, there are as
    many input side-records as before and every input that was signed is
    the same record, on whatever PSBT and with whatever code it returns. *)
Theorem FillPSBTInputsData_codes_and_frame (pwallet : CWallet.t) (psbtx : PSBT)
    (bip32derivs : bool) (te : TransactionError) (psbtx' : PSBT) :
  FillPSBTInputsData pwallet psbtx bip32derivs = Normal (te, psbtx') →
  (te = OK ∨ te = INVALID_PSBT)
  ∧ tx psbtx' = tx psbtx ∧ outputs psbtx' = outputs psbtx
  ∧ (SignPSBTInput_frame →
     length (inputs psbtx') = length (inputs psbtx)
     ∧ ∀ i input,
         inputs psbtx !! i = Some input → PSBTInputSigned input = true →
         inputs psbtx' !! i = Some input).
Proof.
  intros Hrun.
  destruct (FillPSBTInputsData_Normal_inv _ _ _ _ _ Hrun) as (Hte & Htx & Hout).
  split; [done|]. split; [done|]. split; [done|]. intros Hframe.
  unfold FillPSBTInputsData in Hrun. bind_inv Hrun. bind_inv Hrun.
  pose proof (λ HI Hbody, for_loop_inv (FillPSBTInputsData_body pwallet a bip32derivs)
    (λ _ p, length (inputs p) = length (inputs psbtx)
            ∧ ∀ i input, inputs psbtx !! i = Some input →
                PSBTInputSigned input = true → inputs p !! i = Some input)
    (λ _ p, length (inputs p) = length (inputs psbtx)
            ∧ ∀ i input, inputs psbtx !! i = Some input →
                PSBTInputSigned input = true → inputs p !! i = Some input)
    _ _ _ _ HI Hbody Ha0) as Hinv.
  assert (Hpost : match a0 with
                  | Next p | Return _ p =>
                      length (inputs p) = length (inputs psbtx)
                      ∧ ∀ i input, inputs psbtx !! i = Some input →
                          PSBTInputSigned input = true → inputs p !! i = Some input
                  end).
  { assert (Hgoal := Hinv (conj eq_refl (λ i input Hi _, Hi))).
    destruct a0 as [q|r q]; apply Hgoal; clear Hgoal Hinv;
      intros j p c _ [Hlen Hkept] Hb;
      apply (FillPSBTInputsData_body_frame _ _ _ _ _ _ Hframe) in Hb;
      (destruct c as [p'|r' p'];
       [destruct Hb as (input' & Hins & Hsame); rewrite Hins;
        split; [by rewrite length_insert|];
        intros i input Hi Hs;
        destruct (decide (i = j)) as [->|Hne];
        [rewrite (Hsame input (Hkept j input Hi Hs) Hs);
         apply list_lookup_insert_eq; rewrite Hlen; by eapply lookup_lt_Some
        |rewrite list_lookup_insert_ne by done; by apply Hkept]
       |by subst]). }
  destruct a0 as [q|r q]; inversion Hrun; subst; exact Hpost.
Qed.

(** X12.  On a well-formed PSBT, with a [SignPSBTInput] that keeps its
    contract, [FillPSBTInputsData] returns [INVALID_PSBT] exactly when some
    input is neither signed nor sane, and [OK] otherwise; on
    [INVALID_PSBT] the inputs from the first such input on are untouched,
    while those before it stay as they were filled (no rollback). *)
Theorem FillPSBTInputsData_invalid_iff (pwallet : CWallet.t) (psbtx : PSBT)
    (bip32derivs : bool) :
  SignPSBTInput_returns → SignPSBTInput_frame → well_formed psbtx →
  ∃ te psbtx',
    FillPSBTInputsData pwallet psbtx bip32derivs = Normal (te, psbtx')
    ∧ (te = OK ∨ te = INVALID_PSBT)
    ∧ (te = INVALID_PSBT ↔
       ∃ i input, inputs psbtx !! i = Some input
                  ∧ PSBTInputSigned input = false
                  ∧ PSBTInput_IsSane input = false)
    ∧ (te = INVALID_PSBT →
       ∃ k input tx0,
         tx psbtx = Some tx0
         ∧ inputs psbtx !! k = Some input
         ∧ PSBTInputSigned input = false ∧ PSBTInput_IsSane input = false
         ∧ (∀ m z, m < k → inputs psbtx !! m = Some z →
              PSBTInputSigned z = true ∨ PSBTInput_IsSane z = true)
         ∧ filled_upto pwallet bip32derivs tx0 psbtx k psbtx').
Proof.
  intros Hret Hframe Hwf. unfold well_formed in Hwf.
  destruct (tx psbtx) as [tx0|] eqn:Htx; [|done]. destruct Hwf as [Hin Hout].
  set (bad := λ z, negb (PSBTInputSigned z) && negb (PSBTInput_IsSane z)).
  assert (Hbad : ∀ z, bad z = true ↔
            PSBTInputSigned z = false ∧ PSBTInput_IsSane z = false).
  { intros z. unfold bad.
    destruct (PSBTInputSigned z), (PSBTInput_IsSane z); simpl;
      intuition congruence. }
  assert (Hgood : ∀ z, bad z = false →
            PSBTInputSigned z = true ∨ PSBTInput_IsSane z = true).
  { intros z. unfold bad.
    destruct (PSBTInputSigned z), (PSBTInput_IsSane z); simpl; auto. }
  unfold FillPSBTInputsData. rewrite Htx. simpl.
  destruct (decide (Exists (λ z, bad z = true) (inputs psbtx))) as [Hex|Hnone].
  - apply Exists_exists in Hex as (x & Hx & Hbx).
    apply list_elem_of_lookup in Hx as [j Hj].
    destruct (first_index bad _ _ _ Hj Hbx) as (k & y & Hk & Hy & Hfirst).
    apply Hbad in Hy as [Hsigned Hsane].
    assert (Hklt : k < length (inputs psbtx)) by (by eapply lookup_lt_Some).
    destruct (fill_loop_prefix pwallet psbtx bip32derivs tx0 k Hret Hframe)
      as (p & Hrun & Hfilled); [lia|lia| |].
    { intros m z Hm Hz. apply Hgood. by apply (Hfirst m z). }
    destruct (lookup_lt_is_Some_2 (CMutableTransaction.vin tx0) k ltac:(lia))
      as [txin Htxin].
    replace (length (CMutableTransaction.vin tx0))
      with (k + Datatypes.S (length (CMutableTransaction.vin tx0) - k - 1)) by lia.
    rewrite for_loop_split, Hrun. simpl.
    pose proof Hfilled as (_ & _ & _ & Hrest & _).
    rewrite (FillPSBTInputsData_body_insane _ _ _ _ _ txin y)
      by (done || by rewrite Hrest).
    simpl. exists INVALID_PSBT, p. split; [done|]. split; [by right|]. split.
    + split; [intros _; by exists k, y|done].
    + intros _. exists k, y, tx0. repeat (split; [done|]). split; [|done].
      intros m z Hm Hz. apply Hgood. by apply (Hfirst m z).
  - assert (Hall : ∀ m input, inputs psbtx !! m = Some input →
              PSBTInputSigned input = true ∨ PSBTInput_IsSane input = true).
    { intros m input Hm. apply Hgood. destruct (bad input) eqn:Hb; [|done].
      exfalso. apply Hnone, Exists_exists. exists input.
      split; [by eapply list_elem_of_lookup_2|done]. }
    destruct (fill_loop_prefix pwallet psbtx bip32derivs tx0
                (length (CMutableTransaction.vin tx0)) Hret Hframe)
      as (p & Hrun & Hfilled); [lia|lia| |].
    { intros m input _. apply Hall. }
    rewrite Hrun. simpl. exists OK, p. split; [done|]. split; [by left|]. split.
    + split; [done|]. intros (i & input & Hi & Hsigned & Hsane).
      destruct (Hall i input Hi); congruence.
    + done.
Qed.

(** X13.  A PSBT whose inputs are all signed goes through
    [FillPSBTInputsData] unchanged, with [OK], whatever the wallet holds and
    whatever [SignPSBTInput] would do: it is not called. *)
Theorem FillPSBTInputsData_all_signed (pwallet : CWallet.t) (psbtx : PSBT)
    (bip32derivs : bool) (tx0 : CMutableTransaction.t) :
  tx psbtx = Some tx0 →
  length (CMutableTransaction.vin tx0) ≤ length (inputs psbtx) →
  (∀ i input, inputs psbtx !! i = Some input → PSBTInputSigned input = true) →
  FillPSBTInputsData pwallet psbtx bip32derivs = Normal (OK, psbtx).
Proof.
  intros Htx Hlen Hsigned. unfold FillPSBTInputsData. rewrite Htx. simpl.
  destruct (for_loop_total (FillPSBTInputsData_body pwallet tx0 bip32derivs)
    (λ _ p, p = psbtx) (λ _ _, False)
    (length (CMutableTransaction.vin tx0)) 0 psbtx eq_refl) as (c & Hc & Hpost).
  { intros j p [_ Hj] ->. simpl in Hj.
    destruct (lookup_lt_is_Some_2 (CMutableTransaction.vin tx0) j Hj) as [txin Hin].
    destruct (lookup_lt_is_Some_2 (inputs psbtx) j ltac:(lia)) as [input Hinp].
    exists (Next psbtx). split; [|done].
    unfold FillPSBTInputsData_body, vec_index, vec_at. rewrite Hin, Hinp. simpl.
    by rewrite (Hsigned j input Hinp). }
  rewrite Hc. simpl. destruct c as [p|r p]; [|done]. simpl in Hpost. by subst.
Qed.

(** X14.  [FillPSBTInputsData] reads the input side-records with [at]: with
    fewer of them than the skeleton has inputs, each signed or sane, it
    throws [std::out_of_range] after filling those there are. *)
Theorem FillPSBTInputsData_missing_input_record (pwallet : CWallet.t)
    (psbtx : PSBT) (bip32derivs : bool) (tx0 : CMutableTransaction.t) :
  SignPSBTInput_returns → SignPSBTInput_frame →
  tx psbtx = Some tx0 →
  length (inputs psbtx) < length (CMutableTransaction.vin tx0) →
  (∀ i input, inputs psbtx !! i = Some input →
     PSBTInputSigned input = true ∨ PSBTInput_IsSane input = true) →
  FillPSBTInputsData pwallet psbtx bip32derivs = OutOfRange.
Proof.
  intros Hret Hframe Htx Hlt Hall. unfold FillPSBTInputsData. rewrite Htx. simpl.
  destruct (fill_loop_prefix pwallet psbtx bip32derivs tx0 (length (inputs psbtx))
              Hret Hframe) as (p & Hrun & Hfilled); [lia|lia| |].
  { intros m input _. apply Hall. }
  replace (length (CMutableTransaction.vin tx0))
    with (length (inputs psbtx)
          + Datatypes.S (length (CMutableTransaction.vin tx0)
                         - length (inputs psbtx) - 1)) by lia.
  rewrite for_loop_split, Hrun. simpl.
  destruct Hfilled as (_ & _ & Hlen & _).
  destruct (lookup_lt_is_Some_2 (CMutableTransaction.vin tx0)
              (length (inputs psbtx)) Hlt) as [txin Hin].
  unfold FillPSBTInputsData_body, vec_index, vec_at. rewrite Hin. simpl.
  by rewrite lookup_ge_None_2 by lia.
Qed.

(** X21.  On a well-formed PSBT, with a [SignPSBTInput] that keeps its
    contract and leaves [value] alone: an input whose previous transaction
    is not in the wallet has the same [value] after [FillPSBTInputsData],
    whatever code is returned. *)
Theorem FillPSBTInputsData_wallet_miss (pwallet : CWallet.t) (psbtx : PSBT)
    (bip32derivs : bool) (tx0 : CMutableTransaction.t) (i : nat) (txin : CTxIn.t)
    (input : PSBTInput.t) :
  SignPSBTInput_returns → SignPSBTInput_frame → SignPSBTInput_keeps_value →
  well_formed psbtx → tx psbtx = Some tx0 →
  CMutableTransaction.vin tx0 !! i = Some txin →
  inputs psbtx !! i = Some input →
  CWallet.mapWallet pwallet !! COutPoint.hash (CTxIn.prevout txin) = None →
  ∃ te psbtx' input',
    FillPSBTInputsData pwallet psbtx bip32derivs = Normal (te, psbtx')
    ∧ inputs psbtx' !! i = Some input'
    ∧ PSBTInput.value input' = PSBTInput.value input.
Proof.
  intros Hret Hframe Hkeep Hwf Htx Htxin Hi Hmiss.
  unfold well_formed in Hwf. rewrite Htx in Hwf. destruct Hwf as [Hin Hout].
  destruct (FillPSBTInputsData_total pwallet psbtx bip32derivs tx0 Hret Hframe
              Htx Hin) as (te & psbtx' & j & Hrun & Hfilled & _).
  destruct Hfilled as (_ & _ & _ & Hrest & Hdone).
  exists te, psbtx'.
  destruct (decide (j ≤ i)) as [Hle|Hlt].
  { exists input. split; [done|]. split; [by rewrite Hrest|done]. }
  destruct (Hdone i input txin ltac:(lia) Hi Htxin) as (input' & Hi' & Hfill).
  exists input'. split; [done|]. split; [done|].
  unfold filled_by in Hfill. destruct (PSBTInputSigned input); [by subst|].
  destruct Hfill as (psbt & ok & inputs0 & Hfilled & Hsign & Hinput').
  rewrite (Hkeep _ _ _ _ _ _ _ _ Hsign Hfilled Hinput').
  unfold fill_input. by rewrite Hmiss.
Qed.

End InputFiller.

(** ** The Output Filler and the two compositions *)

Section OutputFiller.

Context `{Collaborators}.

Import PartiallySignedTransaction.

Lemma FillPSBTOutputsData_body_step pwallet tx0 b i (p : PSBT) out psbt_out :
  CMutableTransaction.vout tx0 !! i = Some out →
  outputs p !! i = Some psbt_out →
  FillPSBTOutputsData_body pwallet tx0 b i p
  = Normal (Next (set_outputs
                    (<[i := filled_output pwallet tx0 b out psbt_out]> (outputs p)) p)).
Proof.
  intros Hout Hp. unfold FillPSBTOutputsData_body, vec_at, filled_output.
  rewrite Hout, Hp. simpl. by destruct (ProduceSignature _ _ _ _).
Qed.

(** The loop goes through its first [k] iterations when the first [k]
    outputs have a side-record. *)
Lemma fill_outputs_prefix pwallet tx0 b (p : PSBT) k :
  k ≤ length (CMutableTransaction.vout tx0) → k ≤ length (outputs p) →
  for_loop (FillPSBTOutputsData_body pwallet tx0 b) k 0 p
  = Normal (Next (set_outputs
                    (stuff_prefix (filled_output pwallet tx0 b) k
                       (CMutableTransaction.vout tx0) (outputs p)) p)).
Proof.
  intros HkV HkO.
  destruct (for_loop_total (FillPSBTOutputsData_body pwallet tx0 b)
    (λ i q, q = set_outputs
                  (stuff_prefix (filled_output pwallet tx0 b) i
                     (CMutableTransaction.vout tx0) (outputs p)) p)
    (λ _ _, False) k 0 p) as (c & Hc & Hpost).
  { rewrite stuff_prefix_0. by destruct p. }
  { intros j q [_ Hj] ->. simpl in Hj.
    destruct (lookup_lt_is_Some_2 (CMutableTransaction.vout tx0) j ltac:(lia))
      as [out Hout].
    destruct (lookup_lt_is_Some_2 (outputs p) j ltac:(lia)) as [psbt_out Hp].
    destruct (stuff_prefix_step (filled_output pwallet tx0 b) _ _ j out psbt_out
                Hout Hp) as [Hl Hi].
    eexists. split.
    - by apply (FillPSBTOutputsData_body_step _ _ _ _ _ out psbt_out).
    - simpl. by rewrite Hi. }
  rewrite Hc. destruct c as [q|r q]; [|done]. simpl in Hpost. by subst.
Qed.

Lemma stuff_prefix_lookup_lt {A B} (f : A → B → B) (O : list A) (V : list B)
    k i a b :
  i < k → O !! i = Some a → V !! i = Some b →
  stuff_prefix f k O V !! i = Some (f a b).
Proof.
  intros Hi HO HV. unfold stuff_prefix.
  rewrite lookup_app_l.
  - rewrite lookup_zip_with, !lookup_take_lt, HO, HV by done. done.
  - rewrite length_zip_with, !length_take.
    apply lookup_lt_Some in HO, HV. lia.
Qed.

Lemma stuff_prefix_lookup_ge {A B} (f : A → B → B) (O : list A) (V : list B) k i :
  k ≤ length O → k ≤ i → stuff_prefix f k O V !! i = V !! i.
Proof.
  intros HkO Hi. unfold stuff_prefix.
  destruct (decide (k ≤ length V)) as [HkV|HkV].
  - rewrite lookup_app_r by (rewrite length_zip_with, !length_take; lia).
    rewrite length_zip_with, !length_take, lookup_drop. f_equal. lia.
  - rewrite drop_ge, app_nil_r by lia.
    rewrite !lookup_ge_None_2; [done|lia|].
    rewrite length_zip_with, !length_take. lia.
Qed.

Lemma stuff_prefix_length {A B} (f : A → B → B) (O : list A) (V : list B) k :
  k ≤ length O → length (stuff_prefix f k O V) = length V.
Proof.
  intros HkO. unfold stuff_prefix.
  rewrite length_app, length_zip_with, !length_take, length_drop. lia.
Qed.

(** On any return of the Output Filler the skeleton and the inputs are
    untouched. *)
Lemma FillPSBTOutputsData_Normal_inv pwallet (p : PSBT) b p' :
  FillPSBTOutputsData pwallet p b = Normal p' →
  tx p' = tx p ∧ inputs p' = inputs p
  ∧ length (outputs p') = length (outputs p).
Proof.
  unfold FillPSBTOutputsData. intros Hrun. bind_inv Hrun. bind_inv Hrun.
  pose proof (λ Hbody, for_loop_inv (FillPSBTOutputsData_body pwallet a b)
    (λ _ q, tx q = tx p ∧ inputs q = inputs p
            ∧ length (outputs q) = length (outputs p))
    (λ _ _, False) _ _ _ _ (conj eq_refl (conj eq_refl eq_refl)) Hbody Ha0) as Hinv.
  destruct a0 as [q|r q]; [|done]. inversion Hrun; subst.
  apply Hinv. intros j q0 c _ (Htx & Hin & Hlen) Hb.
  unfold FillPSBTOutputsData_body in Hb. bind_inv Hb. bind_inv Hb.
  destruct (ProduceSignature _ _ _ _). inversion Hb; subst. simpl.
  by rewrite length_insert.
Qed.

(** X15.  With a side-record for every output, [FillPSBTOutputsData]
    returns; the skeleton and the input side-records are untouched; the
    side-record of output [i] is replaced by what [FromSignatureData] makes
    of it after [ProduceSignature] ran, with a provider that hides secrets,
    on the data [FillSignatureData] took from it; side-records beyond the
    last output stay. *)
Theorem FillPSBTOutputsData_fills_each_output (pwallet : CWallet.t) (psbtx : PSBT)
    (bip32derivs : bool) (tx0 : CMutableTransaction.t) :
  tx psbtx = Some tx0 →
  length (CMutableTransaction.vout tx0) ≤ length (outputs psbtx) →
  ∃ psbtx',
    FillPSBTOutputsData pwallet psbtx bip32derivs = Normal psbtx'
    ∧ tx psbtx' = tx psbtx ∧ inputs psbtx' = inputs psbtx
    ∧ length (outputs psbtx') = length (outputs psbtx)
    ∧ (∀ i out psbt_out,
         CMutableTransaction.vout tx0 !! i = Some out →
         outputs psbtx !! i = Some psbt_out →
         outputs psbtx' !! i
         = Some (filled_output pwallet tx0 bip32derivs out psbt_out))
    ∧ (∀ i, length (CMutableTransaction.vout tx0) ≤ i →
         outputs psbtx' !! i = outputs psbtx !! i).
Proof.
  intros Htx Hlen. unfold FillPSBTOutputsData. rewrite Htx. simpl.
  rewrite fill_outputs_prefix by lia. simpl.
  eexists. split; [done|]. simpl. split; [done|]. split; [done|].
  split; [by apply stuff_prefix_length|]. split.
  - intros i out psbt_out Hout Hp. apply stuff_prefix_lookup_lt; [|done..].
    by eapply lookup_lt_Some.
  - intros i Hi. by apply stuff_prefix_lookup_ge.
Qed.

(** X16.  [FillPSBTOutputsData] reads the side-records with [at]: with
    fewer of them than the skeleton has outputs, it throws
    [std::out_of_range]. *)
Theorem FillPSBTOutputsData_missing_output_record (pwallet : CWallet.t)
    (psbtx : PSBT) (bip32derivs : bool) (tx0 : CMutableTransaction.t) :
  tx psbtx = Some tx0 →
  length (outputs psbtx) < length (CMutableTransaction.vout tx0) →
  FillPSBTOutputsData pwallet psbtx bip32derivs = OutOfRange.
Proof.
  intros Htx Hlt. unfold FillPSBTOutputsData. rewrite Htx. simpl.
  replace (length (CMutableTransaction.vout tx0))
    with (length (outputs psbtx)
          + Datatypes.S (length (CMutableTransaction.vout tx0)
                         - length (outputs psbtx) - 1)) by lia.
  rewrite for_loop_split, fill_outputs_prefix by lia. simpl.
  destruct (lookup_lt_is_Some_2 (CMutableTransaction.vout tx0)
              (length (outputs psbtx)) Hlt) as [out Hout].
  unfold FillPSBTOutputsData_body, vec_at. rewrite Hout. simpl.
  rewrite lookup_ge_None_2; [done|]. by rewrite stuff_prefix_length by lia.
Qed.

End OutputFiller.

Section Compositions.

Context `{Collaborators}.

Import PartiallySignedTransaction.

(** The ways [SignPSBT] returns when the balance check is waived. *)
Lemma SignPSBT_waived_inv pwallet (p : PSBT) sighash_type sign te complete p' :
  SignPSBT pwallet p sighash_type sign true = Normal (te, complete, p') →
  (te = BLINDING_REQUIRED ∧ complete = false ∧ p' = p)
  ∨ (te = SIGHASH_MISMATCH ∧ complete = false
     ∧ ∃ tx0, tx p = Some tx0 ∧ tx p' = Some (stuffed (outputs p) tx0)
              ∧ outputs p' = outputs p)
  ∨ (te = OK ∧ tx p' = tx p ∧ outputs p' = outputs p).
Proof.
  intros Hrun.
  destruct (SignPSBT_Normal_inv _ _ _ _ _ _ _ _ Hrun)
    as [(_ & -> & -> & ->)|(tx0 & _ & Htx & _ & [Hbal|[_ (c & Hloop & Hc)]])].
  - by left.
  - by destruct Hbal.
  - right. apply sign_loop_frame in Hloop. destruct c as [[q b]|r [q b]].
    + right. destruct Hc as (-> & _ & ->). destruct Hloop as [_ Hout].
      simpl in *. by rewrite Htx.
    + left. destruct Hc as (-> & -> & ->).
      destruct Hloop as (-> & -> & Htxq & Houtq). simpl in *.
      split; [done|]. split; [done|]. by exists tx0.
Qed.

(** The three ways out of [FillPSBT]. *)
Lemma FillPSBT_Normal_inv pwallet (p : PSBT) sighash_type sign b te complete p' :
  FillPSBT pwallet p sighash_type sign b = Normal (te, complete, p') →
  (te = INVALID_PSBT ∧ complete = false
   ∧ FillPSBTInputsData pwallet p b = Normal (te, p'))
  ∨ ∃ filled,
      FillPSBTInputsData pwallet p b = Normal (OK, filled)
      ∧ ((te ≠ OK
          ∧ SignPSBT pwallet filled sighash_type sign true
            = Normal (te, complete, p'))
         ∨ ∃ signed,
             te = OK
             ∧ SignPSBT pwallet filled sighash_type sign true
               = Normal (OK, complete, signed)
             ∧ FillPSBTOutputsData pwallet signed b = Normal p').
Proof.
  unfold FillPSBT. intros Hrun. bind_inv Hrun. destruct a as [te1 filled].
  destruct (FillPSBTInputsData_Normal_inv _ _ _ _ _ Ha) as ([->| ->] & _).
  - right. exists filled. split; [done|]. simpl in Hrun.
    bind_inv Hrun. destruct a as [[te2 c2] signed].
    case_bool_decide as Hte.
    + left. by inversion Hrun; subst.
    + right. assert (te2 = OK) as -> by (destruct te2; done || by destruct Hte).
      bind_inv Hrun. inversion Hrun; subst. by exists signed.
  - left. simpl in Hrun. by inversion Hrun; subst.
Qed.

Lemma FillPSBTOutputsData_total pwallet (p : PSBT) b tx0 :
  tx p = Some tx0 →
  length (CMutableTransaction.vout tx0) ≤ length (outputs p) →
  ∃ p', FillPSBTOutputsData pwallet p b = Normal p'.
Proof.
  intros Htx Hlen. unfold FillPSBTOutputsData. rewrite Htx. simpl.
  rewrite fill_outputs_prefix by lia. simpl. by eexists.
Qed.

(** X17.  [FillPSBT] returns [OK], [INVALID_PSBT], [BLINDING_REQUIRED] or
    [SIGHASH_MISMATCH], never a code of the balance check, and [complete] is
    false unless the code is [OK]. *)
Theorem FillPSBT_codes (pwallet : CWallet.t) (psbtx : PSBT) (sighash_type : Z)
    (sign bip32derivs : bool) (te : TransactionError) (complete : bool)
    (psbtx' : PSBT) :
  FillPSBT pwallet psbtx sighash_type sign bip32derivs
    = Normal (te, complete, psbtx') →
  (te = OK ∨ te = INVALID_PSBT ∨ te = BLINDING_REQUIRED ∨ te = SIGHASH_MISMATCH)
  ∧ (te ≠ OK → complete = false).
Proof.
  intros Hrun.
  destruct (FillPSBT_Normal_inv _ _ _ _ _ _ _ _ Hrun)
    as [(-> & -> & _)|(filled & _ & [[Hte Hsign]|(signed & -> & _)])].
  - tauto.
  - destruct (SignPSBT_waived_inv _ _ _ _ _ _ _ Hsign)
      as [(-> & -> & _)|[(-> & -> & _)|(-> & _)]]; tauto.
  - tauto.
Qed.

(** X18.  The skeleton after [FillPSBT]: the one it was given, unless the
    code is [SIGHASH_MISMATCH], in which case it is the materialized one.
    Unless the code is [OK], the output side-records are the ones it was
    given. *)
Theorem FillPSBT_skeleton (pwallet : CWallet.t) (psbtx : PSBT) (sighash_type : Z)
    (sign bip32derivs : bool) (te : TransactionError) (complete : bool)
    (psbtx' : PSBT) :
  FillPSBT pwallet psbtx sighash_type sign bip32derivs
    = Normal (te, complete, psbtx') →
  (te ≠ SIGHASH_MISMATCH → tx psbtx' = tx psbtx)
  ∧ (te = SIGHASH_MISMATCH →
     ∃ tx0, tx psbtx = Some tx0
            ∧ tx psbtx' = Some (stuffed (outputs psbtx) tx0))
  ∧ (te ≠ OK → outputs psbtx' = outputs psbtx).
Proof.
  intros Hrun.
  destruct (FillPSBT_Normal_inv _ _ _ _ _ _ _ _ Hrun)
    as [(-> & -> & Hfill)|(filled & Hfill & [[Hte Hsign]|(signed & -> & Hsign & Hout)])];
    destruct (FillPSBTInputsData_Normal_inv _ _ _ _ _ Hfill) as (_ & Htxf & Houtf).
  - done.
  - destruct (SignPSBT_waived_inv _ _ _ _ _ _ _ Hsign)
      as [(-> & _ & ->)|[(-> & _ & tx0 & Htx0 & Htx' & Hout')|(-> & _)]];
      [done| |done].
    split; [done|]. split; [|congruence].
    intros _. exists tx0. split; congruence.
  - destruct (SignPSBT_waived_inv _ _ _ _ _ _ _ Hsign)
      as [(? & _)|[(? & _)|(_ & Htxs & Houts)]]; [done..|].
    destruct (FillPSBTOutputsData_Normal_inv _ _ _ _ Hout) as (Htx' & _).
    split; [intros _; congruence|]. done.
Qed.

(** X19.  [FillPSBT] does not succeed while an output still has a valid
    blinding public key: when it returns, the code is [INVALID_PSBT] or
    [BLINDING_REQUIRED], [complete] is false, and the skeleton and the
    output side-records are untouched. *)
Theorem FillPSBT_unblinded_output (pwallet : CWallet.t) (psbtx : PSBT)
    (sighash_type : Z) (sign bip32derivs : bool) (i : nat) (o : PSBTOutput.t)
    (te : TransactionError) (complete : bool) (psbtx' : PSBT) :
  outputs psbtx !! i = Some o →
  CPubKey_IsValid (PSBTOutput.blinding_pubkey o) = true →
  FillPSBT pwallet psbtx sighash_type sign bip32derivs
    = Normal (te, complete, psbtx') →
  (te = INVALID_PSBT ∨ te = BLINDING_REQUIRED) ∧ complete = false
  ∧ tx psbtx' = tx psbtx ∧ outputs psbtx' = outputs psbtx.
Proof.
  intros Hi Hvalid Hrun.
  assert (Hblind : ∀ filled, outputs filled = outputs psbtx →
            SignPSBT pwallet filled sighash_type sign true
            = Normal (BLINDING_REQUIRED, false, filled)).
  { intros filled Hout. unfold SignPSBT.
    rewrite (blinding_pubkey_valid_elem _ o); [done| |done].
    rewrite Hout. by eapply list_elem_of_lookup_2. }
  destruct (FillPSBT_Normal_inv _ _ _ _ _ _ _ _ Hrun)
    as [(-> & -> & Hfill)|(filled & Hfill & [[Hte Hsign]|(signed & -> & Hsign & Hout)])];
    destruct (FillPSBTInputsData_Normal_inv _ _ _ _ _ Hfill) as (_ & Htxf & Houtf).
  - tauto.
  - rewrite (Hblind filled Houtf) in Hsign. inversion Hsign; subst. tauto.
  - rewrite (Hblind filled Houtf) in Hsign. done.
Qed.

(** X20.  On a well-formed PSBT, with a [SignPSBTInput] that keeps its
    contract, [FillPSBTData] returns with [OK] or [INVALID_PSBT]; the PSBT
    it leaves is well-formed with the same skeleton, and on [INVALID_PSBT]
    the output side-records are untouched (the Output Filler did not
    run). *)
Theorem FillPSBTData_returns (pwallet : CWallet.t) (psbtx : PSBT)
    (bip32derivs : bool) :
  SignPSBTInput_returns → SignPSBTInput_frame → well_formed psbtx →
  ∃ te psbtx',
    FillPSBTData pwallet psbtx bip32derivs = Normal (te, psbtx')
    ∧ (te = OK ∨ te = INVALID_PSBT)
    ∧ well_formed psbtx' ∧ tx psbtx' = tx psbtx
    ∧ (te = INVALID_PSBT → outputs psbtx' = outputs psbtx).
Proof.
  intros Hret Hframe Hwf. pose proof Hwf as Hwf0. unfold well_formed in Hwf.
  destruct (tx psbtx) as [tx0|] eqn:Htx; [|done]. destruct Hwf as [Hin Hout].
  destruct (FillPSBTInputsData_total pwallet psbtx bip32derivs tx0 Hret Hframe
              Htx Hin) as (te & p1 & j & Hrun & Hfilled & Hte).
  destruct Hfilled as (Htx1 & Hout1 & Hlen1 & _).
  unfold FillPSBTData. rewrite Hrun. simpl.
  destruct Hte as [[-> _]| ->]; simpl.
  - destruct (FillPSBTOutputsData_total pwallet p1 bip32derivs tx0)
      as [p2 Hp2]; [congruence|rewrite Hout1; lia|].
    rewrite Hp2. simpl.
    destruct (FillPSBTOutputsData_Normal_inv _ _ _ _ Hp2) as (Htx2 & Hin2 & Hlen2).
    exists OK, p2. split; [done|]. split; [by left|]. split.
    + unfold well_formed. rewrite Htx2, Htx1, Htx, Hin2, Hlen1, Hlen2, Hout1. done.
    + split; [congruence|done].
  - exists INVALID_PSBT, p1. split; [done|]. split; [by right|]. split.
    + unfold well_formed. rewrite Htx1, Htx, Hlen1, Hout1. by split.
    + split; [congruence|done].
Qed.

End Compositions.

(** ** Runs on the sample wallet *)

#[local] Existing Instance Sample.wallet.

Lemma SignPSBT_ok_restores_skeleton_witness :
  SignPSBT Sample.pwallet Sample.psbt0 1 true false
    = Normal (OK, true,
              PartiallySignedTransaction.set_inputs [Sample.signed Sample.input0]
                Sample.psbt0)
  ∧ materialize (PartiallySignedTransaction.outputs Sample.psbt0) Sample.skeleton
    ≠ Normal Sample.skeleton
  ∧ PartiallySignedTransaction.tx
      (PartiallySignedTransaction.set_inputs [Sample.signed Sample.input0] Sample.psbt0)
    = PartiallySignedTransaction.tx Sample.psbt0
  ∧ PartiallySignedTransaction.outputs
      (PartiallySignedTransaction.set_inputs [Sample.signed Sample.input0] Sample.psbt0)
    = PartiallySignedTransaction.outputs Sample.psbt0.
Proof.
  assert (Hrun : SignPSBT Sample.pwallet Sample.psbt0 1 true false
    = Normal (OK, true,
              PartiallySignedTransaction.set_inputs [Sample.signed Sample.input0]
                Sample.psbt0)) by (vm_compute; reflexivity).
  split; [exact Hrun|]. split; [vm_compute; discriminate|].
  exact (SignPSBT_ok_restores_skeleton _ _ _ _ _ _ _ Hrun).
Defined.

Lemma SignPSBT_blinding_required_witness :
  PartiallySignedTransaction.outputs Sample.psbt_unblinded !! 0
    = Some Sample.output_unblinded
  ∧ CPubKey_IsValid (PSBTOutput.blinding_pubkey Sample.output_unblinded) = true
  ∧ SignPSBT Sample.pwallet Sample.psbt_unblinded 1 true false
    = Normal (BLINDING_REQUIRED, false, Sample.psbt_unblinded).
Proof.
  split; [reflexivity|]. split; [reflexivity|].
  apply (SignPSBT_blinding_required _ _ _ _ _ 0 Sample.output_unblinded);
    reflexivity.
Defined.

Lemma SignPSBT_error_not_complete_witness :
  SignPSBT Sample.pwallet Sample.psbt2 1 true true
    = Normal (SIGHASH_MISMATCH, false,
              PartiallySignedTransaction.mk (Some Sample.skeleton2_stuffed)
                [Sample.signed Sample.input0; Sample.input_none] [Sample.output0])
  ∧ SIGHASH_MISMATCH ≠ OK
  ∧ false = false.
Proof.
  assert (Hrun : SignPSBT Sample.pwallet Sample.psbt2 1 true true
    = Normal (SIGHASH_MISMATCH, false,
              PartiallySignedTransaction.mk (Some Sample.skeleton2_stuffed)
                [Sample.signed Sample.input0; Sample.input_none] [Sample.output0]))
    by (vm_compute; reflexivity).
  split; [exact Hrun|]. split; [discriminate|].
  exact (SignPSBT_error_not_complete _ _ _ _ _ _ _ _ Hrun ltac:(discriminate)).
Defined.

(** The sample [SignPSBTInput] keeps the contract. *)

Lemma sample_SignPSBTInput_returns : SignPSBTInput_returns.
Proof.
  intros p psbt i s Hi. simpl. unfold Sample.sign_input, vec_at.
  destruct (lookup_lt_is_Some_2 _ _ Hi) as [input ->]. simpl.
  repeat case_match; eauto.
Qed.

Lemma sample_SignPSBTInput_frame : SignPSBTInput_frame.
Proof.
  intros p psbt i s ok inputs' Hs. simpl in Hs. unfold Sample.sign_input in Hs.
  bind_inv Hs. apply vec_at_Normal in Ha.
  repeat case_match; inversion Hs; subst;
    solve [ exists a; symmetry; by apply list_insert_id | eauto ].
Qed.

Lemma sample_SignPSBTInput_keeps_value : SignPSBTInput_keeps_value.
Proof.
  intros p psbt i s ok inputs' input input' Hs Hin Hout.
  simpl in Hs. unfold Sample.sign_input in Hs.
  bind_inv Hs. apply vec_at_Normal in Ha. rewrite Hin in Ha. inversion Ha; subst a.
  repeat case_match; inversion Hs; subst; try congruence.
  rewrite list_lookup_insert_eq in Hout by (by eapply lookup_lt_Some).
  by inversion Hout.
Qed.

Lemma SignPSBT_sighash_mismatch_witness :
  SignPSBTInput_returns ∧ SignPSBTInput_frame
  ∧ well_formed Sample.psbt2 ∧ checks_pass Sample.psbt2 true
  ∧ PartiallySignedTransaction.inputs Sample.psbt2 !! 1 = Some Sample.input_none
  ∧ sighash_differs 1 Sample.input_none = true
  ∧ ∃ k inp_k tx0 psbtx' complete,
      SignPSBT Sample.pwallet Sample.psbt2 1 true true
        = Normal (SIGHASH_MISMATCH, false, psbtx')
      ∧ PartiallySignedTransaction.inputs Sample.psbt2 !! k = Some inp_k
      ∧ sighash_differs 1 inp_k = true
      ∧ (∀ m z, m < k → PartiallySignedTransaction.inputs Sample.psbt2 !! m = Some z →
           sighash_differs 1 z = false)
      ∧ PartiallySignedTransaction.tx Sample.psbt2 = Some tx0
      ∧ for_loop (sign_body Sample.pwallet 1 true) k 0
          (PartiallySignedTransaction.set_tx
             (Some (stuffed (PartiallySignedTransaction.outputs Sample.psbt2) tx0))
             Sample.psbt2, true)
        = Normal (Next (psbtx', complete))
      ∧ ∀ m, k ≤ m →
          PartiallySignedTransaction.inputs psbtx' !! m
          = PartiallySignedTransaction.inputs Sample.psbt2 !! m.
Proof.
  assert (Hwf : well_formed Sample.psbt2) by (simpl; split; reflexivity).
  assert (Hpass : checks_pass Sample.psbt2 true)
    by (split; [reflexivity|left; reflexivity]).
  repeat (split; [first [exact sample_SignPSBTInput_returns
                        |exact sample_SignPSBTInput_frame
                        |exact Hwf|exact Hpass|reflexivity]|]).
  exact (SignPSBT_sighash_mismatch Sample.pwallet Sample.psbt2 1 true 1
           Sample.input_none sample_SignPSBTInput_returns
           sample_SignPSBTInput_frame Hwf Hpass eq_refl eq_refl).
Defined.

(** C3 as stated fails: an input has a differing sighash mode and signing is
    requested, yet the call stops at the blinding check. *)
Lemma SignPSBT_sighash_mismatch_counterexample :
  PartiallySignedTransaction.inputs Sample.psbt2_unblinded !! 1
    = Some Sample.input_none
  ∧ sighash_differs 1 Sample.input_none = true
  ∧ SignPSBT Sample.pwallet Sample.psbt2_unblinded 1 true true
    = Normal (BLINDING_REQUIRED, false, Sample.psbt2_unblinded)
  ∧ BLINDING_REQUIRED ≠ SIGHASH_MISMATCH.
Proof. repeat split; try reflexivity. discriminate. Qed.

Lemma SignPSBT_mismatch_leaves_stuffed_tx_witness :
  SignPSBT Sample.pwallet Sample.psbt2 1 true true
    = Normal (SIGHASH_MISMATCH, false,
              PartiallySignedTransaction.mk (Some Sample.skeleton2_stuffed)
                [Sample.signed Sample.input0; Sample.input_none] [Sample.output0])
  ∧ ∃ tx0 tx',
      PartiallySignedTransaction.tx Sample.psbt2 = Some tx0
      ∧ materialize (PartiallySignedTransaction.outputs Sample.psbt2) tx0 = Normal tx'
      ∧ Some Sample.skeleton2_stuffed = Some tx'
      ∧ length (CTxWitness.vtxoutwit (CMutableTransaction.witness tx'))
        = length (CMutableTransaction.vout tx0)
      ∧ ∀ i output,
          PartiallySignedTransaction.outputs Sample.psbt2 !! i = Some output →
          i < length (CMutableTransaction.vout tx0) →
          ∃ out outwit,
            CMutableTransaction.vout tx' !! i = Some out
            ∧ CTxWitness.vtxoutwit (CMutableTransaction.witness tx') !! i = Some outwit
            ∧ carries output out outwit.
Proof.
  assert (Hrun : SignPSBT Sample.pwallet Sample.psbt2 1 true true
    = Normal (SIGHASH_MISMATCH, false,
              PartiallySignedTransaction.mk (Some Sample.skeleton2_stuffed)
                [Sample.signed Sample.input0; Sample.input_none] [Sample.output0]))
    by (vm_compute; reflexivity).
  split; [exact Hrun|].
  exact (SignPSBT_mismatch_leaves_stuffed_tx _ _ _ _ _ _ _ Hrun).
Defined.

Lemma SignPSBT_utxos_missing_witness :
  SignPSBT Sample.pwallet Sample.psbt_missing 1 true false
    = Normal (UTXOS_MISSING_BALANCE_CHECK, false,
              PartiallySignedTransaction.set_tx
                (Some (stuffed [Sample.output0] Sample.skeleton2))
                Sample.psbt_missing)
  ∧ stuffed [Sample.output0] Sample.skeleton2 = Sample.skeleton2_stuffed
  ∧ UTXOS_MISSING_BALANCE_CHECK ≠ VALUE_IMBALANCE
  ∧ SignPSBT Sample.pwallet Sample.psbt_unbalanced 1 true false
    = Normal (VALUE_IMBALANCE, false,
              PartiallySignedTransaction.set_tx
                (Some (stuffed [Sample.output0] Sample.skeleton_unbalanced))
                Sample.psbt_unbalanced)
  ∧ ∀ j inp,
      PartiallySignedTransaction.inputs Sample.psbt_unbalanced !! j = Some inp →
      PSBTInput.non_witness_utxo inp ≠ None
      ∨ CTxOut_IsNull (PSBTInput.witness_utxo inp) = false.
Proof.
  assert (Hmissing : SignPSBT Sample.pwallet Sample.psbt_missing 1 true false
    = Normal (UTXOS_MISSING_BALANCE_CHECK, false,
              PartiallySignedTransaction.set_tx
                (Some (stuffed [Sample.output0] Sample.skeleton2))
                Sample.psbt_missing)).
  { apply (proj1 (SignPSBT_utxos_missing Sample.pwallet Sample.psbt_missing 1 true)
             Sample.skeleton2 1 Sample.input_missing); try reflexivity.
    - simpl. split; reflexivity.
    - intros j Hj. assert (j = 0) as -> by lia.
      exists Sample.prev_out. intros acc. reflexivity. }
  assert (Hrun : SignPSBT Sample.pwallet Sample.psbt_unbalanced 1 true false
    = Normal (VALUE_IMBALANCE, false,
              PartiallySignedTransaction.set_tx
                (Some (stuffed [Sample.output0] Sample.skeleton_unbalanced))
                Sample.psbt_unbalanced)) by (vm_compute; reflexivity).
  split; [exact Hmissing|]. split; [reflexivity|]. split.
  - exact (proj1 (proj2 (SignPSBT_utxos_missing Sample.pwallet Sample.psbt_missing
                           1 true)) _ _ _ 1 Sample.input_missing Hmissing
             eq_refl eq_refl eq_refl).
  - split; [exact Hrun|].
    exact (proj1 (proj2 (proj2 (proj2 (SignPSBT_utxos_missing Sample.pwallet
                                          Sample.psbt_unbalanced 1 true))
                           _ _ _ Hrun))).
Defined.

(** C4 as stated fails: an input has neither form of its UTXO and the
    balance check is requested, yet the code returned is that of the input
    before it, whose previous transaction has the wrong hash. *)
Lemma SignPSBT_utxos_missing_counterexample :
  PartiallySignedTransaction.inputs Sample.psbt_stray_missing !! 1
    = Some Sample.input_missing
  ∧ PSBTInput.non_witness_utxo Sample.input_missing = None
  ∧ CTxOut_IsNull (PSBTInput.witness_utxo Sample.input_missing) = true
  ∧ SignPSBT Sample.pwallet Sample.psbt_stray_missing 1 true false
    = Normal (INVALID_PSBT, false,
              PartiallySignedTransaction.mk (Some Sample.skeleton2_stuffed)
                [Sample.input_stray; Sample.input_missing] [Sample.output0])
  ∧ INVALID_PSBT ≠ UTXOS_MISSING_BALANCE_CHECK.
Proof. repeat split; try reflexivity. discriminate. Qed.

Lemma SignPSBT_inconsistent_utxo_witness :
  well_formed Sample.psbt_both
  ∧ blinding_pubkey_valid (PartiallySignedTransaction.outputs Sample.psbt_both) = false
  ∧ PSBTInput.non_witness_utxo Sample.input_both = Some Sample.prev_tx
  ∧ CTxOut_IsNull (PSBTInput.witness_utxo Sample.input_both) = false
  ∧ CTransaction.vout Sample.prev_tx !! 0 = Some Sample.prev_out
  ∧ Sample.prev_out ≠ PSBTInput.witness_utxo Sample.input_both
  ∧ ∃ psbtx',
      SignPSBT Sample.pwallet Sample.psbt_both 1 true false
        = Normal (INVALID_PSBT, false, psbtx')
      ∧ PartiallySignedTransaction.inputs psbtx'
        = PartiallySignedTransaction.inputs Sample.psbt_both.
Proof.
  assert (Hwf : well_formed Sample.psbt_both) by (simpl; split; reflexivity).
  assert (Hne : Sample.prev_out ≠ PSBTInput.witness_utxo Sample.input_both)
    by discriminate.
  repeat (split; [first [exact Hwf|exact Hne|reflexivity]|]).
  apply (SignPSBT_inconsistent_utxo Sample.pwallet Sample.psbt_both 1 true
           Sample.skeleton 0 Sample.input_both Sample.prev_tx Sample.txin0);
    try reflexivity; try exact Hwf.
  - right. exists Sample.prev_out. split; [reflexivity|exact Hne].
  - intros j Hj. lia.
Defined.

(** C5 as stated fails: the two forms of the UTXO are at odds, yet with the
    balance check waived the call returns [OK]. *)
Lemma SignPSBT_inconsistent_utxo_counterexample :
  PartiallySignedTransaction.inputs Sample.psbt_both !! 0 = Some Sample.input_both
  ∧ PSBTInput.non_witness_utxo Sample.input_both = Some Sample.prev_tx
  ∧ CTxOut_IsNull (PSBTInput.witness_utxo Sample.input_both) = false
  ∧ CTransaction.vout Sample.prev_tx !! 0 = Some Sample.prev_out
  ∧ Sample.prev_out ≠ PSBTInput.witness_utxo Sample.input_both
  ∧ SignPSBT Sample.pwallet Sample.psbt_both 1 true true
    = Normal (OK, false, Sample.psbt_both)
  ∧ OK ≠ INVALID_PSBT.
Proof. repeat split; try reflexivity; discriminate. Qed.

Lemma FillPSBTInputsData_skips_signed_witness :
  SignPSBTInput_returns ∧ SignPSBTInput_frame ∧ well_formed Sample.psbt_half
  ∧ FillPSBTInputsData Sample.pwallet Sample.psbt_half true
    = Normal (OK, PartiallySignedTransaction.set_inputs
                    [Sample.signed Sample.input0; Sample.input0_filled]
                    Sample.psbt_half)
  ∧ PSBTInputSigned (Sample.signed Sample.input0) = true
  ∧ ∃ te psbtx',
      FillPSBTInputsData Sample.pwallet Sample.psbt_half true = Normal (te, psbtx')
      ∧ well_formed psbtx'
      ∧ ∀ i input,
          PartiallySignedTransaction.inputs Sample.psbt_half !! i = Some input →
          PSBTInputSigned input = true →
          PartiallySignedTransaction.inputs psbtx' !! i = Some input.
Proof.
  assert (Hwf : well_formed Sample.psbt_half) by (simpl; split; reflexivity).
  split; [exact sample_SignPSBTInput_returns|].
  split; [exact sample_SignPSBTInput_frame|].
  split; [exact Hwf|]. split; [vm_compute; reflexivity|]. split; [reflexivity|].
  exact (FillPSBTInputsData_skips_signed Sample.pwallet Sample.psbt_half true
           sample_SignPSBTInput_returns sample_SignPSBTInput_frame Hwf).
Defined.

Lemma FillPSBTInputsData_unknown_value_witness :
  SignPSBTInput_returns ∧ SignPSBTInput_frame ∧ SignPSBTInput_keeps_value
  ∧ well_formed Sample.psbt_hidden
  ∧ CWallet.mapWallet Sample.pwallet2
      !! COutPoint.hash (CTxIn.prevout Sample.txin_hidden)
    = Some (CWalletTx.mk Sample.hidden_tx)
  ∧ provider_value (CWalletTx.mk Sample.hidden_tx) Sample.txin_hidden
      Sample.input_hidden = (-1)%Z
  ∧ PSBTInput.value Sample.input_hidden = Some 5%Z
  ∧ FillPSBTInputsData Sample.pwallet2 Sample.psbt_hidden true
    = Normal (OK, PartiallySignedTransaction.set_inputs
                    [Sample.input_hidden; Sample.input0_filled] Sample.psbt_hidden)
  ∧ ∃ te psbtx' input',
      FillPSBTInputsData Sample.pwallet2 Sample.psbt_hidden true = Normal (te, psbtx')
      ∧ PartiallySignedTransaction.inputs psbtx' !! 0 = Some input'
      ∧ (provider_value (CWalletTx.mk Sample.hidden_tx) Sample.txin_hidden
           Sample.input_hidden = (-1)%Z →
         PSBTInput.value input' = PSBTInput.value Sample.input_hidden)
      ∧ (te = OK → PSBTInputSigned Sample.input_hidden = false →
         provider_value (CWalletTx.mk Sample.hidden_tx) Sample.txin_hidden
           Sample.input_hidden ≠ (-1)%Z →
         PSBTInput.value input'
         = Some (provider_value (CWalletTx.mk Sample.hidden_tx) Sample.txin_hidden
                   Sample.input_hidden)).
Proof.
  assert (Hwf : well_formed Sample.psbt_hidden) by (simpl; split; reflexivity).
  assert (Hwtx : CWallet.mapWallet Sample.pwallet2
                   !! COutPoint.hash (CTxIn.prevout Sample.txin_hidden)
                 = Some (CWalletTx.mk Sample.hidden_tx))
    by (vm_compute; reflexivity).
  split; [exact sample_SignPSBTInput_returns|].
  split; [exact sample_SignPSBTInput_frame|].
  split; [exact sample_SignPSBTInput_keeps_value|].
  split; [exact Hwf|]. split; [exact Hwtx|].
  split; [reflexivity|]. split; [reflexivity|]. split; [vm_compute; reflexivity|].
  exact (FillPSBTInputsData_unknown_value Sample.pwallet2 Sample.psbt_hidden true
           Sample.skeleton_hidden 0 Sample.txin_hidden Sample.input_hidden
           (CWalletTx.mk Sample.hidden_tx) sample_SignPSBTInput_returns
           sample_SignPSBTInput_frame sample_SignPSBTInput_keeps_value Hwf
           eq_refl eq_refl eq_refl Hwtx).
Defined.

(** The three ways out of [FillPSBT]: the Input Filler rejects an input that
    carries both forms of its UTXO; the Signer stops at an output waiting to
    be blinded; all three steps run. *)
Lemma FillPSBT_short_circuits_witness :
  FillPSBT Sample.pwallet Sample.psbt_both 1 true true
    = Normal (INVALID_PSBT, false, Sample.psbt_both)
  ∧ (∃ filled,
       FillPSBTInputsData Sample.pwallet Sample.psbt_unblinded true
         = Normal (OK, filled)
       ∧ FillPSBT Sample.pwallet Sample.psbt_unblinded 1 true true
         = Normal (BLINDING_REQUIRED, false, filled))
  ∧ ∃ filled signed done,
      FillPSBTInputsData Sample.pwallet Sample.psbt0 true = Normal (OK, filled)
      ∧ SignPSBT Sample.pwallet filled 1 true true = Normal (OK, true, signed)
      ∧ FillPSBTOutputsData Sample.pwallet signed true = Normal done
      ∧ FillPSBT Sample.pwallet Sample.psbt0 1 true true = Normal (OK, true, done).
Proof.
  split; [|split].
  - apply (proj1 (proj2 (FillPSBT_short_circuits Sample.pwallet Sample.psbt_both
                           1 true true)));
      [vm_compute; reflexivity|discriminate].
  - eexists. split; [vm_compute; reflexivity|].
    eapply (proj1 (proj2 (proj2 (FillPSBT_short_circuits Sample.pwallet
                                   Sample.psbt_unblinded 1 true true))));
      [vm_compute; reflexivity|vm_compute; reflexivity|discriminate].
  - eexists _, _, _.
    split; [vm_compute; reflexivity|].
    split; [vm_compute; reflexivity|].
    split; [vm_compute; reflexivity|].
    eapply (proj2 (proj2 (proj2 (FillPSBT_short_circuits Sample.pwallet
                                   Sample.psbt0 1 true true))));
      vm_compute; reflexivity.
Defined.

(** *** Runs for the further properties of the Signer *)

Lemma SignPSBT_balance_error_leaves_stuffed_tx_witness :
  SignPSBT Sample.pwallet Sample.psbt_stray_missing 1 true false
    = Normal (INVALID_PSBT, false,
              PartiallySignedTransaction.mk (Some Sample.skeleton2_stuffed)
                [Sample.input_stray; Sample.input_missing] [Sample.output0])
  ∧ Sample.skeleton2_stuffed ≠ Sample.skeleton2
  ∧ ∃ tx0,
      PartiallySignedTransaction.tx Sample.psbt_stray_missing = Some tx0
      ∧ false = false ∧ false = false
      ∧ PartiallySignedTransaction.mk (Some Sample.skeleton2_stuffed)
          [Sample.input_stray; Sample.input_missing] [Sample.output0]
        = PartiallySignedTransaction.set_tx
            (Some (stuffed
                     (PartiallySignedTransaction.outputs Sample.psbt_stray_missing)
                     tx0))
            Sample.psbt_stray_missing.
Proof.
  assert (Hrun : SignPSBT Sample.pwallet Sample.psbt_stray_missing 1 true false
    = Normal (INVALID_PSBT, false,
              PartiallySignedTransaction.mk (Some Sample.skeleton2_stuffed)
                [Sample.input_stray; Sample.input_missing] [Sample.output0]))
    by (vm_compute; reflexivity).
  split; [exact Hrun|]. split; [discriminate|].
  exact (SignPSBT_balance_error_leaves_stuffed_tx _ _ _ _ _ _ _ _ Hrun
           (or_introl eq_refl)).
Defined.

Lemma SignPSBT_codes_by_flags_witness :
  SignPSBT Sample.pwallet Sample.psbt0 1 false true
    = Normal (OK, false, Sample.psbt0)
  ∧ (true = true → OK = OK ∨ OK = BLINDING_REQUIRED ∨ OK = SIGHASH_MISMATCH)
  ∧ (false = false → OK ≠ SIGHASH_MISMATCH).
Proof.
  assert (Hrun : SignPSBT Sample.pwallet Sample.psbt0 1 false true
    = Normal (OK, false, Sample.psbt0)) by (vm_compute; reflexivity).
  split; [exact Hrun|].
  exact (SignPSBT_codes_by_flags _ _ _ _ _ _ _ _ Hrun).
Defined.

Lemma SignPSBT_ok_without_mismatch_witness :
  SignPSBTInput_returns ∧ SignPSBTInput_frame
  ∧ well_formed Sample.psbt0 ∧ checks_pass Sample.psbt0 false
  ∧ (true = true → ∀ i inp,
       PartiallySignedTransaction.inputs Sample.psbt0 !! i = Some inp →
       sighash_differs 1 inp = false)
  ∧ ∃ complete psbtx',
      SignPSBT Sample.pwallet Sample.psbt0 1 true false
        = Normal (OK, complete, psbtx')
      ∧ PartiallySignedTransaction.tx psbtx'
        = PartiallySignedTransaction.tx Sample.psbt0
      ∧ PartiallySignedTransaction.outputs psbtx'
        = PartiallySignedTransaction.outputs Sample.psbt0
      ∧ length (PartiallySignedTransaction.inputs psbtx')
        = length (PartiallySignedTransaction.inputs Sample.psbt0).
Proof.
  assert (Hwf : well_formed Sample.psbt0) by (simpl; split; reflexivity).
  assert (Hpass : checks_pass Sample.psbt0 false).
  { split; [reflexivity|]. right. exists Sample.skeleton.
    split; [reflexivity|vm_compute; reflexivity]. }
  assert (Hsame : true = true → ∀ i inp,
            PartiallySignedTransaction.inputs Sample.psbt0 !! i = Some inp →
            sighash_differs 1 inp = false).
  { intros _ [|i] inp Hi; inversion Hi. reflexivity. }
  split; [exact sample_SignPSBTInput_returns|].
  split; [exact sample_SignPSBTInput_frame|].
  split; [exact Hwf|]. split; [exact Hpass|]. split; [exact Hsame|].
  exact (SignPSBT_ok_without_mismatch Sample.pwallet Sample.psbt0 1 true false
           sample_SignPSBTInput_returns sample_SignPSBTInput_frame Hwf Hpass Hsame).
Defined.

Lemma SignPSBT_no_inputs_witness :
  checks_pass Sample.psbt_empty false
  ∧ SignPSBT Sample.pwallet Sample.psbt_empty 1 true false
    = Normal (OK, true, Sample.psbt_empty).
Proof.
  assert (Hpass : checks_pass Sample.psbt_empty false).
  { split; [reflexivity|]. right. eexists.
    split; [reflexivity|vm_compute; reflexivity]. }
  split; [exact Hpass|].
  apply (SignPSBT_no_inputs Sample.pwallet Sample.psbt_empty 1 true false
           (CMutableTransaction.mk [] [] 2 0%N Sample.no_witness));
    [reflexivity|reflexivity|simpl; lia|exact Hpass].
Defined.

Lemma SignPSBT_retry_restores_stuffed_tx_witness :
  SignPSBT Sample.pwallet Sample.psbt2 1 true true
    = Normal (SIGHASH_MISMATCH, false,
              PartiallySignedTransaction.mk (Some Sample.skeleton2_stuffed)
                [Sample.signed Sample.input0; Sample.input_none] [Sample.output0])
  ∧ SignPSBT Sample.pwallet
      (PartiallySignedTransaction.mk (Some Sample.skeleton2_stuffed)
         [Sample.signed Sample.input0; Sample.input_none] [Sample.output0])
      2 true true
    = Normal (OK, true,
              PartiallySignedTransaction.mk (Some Sample.skeleton2_stuffed)
                [Sample.signed Sample.input0; Sample.signed Sample.input_none]
                [Sample.output0])
  ∧ Sample.skeleton2_stuffed ≠ Sample.skeleton2
  ∧ ∃ tx0,
      PartiallySignedTransaction.tx Sample.psbt2 = Some tx0
      ∧ Some Sample.skeleton2_stuffed
        = Some (stuffed (PartiallySignedTransaction.outputs Sample.psbt2) tx0)
      ∧ [Sample.output0] = PartiallySignedTransaction.outputs Sample.psbt2.
Proof.
  assert (Hrun1 : SignPSBT Sample.pwallet Sample.psbt2 1 true true
    = Normal (SIGHASH_MISMATCH, false,
              PartiallySignedTransaction.mk (Some Sample.skeleton2_stuffed)
                [Sample.signed Sample.input0; Sample.input_none] [Sample.output0]))
    by (vm_compute; reflexivity).
  assert (Hrun2 : SignPSBT Sample.pwallet
      (PartiallySignedTransaction.mk (Some Sample.skeleton2_stuffed)
         [Sample.signed Sample.input0; Sample.input_none] [Sample.output0])
      2 true true
    = Normal (OK, true,
              PartiallySignedTransaction.mk (Some Sample.skeleton2_stuffed)
                [Sample.signed Sample.input0; Sample.signed Sample.input_none]
                [Sample.output0])) by (vm_compute; reflexivity).
  split; [exact Hrun1|]. split; [exact Hrun2|]. split; [discriminate|].
  exact (SignPSBT_retry_restores_stuffed_tx _ _ _ _ _ _ _ _ _ _ _ _ _ Hrun1
           ltac:(discriminate) ltac:(discriminate) Hrun2).
Defined.

Lemma materialize_idempotent_witness :
  materialize [Sample.output0] Sample.skeleton2 = Normal Sample.skeleton2_stuffed
  ∧ materialize [Sample.output0] Sample.skeleton2_stuffed
    = Normal Sample.skeleton2_stuffed.
Proof.
  assert (Hrun : materialize [Sample.output0] Sample.skeleton2
                 = Normal Sample.skeleton2_stuffed) by (vm_compute; reflexivity).
  split; [exact Hrun|]. exact (materialize_idempotent _ _ _ Hrun).
Defined.

Lemma materialize_frame_witness :
  materialize [Sample.output0] Sample.skeleton2 = Normal Sample.skeleton2_stuffed
  ∧ CMutableTransaction.vin Sample.skeleton2_stuffed
    = CMutableTransaction.vin Sample.skeleton2
  ∧ CMutableTransaction.nVersion Sample.skeleton2_stuffed
    = CMutableTransaction.nVersion Sample.skeleton2
  ∧ CMutableTransaction.nLockTime Sample.skeleton2_stuffed
    = CMutableTransaction.nLockTime Sample.skeleton2
  ∧ CTxWitness.vtxinwit (CMutableTransaction.witness Sample.skeleton2_stuffed)
    = CTxWitness.vtxinwit (CMutableTransaction.witness Sample.skeleton2)
  ∧ length (CMutableTransaction.vout Sample.skeleton2_stuffed)
    = length (CMutableTransaction.vout Sample.skeleton2)
  ∧ (∀ i out output,
       CMutableTransaction.vout Sample.skeleton2 !! i = Some out →
       [Sample.output0] !! i = Some output →
       ∃ out',
         CMutableTransaction.vout Sample.skeleton2_stuffed !! i = Some out'
         ∧ CTxOut.scriptPubKey out' = CTxOut.scriptPubKey out
         ∧ (CConfidentialValue_IsNull (PSBTOutput.value_commitment output) = true →
            CTxOut.nValue out' = CTxOut.nValue out)
         ∧ (CConfidentialAsset_IsNull (PSBTOutput.asset_commitment output) = true →
            CTxOut.nAsset out' = CTxOut.nAsset out)
         ∧ (CConfidentialNonce_IsNull (PSBTOutput.nonce_commitment output) = true →
            CTxOut.nNonce out' = CTxOut.nNonce out))
  ∧ (∀ i outwit output,
       CTxWitness.vtxoutwit (CMutableTransaction.witness Sample.skeleton2) !! i
         = Some outwit →
       i < length (CMutableTransaction.vout Sample.skeleton2) →
       [Sample.output0] !! i = Some output →
       ∃ outwit',
         CTxWitness.vtxoutwit (CMutableTransaction.witness Sample.skeleton2_stuffed)
           !! i = Some outwit'
         ∧ (PSBTOutput.range_proof output = [] →
            CTxOutWitness.vchRangeproof outwit' = CTxOutWitness.vchRangeproof outwit)
         ∧ (PSBTOutput.surjection_proof output = [] →
            CTxOutWitness.vchSurjectionproof outwit'
            = CTxOutWitness.vchSurjectionproof outwit)).
Proof.
  assert (Hrun : materialize [Sample.output0] Sample.skeleton2
                 = Normal Sample.skeleton2_stuffed) by (vm_compute; reflexivity).
  split; [exact Hrun|]. exact (materialize_frame _ _ _ Hrun).
Defined.

Lemma SignPSBT_missing_output_record_witness :
  length (PartiallySignedTransaction.outputs Sample.psbt_no_output_record)
    < length (CMutableTransaction.vout Sample.skeleton)
  ∧ SignPSBT Sample.pwallet Sample.psbt_no_output_record 1 true false = OutOfRange.
Proof.
  split; [simpl; lia|].
  apply (SignPSBT_missing_output_record Sample.pwallet
           Sample.psbt_no_output_record 1 true false Sample.skeleton);
    [reflexivity|reflexivity|simpl; lia].
Defined.

Lemma SignPSBT_prevout_index_unchecked_witness :
  PSBTInput.non_witness_utxo Sample.input_far = Some Sample.prev_tx
  ∧ CTransaction.GetHash Sample.prev_tx
    = COutPoint.hash (CTxIn.prevout Sample.txin_far)
  ∧ length (CTransaction.vout Sample.prev_tx)
    ≤ N.to_nat (COutPoint.n (CTxIn.prevout Sample.txin_far))
  ∧ SignPSBT Sample.pwallet Sample.psbt_far 1 true false = Undefined.
Proof.
  assert (Hn : length (CTransaction.vout Sample.prev_tx)
               ≤ N.to_nat (COutPoint.n (CTxIn.prevout Sample.txin_far)))
    by (vm_compute; lia).
  split; [reflexivity|]. split; [reflexivity|]. split; [exact Hn|].
  eapply (SignPSBT_prevout_index_unchecked Sample.pwallet Sample.psbt_far 1 true
            _ 0 Sample.input_far Sample.prev_tx Sample.txin_far);
    [reflexivity|reflexivity|simpl; lia|reflexivity|reflexivity|reflexivity
    |reflexivity|exact Hn|intros j Hj; lia].
Defined.

Lemma SignPSBT_missing_input_record_witness :
  SignPSBTInput_returns ∧ SignPSBTInput_frame
  ∧ checks_pass Sample.psbt_short true
  ∧ length (PartiallySignedTransaction.inputs Sample.psbt_short)
    < length (CMutableTransaction.vin Sample.skeleton2)
  ∧ SignPSBT Sample.pwallet Sample.psbt_short 1 true true = Undefined.
Proof.
  assert (Hpass : checks_pass Sample.psbt_short true)
    by (split; [reflexivity|left; reflexivity]).
  split; [exact sample_SignPSBTInput_returns|].
  split; [exact sample_SignPSBTInput_frame|].
  split; [exact Hpass|]. split; [simpl; lia|].
  apply (SignPSBT_missing_input_record Sample.pwallet Sample.psbt_short 1 true
           Sample.skeleton2 sample_SignPSBTInput_returns
           sample_SignPSBTInput_frame eq_refl);
    [simpl; lia|exact Hpass|simpl; lia|].
  intros [|i] inp Hi; inversion Hi. reflexivity.
Defined.

(** *** Runs for the fillers and the compositions *)

Lemma FillPSBTInputsData_codes_and_frame_witness :
  FillPSBTInputsData Sample.pwallet Sample.psbt_late_insane true
    = Normal (INVALID_PSBT,
              PartiallySignedTransaction.set_inputs
                [Sample.input0_filled; Sample.input_both] Sample.psbt_late_insane)
  ∧ (INVALID_PSBT = OK ∨ INVALID_PSBT = INVALID_PSBT)
  ∧ PartiallySignedTransaction.tx
      (PartiallySignedTransaction.set_inputs
         [Sample.input0_filled; Sample.input_both] Sample.psbt_late_insane)
    = PartiallySignedTransaction.tx Sample.psbt_late_insane
  ∧ PartiallySignedTransaction.outputs
      (PartiallySignedTransaction.set_inputs
         [Sample.input0_filled; Sample.input_both] Sample.psbt_late_insane)
    = PartiallySignedTransaction.outputs Sample.psbt_late_insane
  ∧ (SignPSBTInput_frame →
     length (PartiallySignedTransaction.inputs
               (PartiallySignedTransaction.set_inputs
                  [Sample.input0_filled; Sample.input_both]
                  Sample.psbt_late_insane))
     = length (PartiallySignedTransaction.inputs Sample.psbt_late_insane)
     ∧ ∀ i input,
         PartiallySignedTransaction.inputs Sample.psbt_late_insane !! i
           = Some input →
         PSBTInputSigned input = true →
         PartiallySignedTransaction.inputs
           (PartiallySignedTransaction.set_inputs
              [Sample.input0_filled; Sample.input_both] Sample.psbt_late_insane)
           !! i = Some input).
Proof.
  assert (Hrun : FillPSBTInputsData Sample.pwallet Sample.psbt_late_insane true
    = Normal (INVALID_PSBT,
              PartiallySignedTransaction.set_inputs
                [Sample.input0_filled; Sample.input_both] Sample.psbt_late_insane))
    by (vm_compute; reflexivity).
  split; [exact Hrun|].
  exact (FillPSBTInputsData_codes_and_frame _ _ _ _ _ Hrun).
Defined.

Lemma FillPSBTInputsData_invalid_iff_witness :
  SignPSBTInput_returns ∧ SignPSBTInput_frame
  ∧ well_formed Sample.psbt_late_insane
  ∧ FillPSBTInputsData Sample.pwallet Sample.psbt_late_insane true
    = Normal (INVALID_PSBT,
              PartiallySignedTransaction.set_inputs
                [Sample.input0_filled; Sample.input_both] Sample.psbt_late_insane)
  ∧ ∃ te psbtx',
      FillPSBTInputsData Sample.pwallet Sample.psbt_late_insane true
        = Normal (te, psbtx')
      ∧ (te = OK ∨ te = INVALID_PSBT)
      ∧ (te = INVALID_PSBT ↔
         ∃ i input,
           PartiallySignedTransaction.inputs Sample.psbt_late_insane !! i
             = Some input
           ∧ PSBTInputSigned input = false ∧ PSBTInput_IsSane input = false)
      ∧ (te = INVALID_PSBT →
         ∃ k input tx0,
           PartiallySignedTransaction.tx Sample.psbt_late_insane = Some tx0
           ∧ PartiallySignedTransaction.inputs Sample.psbt_late_insane !! k
             = Some input
           ∧ PSBTInputSigned input = false ∧ PSBTInput_IsSane input = false
           ∧ (∀ m z, m < k →
                PartiallySignedTransaction.inputs Sample.psbt_late_insane !! m
                  = Some z →
                PSBTInputSigned z = true ∨ PSBTInput_IsSane z = true)
           ∧ filled_upto Sample.pwallet true tx0 Sample.psbt_late_insane k psbtx').
Proof.
  assert (Hwf : well_formed Sample.psbt_late_insane)
    by (simpl; split; reflexivity).
  split; [exact sample_SignPSBTInput_returns|].
  split; [exact sample_SignPSBTInput_frame|].
  split; [exact Hwf|]. split; [vm_compute; reflexivity|].
  exact (FillPSBTInputsData_invalid_iff Sample.pwallet Sample.psbt_late_insane
           true sample_SignPSBTInput_returns sample_SignPSBTInput_frame Hwf).
Defined.

Lemma FillPSBTInputsData_all_signed_witness :
  (∀ i input,
     PartiallySignedTransaction.inputs Sample.psbt_signed !! i = Some input →
     PSBTInputSigned input = true)
  ∧ FillPSBTInputsData Sample.pwallet Sample.psbt_signed true
    = Normal (OK, Sample.psbt_signed).
Proof.
  assert (Hsigned : ∀ i input,
            PartiallySignedTransaction.inputs Sample.psbt_signed !! i = Some input →
            PSBTInputSigned input = true).
  { intros [|i] input Hi; inversion Hi. reflexivity. }
  split; [exact Hsigned|].
  apply (FillPSBTInputsData_all_signed Sample.pwallet Sample.psbt_signed true
           Sample.skeleton); [reflexivity|simpl; lia|exact Hsigned].
Defined.

Lemma FillPSBTInputsData_missing_input_record_witness :
  SignPSBTInput_returns ∧ SignPSBTInput_frame
  ∧ length (PartiallySignedTransaction.inputs Sample.psbt_short)
    < length (CMutableTransaction.vin Sample.skeleton2)
  ∧ FillPSBTInputsData Sample.pwallet Sample.psbt_short true = OutOfRange.
Proof.
  split; [exact sample_SignPSBTInput_returns|].
  split; [exact sample_SignPSBTInput_frame|]. split; [simpl; lia|].
  apply (FillPSBTInputsData_missing_input_record Sample.pwallet Sample.psbt_short
           true Sample.skeleton2 sample_SignPSBTInput_returns
           sample_SignPSBTInput_frame eq_refl); [simpl; lia|].
  intros [|i] input Hi; inversion Hi. right. reflexivity.
Defined.

Lemma FillPSBTOutputsData_fills_each_output_witness :
  ∃ psbtx',
    FillPSBTOutputsData Sample.pwallet Sample.psbt0 true = Normal psbtx'
    ∧ PartiallySignedTransaction.tx psbtx'
      = PartiallySignedTransaction.tx Sample.psbt0
    ∧ PartiallySignedTransaction.inputs psbtx'
      = PartiallySignedTransaction.inputs Sample.psbt0
    ∧ length (PartiallySignedTransaction.outputs psbtx')
      = length (PartiallySignedTransaction.outputs Sample.psbt0)
    ∧ (∀ i out psbt_out,
         CMutableTransaction.vout Sample.skeleton !! i = Some out →
         PartiallySignedTransaction.outputs Sample.psbt0 !! i = Some psbt_out →
         PartiallySignedTransaction.outputs psbtx' !! i
         = Some (filled_output Sample.pwallet Sample.skeleton true out psbt_out))
    ∧ (∀ i, length (CMutableTransaction.vout Sample.skeleton) ≤ i →
         PartiallySignedTransaction.outputs psbtx' !! i
         = PartiallySignedTransaction.outputs Sample.psbt0 !! i).
Proof.
  apply (FillPSBTOutputsData_fills_each_output Sample.pwallet Sample.psbt0 true
           Sample.skeleton); [reflexivity|simpl; lia].
Defined.

Lemma FillPSBTOutputsData_missing_output_record_witness :
  length (PartiallySignedTransaction.outputs Sample.psbt_no_output_record)
    < length (CMutableTransaction.vout Sample.skeleton)
  ∧ FillPSBTOutputsData Sample.pwallet Sample.psbt_no_output_record true
    = OutOfRange.
Proof.
  split; [simpl; lia|].
  apply (FillPSBTOutputsData_missing_output_record Sample.pwallet
           Sample.psbt_no_output_record true Sample.skeleton);
    [reflexivity|simpl; lia].
Defined.

Lemma FillPSBT_codes_witness :
  ∃ psbtx',
    FillPSBT Sample.pwallet Sample.psbt2 1 true true
      = Normal (SIGHASH_MISMATCH, false, psbtx')
    ∧ (SIGHASH_MISMATCH = OK ∨ SIGHASH_MISMATCH = INVALID_PSBT
       ∨ SIGHASH_MISMATCH = BLINDING_REQUIRED
       ∨ SIGHASH_MISMATCH = SIGHASH_MISMATCH)
    ∧ (SIGHASH_MISMATCH ≠ OK → false = false).
Proof.
  assert (Hrun : { psbtx' | FillPSBT Sample.pwallet Sample.psbt2 1 true true
                            = Normal (SIGHASH_MISMATCH, false, psbtx') })
    by (eexists; vm_compute; reflexivity).
  destruct Hrun as [psbtx' Hrun]. exists psbtx'. split; [exact Hrun|].
  exact (FillPSBT_codes _ _ _ _ _ _ _ _ Hrun).
Defined.

Lemma FillPSBT_skeleton_witness :
  ∃ psbtx',
    FillPSBT Sample.pwallet Sample.psbt2 1 true true
      = Normal (SIGHASH_MISMATCH, false, psbtx')
    ∧ PartiallySignedTransaction.tx psbtx' = Some Sample.skeleton2_stuffed
    ∧ (SIGHASH_MISMATCH ≠ SIGHASH_MISMATCH →
       PartiallySignedTransaction.tx psbtx'
       = PartiallySignedTransaction.tx Sample.psbt2)
    ∧ (SIGHASH_MISMATCH = SIGHASH_MISMATCH →
       ∃ tx0, PartiallySignedTransaction.tx Sample.psbt2 = Some tx0
              ∧ PartiallySignedTransaction.tx psbtx'
                = Some (stuffed (PartiallySignedTransaction.outputs Sample.psbt2)
                          tx0))
    ∧ (SIGHASH_MISMATCH ≠ OK →
       PartiallySignedTransaction.outputs psbtx'
       = PartiallySignedTransaction.outputs Sample.psbt2).
Proof.
  assert (Hrun : { psbtx' | FillPSBT Sample.pwallet Sample.psbt2 1 true true
                            = Normal (SIGHASH_MISMATCH, false, psbtx')
                            ∧ PartiallySignedTransaction.tx psbtx'
                              = Some Sample.skeleton2_stuffed })
    by (eexists; split; vm_compute; reflexivity).
  destruct Hrun as [psbtx' [Hrun Htx]]. exists psbtx'.
  split; [exact Hrun|]. split; [exact Htx|].
  exact (FillPSBT_skeleton _ _ _ _ _ _ _ _ Hrun).
Defined.

Lemma FillPSBT_unblinded_output_witness :
  PartiallySignedTransaction.outputs Sample.psbt_unblinded !! 0
    = Some Sample.output_unblinded
  ∧ CPubKey_IsValid (PSBTOutput.blinding_pubkey Sample.output_unblinded) = true
  ∧ ∃ psbtx',
      FillPSBT Sample.pwallet Sample.psbt_unblinded 1 true true
        = Normal (BLINDING_REQUIRED, false, psbtx')
      ∧ PartiallySignedTransaction.inputs psbtx' = [Sample.input0_filled]
      ∧ (BLINDING_REQUIRED = INVALID_PSBT ∨ BLINDING_REQUIRED = BLINDING_REQUIRED)
      ∧ false = false
      ∧ PartiallySignedTransaction.tx psbtx'
        = PartiallySignedTransaction.tx Sample.psbt_unblinded
      ∧ PartiallySignedTransaction.outputs psbtx'
        = PartiallySignedTransaction.outputs Sample.psbt_unblinded.
Proof.
  split; [reflexivity|]. split; [reflexivity|].
  assert (Hrun : { psbtx' | FillPSBT Sample.pwallet Sample.psbt_unblinded 1 true true
                            = Normal (BLINDING_REQUIRED, false, psbtx')
                            ∧ PartiallySignedTransaction.inputs psbtx'
                              = [Sample.input0_filled] })
    by (eexists; split; vm_compute; reflexivity).
  destruct Hrun as [psbtx' [Hrun Hin]]. exists psbtx'.
  split; [exact Hrun|]. split; [exact Hin|].
  exact (FillPSBT_unblinded_output Sample.pwallet Sample.psbt_unblinded 1 true true
           0 Sample.output_unblinded _ _ _ eq_refl eq_refl Hrun).
Defined.

Lemma FillPSBTData_returns_witness :
  SignPSBTInput_returns ∧ SignPSBTInput_frame ∧ well_formed Sample.psbt0
  ∧ ∃ te psbtx',
      FillPSBTData Sample.pwallet Sample.psbt0 true = Normal (te, psbtx')
      ∧ (te = OK ∨ te = INVALID_PSBT)
      ∧ well_formed psbtx'
      ∧ PartiallySignedTransaction.tx psbtx'
        = PartiallySignedTransaction.tx Sample.psbt0
      ∧ (te = INVALID_PSBT →
         PartiallySignedTransaction.outputs psbtx'
         = PartiallySignedTransaction.outputs Sample.psbt0).
Proof.
  assert (Hwf : well_formed Sample.psbt0) by (simpl; split; reflexivity).
  split; [exact sample_SignPSBTInput_returns|].
  split; [exact sample_SignPSBTInput_frame|]. split; [exact Hwf|].
  exact (FillPSBTData_returns Sample.pwallet Sample.psbt0 true
           sample_SignPSBTInput_returns sample_SignPSBTInput_frame Hwf).
Defined.

Lemma FillPSBTInputsData_wallet_miss_witness :
  SignPSBTInput_returns ∧ SignPSBTInput_frame ∧ SignPSBTInput_keeps_value
  ∧ well_formed Sample.psbt0
  ∧ CWallet.mapWallet Sample.pwallet_empty
      !! COutPoint.hash (CTxIn.prevout Sample.txin0) = None
  ∧ FillPSBTInputsData Sample.pwallet_empty Sample.psbt0 true
    = Normal (OK, Sample.psbt0)
  ∧ ∃ te psbtx' input',
      FillPSBTInputsData Sample.pwallet_empty Sample.psbt0 true
        = Normal (te, psbtx')
      ∧ PartiallySignedTransaction.inputs psbtx' !! 0 = Some input'
      ∧ PSBTInput.value input' = PSBTInput.value Sample.input0.
Proof.
  assert (Hwf : well_formed Sample.psbt0) by (simpl; split; reflexivity).
  assert (Hmiss : CWallet.mapWallet Sample.pwallet_empty
                    !! COutPoint.hash (CTxIn.prevout Sample.txin0) = None)
    by (vm_compute; reflexivity).
  split; [exact sample_SignPSBTInput_returns|].
  split; [exact sample_SignPSBTInput_frame|].
  split; [exact sample_SignPSBTInput_keeps_value|].
  split; [exact Hwf|]. split; [exact Hmiss|]. split; [vm_compute; reflexivity|].
  exact (FillPSBTInputsData_wallet_miss Sample.pwallet_empty Sample.psbt0 true
           Sample.skeleton 0 Sample.txin0 Sample.input0
           sample_SignPSBTInput_returns sample_SignPSBTInput_frame
           sample_SignPSBTInput_keeps_value Hwf eq_refl eq_refl eq_refl Hmiss).
Defined.
